(** * Note_taker: note registry, import/export and AI request handling

    A shallow embedding of the coordination core of the Note_taker
    application (src/App.tsx, db/operations, utils/import, utils/export,
    utils/sync, services/llm.ts, services/insights.ts, the InsightsPanel
    and GrammarChecker components) together with the properties its
    specification states about it.

    Conventions of the embedding:
    - a JavaScript string is the list of its UTF-16 code units;
    - a JavaScript number that the code uses as a counter or a timestamp
      is an integer of [Z];
    - [Date.now()], [generateId()] and the outcome of a storage or network
      operation are explicit arguments of the function that consults them;
    - React state is a record, a handler is a function from state to
      state, and what a handler sends out (store writes, broadcasts,
      alerts) is part of that record. *)

From Stdlib Require Import ZArith NArith List Ascii String Bool Lia.
From Stdlib Require Import Sorting.Permutation Sorting.Sorted.
From Stdlib Require Import Numbers.DecimalString Numbers.HexadecimalString.
From stdpp Require Import base option list gmap.

Import ListNotations.
Local Open Scope Z_scope.
Set Warnings "-register-all".

(* ===================================================================== *)
(** * Part I: the embedding *)
(* ===================================================================== *)

(** ** JavaScript strings *)

Module JsString.

(** A string is the list of its UTF-16 code units. *)
Definition jsstring : Type := list N.

(** An ASCII literal of the source. *)
Definition lit (s : string) : jsstring :=
  List.map N_of_ascii (list_ascii_of_string s).

Definition LF : N := 10%N.
Definition COMMA : N := 44%N.
Definition BACKTICK : N := 96%N.
Definition LBRACE : N := 123%N.
Definition RBRACE : N := 125%N.

(** The code units that [String.prototype.trim] strips and that [\s]
    matches in a regular expression: ECMAScript WhiteSpace and
    LineTerminator. *)
Definition isWhiteSpace (c : N) : bool :=
  ((9 <=? c) && (c <=? 13) || (c =? 32) || (c =? 160) || (c =? 5760)
   || (8192 <=? c) && (c <=? 8202) || (c =? 8232) || (c =? 8233)
   || (c =? 8239) || (c =? 8287) || (c =? 12288) || (c =? 65279))%N.

Fixpoint trimStart (s : jsstring) : jsstring :=
  match s with
  | [] => []
  | c :: r => if isWhiteSpace c then trimStart r else s
  end.

Definition trimEnd (s : jsstring) : jsstring := rev (trimStart (rev s)).

(** [s.trim()] *)
Definition trim (s : jsstring) : jsstring := trimEnd (trimStart s).

(** [s.split(sep)] for a separator of one code unit, the only kind the
    source uses.  The result is never empty: [''.split(',')] is ['']. *)
Fixpoint split (sep : N) (s : jsstring) : list jsstring :=
  match s with
  | [] => [[]]
  | c :: r =>
      if (c =? sep)%N then [] :: split sep r
      else match split sep r with
           | [] => [[c]]
           | p :: ps => (c :: p) :: ps
           end
  end.

(** [s.substring(a, b)]: the arguments are swapped when [a > b] and
    clamped to the length. *)
Definition substring (s : jsstring) (a b : nat) : jsstring :=
  take (Nat.max a b - Nat.min a b) (drop (Nat.min a b) s).

(** A string is truthy when it is not empty. *)
Definition truthy (s : jsstring) : bool :=
  match s with [] => false | _ => true end.

Fixpoint startsWith (p s : jsstring) : bool :=
  match p, s with
  | [], _ => true
  | _ :: _, [] => false
  | a :: p', b :: s' => (a =? b)%N && startsWith p' s'
  end.

(** [s.indexOf(p)]: the first position at which [p] occurs. *)
Fixpoint indexOf (p s : jsstring) : option nat :=
  if startsWith p s then Some 0%nat
  else match s with
       | [] => None
       | _ :: r => S <$> indexOf p r
       end.

(** [s.includes(p)] *)
Definition includes (p s : jsstring) : bool :=
  match indexOf p s with Some _ => true | None => false end.

(** [s.toLowerCase()] on the ASCII letters.  Outside ASCII the only
    code units whose lower-case form contains an ASCII letter are U+0130
    (to i) and U+212A (to k); neither letter occurs in the words this
    program searches a lower-cased message for, so leaving code units
    above 127 unchanged gives the same search results. *)
Definition toLowerCase (s : jsstring) : jsstring :=
  List.map (fun c => if ((65 <=? c) && (c <=? 90))%N then (c + 32)%N else c) s.

(** [String(n)] for an integer. *)
Definition ofZ (n : Z) : jsstring :=
  lit (DecimalString.NilZero.string_of_int (Z.to_int n)).

End JsString.
Export JsString.

(** ** Note titles (App.tsx) *)

(** [extractTitle] *)
Definition extractTitle (content : jsstring) : jsstring :=
  let firstLine := trim (default [] (split LF content !! 0%nat)) in
  if truthy firstLine then
    if (50 <? length firstLine)%nat
    then substring firstLine 0 50 ++ lit "..."
    else firstLine
  else [].

(** ** Tag suggestion (services/llm.ts) *)

(** The tail of [suggestTags]: what is made of the endpoint's text. *)
Definition parseTags (response : jsstring) : list jsstring :=
  take 5 (List.filter (fun tag => (0 <? length tag)%nat && (length tag <? 30)%nat)
            (List.map trim (split COMMA response))).

(** ** JSON values (what [JSON.parse] returns)

    Numbers are the integers: the numbers of this program are counters
    and millisecond timestamps. *)

Inductive JValue : Type :=
| JNull
| JBool (b : bool)
| JNum (n : Z)
| JStr (s : jsstring)
| JArr (items : list JValue)
| JObj (fields : list (jsstring * JValue)).

(** Property lookup in a parsed object; [None] is [undefined].  An object
    that [JSON.parse] returns has no repeated key. *)
Fixpoint assoc (key : jsstring) (fields : list (jsstring * JValue)) : option JValue :=
  match fields with
  | [] => None
  | (k, v) :: rest => if bool_decide (k = key) then Some v else assoc key rest
  end.

(** [v.key] for the keys this program reads (none of them is a built-in
    property of a string or an array). *)
Definition getProp (v : JValue) (key : string) : option JValue :=
  match v with
  | JObj fields => assoc (lit key) fields
  | _ => None
  end.

Inductive JsType : Type := TUndefined | TObject | TBoolean | TNumber | TString.

(** [typeof v] *)
Definition typeof (v : option JValue) : JsType :=
  match v with
  | None => TUndefined
  | Some JNull => TObject
  | Some (JBool _) => TBoolean
  | Some (JNum _) => TNumber
  | Some (JStr _) => TString
  | Some (JArr _) => TObject
  | Some (JObj _) => TObject
  end.

Definition isString (v : option JValue) : bool :=
  match typeof v with TString => true | _ => false end.

Definition isNumber (v : option JValue) : bool :=
  match typeof v with TNumber => true | _ => false end.

(** [typeof v === 'object' && v !== null] *)
Definition isNonNullObject (v : JValue) : bool :=
  match v with JArr _ | JObj _ => true | _ => false end.

(** Truthiness of a possibly undefined value. *)
Definition truthyJ (v : option JValue) : bool :=
  match v with
  | None | Some JNull => false
  | Some (JBool b) => b
  | Some (JNum n) => negb (n =? 0)
  | Some (JStr s) => truthy s
  | Some (JArr _) | Some (JObj _) => true
  end.

(** [String(v)], as [new Error(v)] applies it to its argument. *)
Fixpoint toStringJ (v : JValue) : jsstring :=
  match v with
  | JNull => lit "null"
  | JBool true => lit "true"
  | JBool false => lit "false"
  | JNum n => ofZ n
  | JStr s => s
  | JArr items =>
      (fix join (l : list JValue) : jsstring :=
         match l with
         | [] => []
         | x :: rest =>
             (match x with JNull => [] | _ => toStringJ x end)
             ++ (match rest with [] => [] | _ :: _ => COMMA :: join rest end)
         end) items
  | JObj _ => lit "[object Object]"
  end.

(** ** Notes (types.ts) *)

Inductive SubjectType : Type := general | math | chemistry | code | language.

#[global] Instance SubjectType_eq_dec : EqDecision SubjectType.
Proof. solve_decision. Defined.

Record AiMetadata : Type := mkAiMetadata {
  meta_summary : option jsstring;
  lastAnalyzed : option Z
}.

(** The four content fields hold whatever the endpoint's JSON held: the
    code copies them without looking at their type. *)
Record AIInsights : Type := mkAIInsights {
  summary : JValue;
  definitions : list JValue;
  additionalContext : JValue;
  studyQuestions : list JValue;
  generatedAt : Z;
  contentHash : jsstring
}.

(** [version], [tags] and [subjectType] can be [undefined] at run time
    (records of older schema versions, imported files); the code guards
    every read of them with [||]. *)
Record Note : Type := mkNote {
  id : jsstring;
  title : jsstring;
  content : jsstring;
  updatedAt : Z;
  version : option Z;
  tags : option (list jsstring);
  subjectType : option SubjectType;
  aiMetadata : option AiMetadata;
  aiInsights : option AIInsights
}.

(** [n || d] on a possibly undefined number. *)
Definition orNum (n : option Z) (d : Z) : Z :=
  match n with
  | Some v => if v =? 0 then d else v
  | None => d
  end.

Definition withVersion (n : Note) (v : option Z) : Note :=
  mkNote (id n) (title n) (content n) (updatedAt n) v (tags n)
         (subjectType n) (aiMetadata n) (aiInsights n).

Definition withTags (n : Note) (t : option (list jsstring)) : Note :=
  mkNote (id n) (title n) (content n) (updatedAt n) (version n) t
         (subjectType n) (aiMetadata n) (aiInsights n).

Definition withSubject (n : Note) (s : option SubjectType) : Note :=
  mkNote (id n) (title n) (content n) (updatedAt n) (version n) (tags n)
         s (aiMetadata n) (aiInsights n).

Definition withInsights (n : Note) (i : option AIInsights) : Note :=
  mkNote (id n) (title n) (content n) (updatedAt n) (version n) (tags n)
         (subjectType n) (aiMetadata n) i.

(** ** Local store (db/idb, db/operations) *)

Definition isHighSurrogate (c : N) : bool := ((55296 <=? c) && (c <=? 56319))%N.
Definition isLowSurrogate (c : N) : bool := ((56320 <=? c) && (c <=? 57343))%N.

(** [calculateSize]: [new Blob([content]).size], the length of the UTF-8
    encoding (a lone surrogate is encoded as U+FFFD). *)
Fixpoint calculateSize (s : jsstring) : Z :=
  match s with
  | [] => 0
  | c :: r =>
      if (c <? 128)%N then 1 + calculateSize r
      else if (c <? 2048)%N then 2 + calculateSize r
      else if isHighSurrogate c then
        match r with
        | d :: r' => if isLowSurrogate d then 4 + calculateSize r'
                     else 3 + calculateSize r
        | [] => 3
        end
      else 3 + calculateSize r
  end.

(** [isLargeFile] *)
Definition isLargeFile (size : Z) : bool := 10 * 1024 * 1024 <? size.

Record NoteRecord : Type := mkNoteRecord {
  rec_note : Note;
  rec_size : Z
}.

(** The object store, keyed by note id. *)
Abbreviation Store := (gmap jsstring NoteRecord).

(** [normalizeNote] *)
Definition normalizeNote (r : NoteRecord) : Note :=
  let n := rec_note r in
  mkNote (id n) (title n) (content n) (updatedAt n)
         (Some (orNum (version n) 1))
         (Some (default [] (tags n)))
         (Some (default general (subjectType n)))
         (aiMetadata n) (aiInsights n).

(** The record [saveNote] writes: the version is incremented on every
    save. *)
Definition saveNoteRecord (note : Note) : NoteRecord :=
  mkNoteRecord
    (mkNote (id note) (title note) (content note) (updatedAt note)
            (Some (orNum (version note) 0 + 1))
            (Some (default [] (tags note)))
            (Some (default general (subjectType note)))
            (aiMetadata note) (aiInsights note))
    (calculateSize (content note)).

(** [saveNote]: [None] when the storage operation fails ([ok = false]),
    in which case the function throws and the store is as before. *)
Definition saveNote (ok : bool) (note : Note) (db : Store) : option Store :=
  if ok then Some (<[id note := saveNoteRecord note]> db) else None.

(** The record [saveNotes] writes for one note: the version is kept. *)
Definition saveNotesRecord (note : Note) : NoteRecord :=
  mkNoteRecord
    (mkNote (id note) (title note) (content note) (updatedAt note)
            (Some (orNum (version note) 1))
            (Some (default [] (tags note)))
            (Some (default general (subjectType note)))
            (aiMetadata note) (aiInsights note))
    (calculateSize (content note)).

(** [saveNotes]: one transaction, the notes written in order. *)
Definition saveNotes (ok : bool) (l : list Note) (db : Store) : option Store :=
  if ok then Some (fold_left (fun d n => <[id n := saveNotesRecord n]> d) l db)
  else None.

(** [deleteNote] *)
Definition deleteNote (ok : bool) (i : jsstring) (db : Store) : option Store :=
  if ok then Some (delete i db) else None.

(** [clearAllNotes] *)
Definition clearAllNotes (ok : bool) (db : Store) : option Store :=
  if ok then Some ∅ else None.

(** [getNote] *)
Definition getNote (i : jsstring) (db : Store) : option Note :=
  normalizeNote <$> db !! i.

(** Stable sort by [updatedAt], most recent first:
    [l.sort((a, b) => b.updatedAt - a.updatedAt)]. *)
Fixpoint insertByUpdatedAt (x : Note) (l : list Note) : list Note :=
  match l with
  | [] => [x]
  | y :: r => if updatedAt y <=? updatedAt x then x :: y :: r
              else y :: insertByUpdatedAt x r
  end.

Fixpoint sortByUpdatedAtDesc (l : list Note) : list Note :=
  match l with
  | [] => []
  | x :: r => insertByUpdatedAt x (sortByUpdatedAtDesc r)
  end.

(** ** Cross-tab notifier (utils/sync) *)

(** A [SyncMessage]; its [type] is always ['NOTE_UPDATED'].  The version
    is the [version] field of the note that was saved, which can be
    [undefined]. *)
Record SyncMessage : Type := mkSyncMessage {
  noteId : jsstring;
  msg_version : option Z;
  timestamp : Z
}.

(** ** Note registry (App.tsx) *)

Record ConflictState : Type := mkConflictState {
  hasConflict : bool;
  externalVersion : Z
}.

(** The state of [App], with the world it writes to: the object store,
    the broadcasts posted so far (oldest first), the alerts shown so far
    and the note the pending debounce timer will save. *)
Record App : Type := mkApp {
  notes : list Note;
  activeNoteId : option jsstring;
  conflict : option ConflictState;
  isLoading : bool;
  subjectTypeState : SubjectType;
  saveTimer : option Note;
  db : Store;
  outbox : list SyncMessage;
  alerts : list jsstring
}.

Definition setActiveNoteId (a : option jsstring) (st : App) : App :=
  mkApp (notes st) a (conflict st) (isLoading st) (subjectTypeState st)
        (saveTimer st) (db st) (outbox st) (alerts st).

Definition setConflict (c : option ConflictState) (st : App) : App :=
  mkApp (notes st) (activeNoteId st) c (isLoading st) (subjectTypeState st)
        (saveTimer st) (db st) (outbox st) (alerts st).

Definition setSubjectType (s : SubjectType) (st : App) : App :=
  mkApp (notes st) (activeNoteId st) (conflict st) (isLoading st) s
        (saveTimer st) (db st) (outbox st) (alerts st).

Definition setSaveTimer (t : option Note) (st : App) : App :=
  mkApp (notes st) (activeNoteId st) (conflict st) (isLoading st)
        (subjectTypeState st) t (db st) (outbox st) (alerts st).

Definition setDb (d : Store) (st : App) : App :=
  mkApp (notes st) (activeNoteId st) (conflict st) (isLoading st)
        (subjectTypeState st) (saveTimer st) d (outbox st) (alerts st).

(** [postMessage(noteId, version)] at time [now]. *)
Definition postMessage (i : jsstring) (v : option Z) (now : Z) (st : App) : App :=
  mkApp (notes st) (activeNoteId st) (conflict st) (isLoading st)
        (subjectTypeState st) (saveTimer st) (db st)
        (outbox st ++ [mkSyncMessage i v now]) (alerts st).

(** [alert(message)] *)
Definition alert (m : jsstring) (st : App) : App :=
  mkApp (notes st) (activeNoteId st) (conflict st) (isLoading st)
        (subjectTypeState st) (saveTimer st) (db st) (outbox st)
        (alerts st ++ [m]).

(** [setNotes] with a new array, followed by the effect that depends on
    [notes]: the pending timer is cleared and, unless the app is still
    loading, a 300 ms timer is armed for [notes[0]] when there is one. *)
Definition setNotes (l : list Note) (st : App) : App :=
  mkApp l (activeNoteId st) (conflict st) (isLoading st) (subjectTypeState st)
        (if isLoading st then saveTimer st else l !! 0%nat)
        (db st) (outbox st) (alerts st).

(** [notes.find(n => n.id === i)] *)
Definition findNote (i : jsstring) (l : list Note) : option Note :=
  snd <$> list_find (fun n => id n = i) l.

(** [notes.findIndex(n => n.id === i)], [None] for -1. *)
Definition findIndex (i : jsstring) (l : list Note) : option nat :=
  fst <$> list_find (fun n => id n = i) l.

(** [saveNote(note).then(() => postMessage(note.id, note.version))]; a
    failed save is logged and nothing is posted. *)
Definition saveAndBroadcast (ok : bool) (note : Note) (now : Z) (st : App) : App :=
  match saveNote ok note (db st) with
  | Some d => postMessage (id note) (version note) now (setDb d st)
  | None => st
  end.

(** The 300 ms timer fires: [debouncedSave(mostRecentNote)]. *)
Definition fireSaveTimer (ok : bool) (now : Z) (st : App) : App :=
  match saveTimer st with
  | Some n => saveAndBroadcast ok n now (setSaveTimer None st)
  | None => st
  end.

(** [handleCreateNote]; [newId] is what [generateId()] returns. *)
Definition handleCreateNote (newId : jsstring) (now : Z) (ok : bool) (st : App) : App :=
  let newNote := mkNote newId [] [] now (Some 1) (Some []) (Some general) None None in
  match saveNote ok newNote (db st) with
  | Some d => setActiveNoteId (Some newId) (setNotes (newNote :: notes st) (setDb d st))
  | None => alert (lit "Failed to create note. Please try again.") st
  end.

(** [handleSelectNote] *)
Definition handleSelectNote (i : jsstring) (st : App) : App :=
  setConflict None (setActiveNoteId (Some i) st).

(** [handleDeleteNote] *)
Definition handleDeleteNote (i : jsstring) (ok : bool) (st : App) : App :=
  match deleteNote ok i (db st) with
  | Some d =>
      let st1 := setNotes (List.filter (fun n => negb (bool_decide (id n = i))) (notes st))
                          (setDb d st) in
      if bool_decide (activeNoteId st = Some i)
      then setConflict None (setActiveNoteId None st1)
      else st1
  | None => alert (lit "Failed to delete note. Please try again.") st
  end.

(** [handleUpdateNote]: a content edit. *)
Definition handleUpdateNote (i : jsstring) (newContent : jsstring) (now : Z) (st : App) : App :=
  match list_find (fun n => id n = i) (notes st) with
  | None => st
  | Some (noteIndex, old) =>
      let updatedNote :=
        mkNote (id old) (extractTitle newContent) newContent now
               (Some (orNum (version old) 0 + 1))
               (tags old) (subjectType old) (aiMetadata old) (aiInsights old) in
      setNotes (updatedNote :: delete noteIndex (notes st)) st
  end.

(** [handleUpdateNoteFull]: the note is stored as the caller built it. *)
Definition handleUpdateNoteFull (updatedNote : Note) (now : Z) (ok : bool) (st : App) : App :=
  match findIndex (id updatedNote) (notes st) with
  | None => st
  | Some noteIndex =>
      saveAndBroadcast ok updatedNote now
        (setNotes (<[noteIndex := updatedNote]> (notes st)) st)
  end.

(** [handleSubjectChange] *)
Definition handleSubjectChange (subject : SubjectType) (now : Z) (ok : bool) (st : App) : App :=
  let st1 := setSubjectType subject st in
  match activeNoteId st with
  | None => st1
  | Some a =>
      match (if truthy a then findNote a (notes st) else None) with
      | None => st1
      | Some activeNote =>
          if bool_decide (subjectType activeNote = Some subject) then st1
          else
            handleUpdateNoteFull
              (mkNote (id activeNote) (title activeNote) (content activeNote) now
                      (Some (orNum (version activeNote) 0 + 1))
                      (tags activeNote) (Some subject)
                      (aiMetadata activeNote) (aiInsights activeNote))
              now ok st1
      end
  end.

(** [handleRenameNote] *)
Definition handleRenameNote (i : jsstring) (newTitle : jsstring) (now : Z) (ok : bool)
    (st : App) : App :=
  match list_find (fun n => id n = i) (notes st) with
  | None => st
  | Some (noteIndex, old) =>
      let updatedNote :=
        mkNote (id old) newTitle (content old) now
               (Some (orNum (version old) 0 + 1))
               (tags old) (subjectType old) (aiMetadata old) (aiInsights old) in
      saveAndBroadcast ok updatedNote now
        (setNotes (<[noteIndex := updatedNote]> (notes st)) st)
  end.

(** Tag edits of the editor and the sidebar ([handleAddTag],
    [handleRemoveTag]): the note with its tags changed and every other
    field, the version included, as it was, handed to
    [handleUpdateNoteFull]. *)
Definition handleAddTag (note : Note) (tag : jsstring) (now : Z) (ok : bool) (st : App) : App :=
  handleUpdateNoteFull (withTags note (Some (default [] (tags note) ++ [tag]))) now ok st.

Definition handleRemoveTag (note : Note) (tag : jsstring) (now : Z) (ok : bool) (st : App) : App :=
  handleUpdateNoteFull
    (withTags note
       (Some (default [] (List.filter (fun t => negb (bool_decide (t = tag))) <$> tags note))))
    now ok st.

(** The comparison [a > b] of two possibly undefined numbers; when it
    holds, the left number. *)
Definition greaterThan (a b : option Z) : option Z :=
  match a, b with
  | Some x, Some y => if y <? x then Some x else None
  | _, _ => None
  end.

(** What the subscription of [App] does with a received broadcast: the
    argument it calls [setConflict] with, or [None] when it does not call
    it. *)
Definition conflictRaisedBy (message : SyncMessage) (st : App) : option ConflictState :=
  if bool_decide (Some (noteId message) = activeNoteId st) then
    match findNote (noteId message) (notes st) with
    | Some localNote =>
        match greaterThan (msg_version message) (version localNote) with
        | Some v => Some (mkConflictState true v)
        | None => None
        end
    | None => None
    end
  else None.

(** The handler passed to [onMessage]. *)
Definition onSyncMessage (message : SyncMessage) (st : App) : App :=
  match conflictRaisedBy message st with
  | Some c => setConflict (Some c) st
  | None => st
  end.

(** [handleConflictReload]; [ok = false] when reading the store fails. *)
Definition handleConflictReload (ok : bool) (st : App) : App :=
  match activeNoteId st, conflict st with
  | Some a, Some _ =>
      if negb (truthy a) then st
      else if ok then
        match getNote a (db st) with
        | Some latestNote =>
            setConflict None
              (setNotes ((fun n => if bool_decide (id n = a) then latestNote else n)
                           <$> notes st) st)
        | None => setConflict None st
        end
      else setConflict None (alert (lit "Failed to reload changes. Please try again.") st)
  | _, _ => st
  end.

(** [handleConflictIgnore] *)
Definition handleConflictIgnore (st : App) : App := setConflict None st.

(** ** Notes as JSON (utils/export, utils/import) *)

Definition subjectName (s : SubjectType) : jsstring :=
  match s with
  | general => lit "general"
  | math => lit "math"
  | chemistry => lit "chemistry"
  | code => lit "code"
  | language => lit "language"
  end.

Definition subjectOfName (s : jsstring) : option SubjectType :=
  List.find (fun t => bool_decide (subjectName t = s))
            [general; math; chemistry; code; language].

(** A property that is [undefined] is left out by [JSON.stringify]. *)
Definition optField (key : string) (v : option JValue) : list (jsstring * JValue) :=
  match v with
  | Some x => [(lit key, x)]
  | None => []
  end.

Definition metadataToJson (m : AiMetadata) : JValue :=
  JObj (optField "summary" (JStr <$> meta_summary m)
        ++ optField "lastAnalyzed" (JNum <$> lastAnalyzed m)).

Definition insightsToJson (i : AIInsights) : JValue :=
  JObj [ (lit "summary", summary i);
         (lit "definitions", JArr (definitions i));
         (lit "additionalContext", additionalContext i);
         (lit "studyQuestions", JArr (studyQuestions i));
         (lit "generatedAt", JNum (generatedAt i));
         (lit "contentHash", JStr (contentHash i)) ].

(** The JSON value of a note object. *)
Definition noteToJson (n : Note) : JValue :=
  JObj ([ (lit "id", JStr (id n));
          (lit "title", JStr (title n));
          (lit "content", JStr (content n));
          (lit "updatedAt", JNum (updatedAt n)) ]
        ++ optField "version" (JNum <$> version n)
        ++ optField "tags" ((fun t => JArr (JStr <$> t)) <$> tags n)
        ++ optField "subjectType" ((fun s => JStr (subjectName s)) <$> subjectType n)
        ++ optField "aiMetadata" (metadataToJson <$> aiMetadata n)
        ++ optField "aiInsights" (insightsToJson <$> aiInsights n)).

Definition readStr (v : JValue) : option jsstring :=
  match v with JStr s => Some s | _ => None end.

Definition readNum (v : JValue) : option Z :=
  match v with JNum n => Some n | _ => None end.

Definition readArr (v : JValue) : option (list JValue) :=
  match v with JArr l => Some l | _ => None end.

(** An optional property: absent, or present with the declared type. *)
Definition readOpt {A : Type} (rd : JValue -> option A) (v : option JValue) : option (option A) :=
  match v with
  | None => Some None
  | Some x => Some <$> rd x
  end.

Definition readMetadata (v : JValue) : option AiMetadata :=
  match v with
  | JObj _ =>
      s ← readOpt readStr (getProp v "summary");
      a ← readOpt readNum (getProp v "lastAnalyzed");
      Some (mkAiMetadata s a)
  | _ => None
  end.

Definition readInsights (v : JValue) : option AIInsights :=
  s ← getProp v "summary";
  d ← getProp v "definitions" ≫= readArr;
  c ← getProp v "additionalContext";
  q ← getProp v "studyQuestions" ≫= readArr;
  g ← getProp v "generatedAt" ≫= readNum;
  h ← getProp v "contentHash" ≫= readStr;
  Some (mkAIInsights s d c q g h).

(** Reading a parsed object at the type [Note], as the cast
    [importedData.notes as Note[]] assumes it can be read.  [None] when a
    property has a type the declaration of [Note] excludes. *)
Definition asNote (v : JValue) : option Note :=
  i ← getProp v "id" ≫= readStr;
  t ← getProp v "title" ≫= readStr;
  c ← getProp v "content" ≫= readStr;
  u ← getProp v "updatedAt" ≫= readNum;
  ver ← readOpt readNum (getProp v "version");
  tg ← readOpt (fun x => readArr x ≫= mapM readStr) (getProp v "tags");
  sub ← readOpt (fun x => readStr x ≫= subjectOfName) (getProp v "subjectType");
  md ← readOpt readMetadata (getProp v "aiMetadata");
  ins ← readOpt readInsights (getProp v "aiInsights");
  Some (mkNote i t c u ver tg sub md ins).

(** The test [validateImportData] applies to each element of [notes]. *)
Definition validNoteShape (note : JValue) : bool :=
  if negb (isNonNullObject note) then false
  else isString (getProp note "id")
       && isString (getProp note "title")
       && isString (getProp note "content")
       && isNumber (getProp note "updatedAt").

(** [validateImportData] *)
Definition validateImportData (data : JValue) : bool :=
  if negb (isNonNullObject data) then false
  else if negb (isString (getProp data "version")) then false
  else if negb (isString (getProp data "exportedAt")) then false
  else match getProp data "notes" with
       | Some (JArr items) => forallb validNoteShape items
       | _ => false
       end.

Inductive ImportMode : Type := merge | replace.

(** [ImportResult | ImportError] *)
Inductive ImportResult : Type :=
| ImportSuccess (message : jsstring) (importedCount newCount updatedCount : Z)
| ImportFailure (message : jsstring).

(** The [id] of an element that passed [validNoteShape]. *)
Definition jsonId (v : JValue) : jsstring :=
  match getProp v "id" with
  | Some (JStr s) => s
  | _ => []
  end.

(** The counting loop of merge mode: [keys] are the keys of
    [currentNotesMap]. *)
Fixpoint mergeCounts (imported : list JValue) (keys : gset jsstring)
    (newCount updatedCount : Z) : Z * Z :=
  match imported with
  | [] => (newCount, updatedCount)
  | n :: rest =>
      if bool_decide (jsonId n ∈ keys)
      then mergeCounts rest ({[jsonId n]} ∪ keys) newCount (updatedCount + 1)
      else mergeCounts rest ({[jsonId n]} ∪ keys) (newCount + 1) updatedCount
  end.

(** A [Map] from ids to notes, in insertion order. *)
Fixpoint mapSet (k : jsstring) (v : Note) (m : list (jsstring * Note)) : list (jsstring * Note) :=
  match m with
  | [] => [(k, v)]
  | (k', v') :: r =>
      if bool_decide (k' = k) then (k, v) :: r else (k', v') :: mapSet k v r
  end.

Definition mapOfNotes (l : list Note) : list (jsstring * Note) :=
  fold_left (fun m n => mapSet (id n) n m) l [].

Section ImportExport.

(** The platform's [JSON.parse] (the message of the [SyntaxError] on the
    right) and [JSON.stringify]. *)
Variable JSON_parse : jsstring -> JValue + jsstring.
Variable JSON_stringify : JValue -> jsstring.

(** The value [exportNotes] serializes. *)
Definition exportData (l : list Note) (exportedAt : jsstring) : JValue :=
  JObj [ (lit "version", JStr (lit "1.0"));
         (lit "exportedAt", JStr exportedAt);
         (lit "notes", JArr (noteToJson <$> l)) ].

(** [exportNotes]: the content of the downloaded file; [exportedAt] is
    [new Date().toISOString()]. *)
Definition exportNotes (l : list Note) (exportedAt : jsstring) : jsstring :=
  JSON_stringify (exportData l exportedAt).

(** [importNotes] *)
Definition importNotes (fileContent : jsstring) (currentNotes : list Note)
    (mode : ImportMode) : ImportResult :=
  match JSON_parse fileContent with
  | inr err => ImportFailure (lit "Failed to parse file: " ++ err)
  | inl parsed =>
      if negb (validateImportData parsed) then
        ImportFailure (lit "Invalid file format. Expected valid JSON with notes array.")
      else
        let importedNotes := default [] (getProp parsed "notes" ≫= readArr) in
        let '(newCount, updatedCount) :=
          match mode with
          | replace => (Z.of_nat (length importedNotes), 0)
          | merge =>
              mergeCounts importedNotes (list_to_set (id <$> currentNotes)) 0 0
          end in
        let totalCount := newCount + updatedCount in
        let message :=
          match mode with
          | replace => lit "Imported " ++ ofZ totalCount ++ lit " notes (replaced all)"
          | merge => lit "Imported " ++ ofZ totalCount ++ lit " notes ("
                     ++ ofZ newCount ++ lit " new, " ++ ofZ updatedCount ++ lit " updated)"
          end in
        ImportSuccess message totalCount newCount updatedCount
  end.

(** [importedData.notes] of [handleImport], read at the type [Note]. *)
Definition importedNotesOf (fileContent : jsstring) : option (list Note) :=
  match JSON_parse fileContent with
  | inl importedData =>
      items ← getProp importedData "notes" ≫= readArr;
      mapM asNote items
  | inr _ => None
  end.

(** [handleImport].  [okClear] and [okSave] tell whether [clearAllNotes]
    and [saveNotes] succeed; when one fails the handler stops there with
    the state it has reached.  The result is [None] when the file passed
    validation with a note that is not of type [Note]. *)
Definition handleImport (fileContent : jsstring) (mode : ImportMode)
    (okClear okSave : bool) (st : App) : option App :=
  match importNotes fileContent (notes st) mode with
  | ImportFailure message => Some (alert (lit "Import failed: " ++ message) st)
  | ImportSuccess message _ _ _ =>
      imported ← importedNotesOf fileContent;
      match mode with
      | replace =>
          match clearAllNotes okClear (db st) with
          | None => Some st
          | Some cleared =>
              let newNotes := sortByUpdatedAtDesc imported in
              match saveNotes okSave newNotes cleared with
              | None => Some (setDb cleared st)
              | Some d => Some (alert message (setNotes newNotes (setDb d st)))
              end
          end
      | merge =>
          let currentNotesMap :=
            fold_left (fun m n => mapSet (id n) n m) imported (mapOfNotes (notes st)) in
          let newNotes := sortByUpdatedAtDesc (snd <$> currentNotesMap) in
          match saveNotes okSave newNotes (db st) with
          | None => Some st
          | Some d => Some (alert message (setNotes newNotes (setDb d st)))
          end
      end
  end.

End ImportExport.

(** ** The remote endpoint as the client sees it *)

(** What [fetch('/api/generate', ...)] resolves to: the status and what
    [response.json()] gives (on the right, the message of the error it
    rejects with). *)
Record HttpResponse : Type := mkHttpResponse {
  status : Z;
  body : JValue + jsstring
}.

(** [response.ok] *)
Definition responseOk (r : HttpResponse) : bool :=
  (200 <=? status r) && (status r <=? 299).

(** The outcome of an async function: its value, or the message of the
    [Error] it rejects with. *)
Inductive Result (A : Type) : Type :=
| Returned (a : A)
| Thrown (message : jsstring).
Arguments Returned {A} a.
Arguments Thrown {A} message.

(** The message of the [TypeError] raised by reading a property of
    [null] or by calling a method a value does not have.  Its wording is
    the platform's. *)
Definition typeErrorMessage : jsstring := lit "TypeError".

(** [v.key] where [v] may be [null]. *)
Definition propOf (v : JValue) (key : string) : Result (option JValue) :=
  match v with
  | JNull => Thrown typeErrorMessage
  | _ => Returned (getProp v key)
  end.

(** [new Error(m || fallback).message] *)
Definition messageOr (m : option JValue) (fallback : jsstring) : jsstring :=
  match m with
  | Some v => if truthyJ m then toStringJ v else fallback
  | None => fallback
  end.

(** [response.json().catch(() => ({}))] *)
Definition jsonOrEmpty (r : HttpResponse) : JValue :=
  match body r with
  | inl v => v
  | inr _ => JObj []
  end.

Inductive AIStatus : Type := connected | offline | checking.

#[global] Instance AIStatus_eq_dec : EqDecision AIStatus.
Proof. solve_decision. Defined.

(** ** Text generation (services/llm.ts) *)

Definition SPACE : N := 32%N.

(** [generateText], from the response on: the chunks handed to
    [onStream] (when [streaming]) and the value returned, [data.response]. *)
Definition generateText (streaming : bool) (r : HttpResponse)
    : Result (list jsstring * option JValue) :=
  if status r =? 429 then
    match body r with
    | inr e => Thrown e
    | inl data =>
        match propOf data "message" with
        | Thrown e => Thrown e
        | Returned m => Thrown (messageOr m (lit "Rate limited. Please wait a moment."))
        end
    end
  else if negb (responseOk r) then
    match propOf (jsonOrEmpty r) "message" with
    | Thrown e => Thrown e
    | Returned m => Thrown (messageOr m (lit "HTTP error! status: " ++ ofZ (status r)))
    end
  else
    match body r with
    | inr e => Thrown e
    | inl data =>
        match propOf data "response" with
        | Thrown e => Thrown e
        | Returned resp =>
            if streaming && truthyJ resp then
              match resp with
              | Some (JStr text) =>
                  Returned ((fun chunk => chunk ++ [SPACE]) <$> split SPACE text, resp)
              | _ => Thrown typeErrorMessage
              end
            else Returned ([], resp)
        end
    end.

(** [generateSummary] and [continueWriting], from the response on. *)
Definition generateSummary (r : HttpResponse) : Result (list jsstring * option JValue) :=
  generateText true r.

Definition continueWriting (r : HttpResponse) : Result (list jsstring * option JValue) :=
  generateText true r.

(** [suggestTags], from the response on. *)
Definition suggestTags (r : HttpResponse) : Result (list jsstring) :=
  match generateText false r with
  | Thrown e => Thrown e
  | Returned (_, Some (JStr response)) => Returned (parseTags response)
  | Returned (_, _) => Thrown typeErrorMessage
  end.

(** ** The worker (workers/llm.worker.ts) *)

Inductive WorkerMessageType : Type := SUMMARIZE | TAGS | CONTINUE.

Inductive WorkerData : Type :=
| DataText (text : option JValue)
| DataTags (l : list jsstring).

(** The final [WorkerResponse] of a request and, before it, the chunks
    streamed to the main thread. *)
Record WorkerResponse : Type := mkWorkerResponse {
  wr_chunks : list jsstring;
  wr_success : bool;
  wr_data : option WorkerData;
  wr_error : option jsstring
}.

(** The message listener of the worker, from the response on. *)
Definition workerHandle (type : WorkerMessageType) (r : HttpResponse) : WorkerResponse :=
  match type with
  | SUMMARIZE =>
      match generateSummary r with
      | Returned (chunks, text) => mkWorkerResponse chunks true (Some (DataText text)) None
      | Thrown e => mkWorkerResponse [] false None (Some e)
      end
  | TAGS =>
      match suggestTags r with
      | Returned l => mkWorkerResponse [] true (Some (DataTags l)) None
      | Thrown e => mkWorkerResponse [] false None (Some e)
      end
  | CONTINUE =>
      match continueWriting r with
      | Returned (chunks, text) => mkWorkerResponse chunks true (Some (DataText text)) None
      | Thrown e => mkWorkerResponse [] false None (Some e)
      end
  end.

(** ** Summary and tags (components/AISidebar.tsx) *)

(** The state of [AISidebar], with the times at which it sent a request
    to the endpoint and the notes it passed to [onUpdateNote]. *)
Record AISidebar : Type := mkAISidebar {
  sb_summary : jsstring;
  sb_suggestedTags : list jsstring;
  sb_error : option jsstring;
  sb_fetched : list Z;
  sb_updates : list Note
}.

Definition withMetadata (n : Note) (m : option AiMetadata) : Note :=
  mkNote (id n) (title n) (content n) (updatedAt n) (version n) (tags n)
         (subjectType n) m (aiInsights n).

(** The summary a note carries: [note.aiMetadata?.summary || '']. *)
Definition storedSummary (n : Note) : jsstring :=
  default [] (aiMetadata n ≫= meta_summary).

(** [handleGenerateSummary]: started at [now], the endpoint answers [r] at
    [now + latency]. *)
Definition handleGenerateSummary (note : option Note) (aiStatus : AIStatus)
    (now latency : Z) (r : HttpResponse) (sb : AISidebar) : AISidebar :=
  match note with
  | None => sb
  | Some n =>
      if negb (bool_decide (aiStatus = connected)) then sb
      else
        let response := workerHandle SUMMARIZE r in
        let streamed := List.concat (wr_chunks response) in
        let fetched := sb_fetched sb ++ [now] in
        match wr_success response, wr_data response with
        | true, Some (DataText (Some (JStr text))) =>
            mkAISidebar streamed (sb_suggestedTags sb) None fetched
              (sb_updates sb
               ++ [withMetadata n (Some (mkAiMetadata (Some text) (Some (now + latency))))])
        | _, _ =>
            match wr_error response with
            | Some e =>
                if truthy e
                then mkAISidebar (storedSummary n) (sb_suggestedTags sb) (Some e)
                                 fetched (sb_updates sb)
                else mkAISidebar streamed (sb_suggestedTags sb) None fetched (sb_updates sb)
            | None => mkAISidebar streamed (sb_suggestedTags sb) None fetched (sb_updates sb)
            end
        end
  end.

(** [handleSuggestTags] *)
Definition handleSuggestTags (note : option Note) (aiStatus : AIStatus)
    (now : Z) (r : HttpResponse) (sb : AISidebar) : AISidebar :=
  match note with
  | None => sb
  | Some n =>
      if negb (bool_decide (aiStatus = connected)) then sb
      else
        let response := workerHandle TAGS r in
        let fetched := sb_fetched sb ++ [now] in
        match wr_success response, wr_data response with
        | true, Some (DataTags l) =>
            mkAISidebar (sb_summary sb) l None fetched (sb_updates sb)
        | _, _ =>
            match wr_error response with
            | Some e =>
                mkAISidebar (sb_summary sb) (sb_suggestedTags sb)
                            (if truthy e then Some e else None) fetched (sb_updates sb)
            | None =>
                mkAISidebar (sb_summary sb) (sb_suggestedTags sb) None fetched (sb_updates sb)
            end
        end
  end.

(** ** Continuation (components/Editor.tsx) *)

(** The part of the editor's state that a continuation request touches.
    The editor has no state that holds an error message. *)
Record EditorAI : Type := mkEditorAI {
  ghostText : jsstring;
  ed_fetched : list Z
}.

(** [generateContinuation]; [textareaValue] is the content of the
    textarea. *)
Definition generateContinuation (note : option Note) (aiStatus : AIStatus)
    (textareaValue : jsstring) (now : Z) (r : HttpResponse) (e : EditorAI) : EditorAI :=
  match note with
  | None => e
  | Some _ =>
      if negb (bool_decide (aiStatus = connected)) then e
      else if negb (truthy (trim textareaValue)) then e
      else
        let response := workerHandle CONTINUE r in
        if wr_success response
        then mkEditorAI (List.concat (wr_chunks response)) (ed_fetched e ++ [now])
        else mkEditorAI [] (ed_fetched e ++ [now])
  end.

(** ** Extracting JSON from the endpoint's text *)

(** The position of the last occurrence of one code unit. *)
Fixpoint lastIndexOfUnit (c : N) (s : jsstring) : option nat :=
  match s with
  | [] => None
  | x :: r =>
      match lastIndexOfUnit c r with
      | Some j => Some (S j)
      | None => if (x =? c)%N then Some 0%nat else None
      end
  end.

Definition FENCE : jsstring := [BACKTICK; BACKTICK; BACKTICK].

(** [text.match(/```json\s*([\s\S]*?)```/)], and with [optionalJson] the
    variant [/```(?:json)?\s*([\s\S]*?)```/]: the whole match and its
    group.  A match starts at the first opener; after it the white space
    is skipped and the group runs to the next fence.  (No fence can begin
    inside the opener or the skipped white space, so when the first
    opener has no closing fence no later one has.) *)
Definition matchFence (optionalJson : bool) (text : jsstring) : option (jsstring * jsstring) :=
  let opener := if optionalJson then FENCE else FENCE ++ lit "json" in
  match indexOf opener text with
  | None => None
  | Some i =>
      let afterOpener := drop (i + length opener) text in
      let afterTag :=
        if optionalJson && startsWith (lit "json") afterOpener
        then drop 4 afterOpener else afterOpener in
      let inner := trimStart afterTag in
      match indexOf FENCE inner with
      | None => None
      | Some j =>
          Some (take (length text - i - length inner + j + 3) (drop i text),
                take j inner)
      end
  end.

(** [text.match(/\{[\s\S]*\}/)]: from the first opening brace to the last
    closing brace after it. *)
Definition matchBraces (text : jsstring) : option jsstring :=
  match indexOf [LBRACE] text, lastIndexOfUnit RBRACE text with
  | Some i, Some j =>
      if (i <? j)%nat then Some (take (j - i + 1) (drop i text)) else None
  | _, _ => None
  end.

(** [jsonMatch ? jsonMatch[1] || jsonMatch[0] : text] *)
Definition extractJsonText (optionalJson : bool) (text : jsstring) : jsstring :=
  match matchFence optionalJson text with
  | Some (whole, group) => if truthy group then group else whole
  | None =>
      match matchBraces text with
      | Some whole => whole
      | None => text
      end
  end.

(** [v || d] *)
Definition orElse (v : option JValue) (d : JValue) : JValue :=
  match v with
  | Some x => if truthyJ v then x else d
  | None => d
  end.

(** [Array.isArray(v) ? v : []] *)
Definition arrayOrEmpty (v : option JValue) : list JValue :=
  match v with
  | Some (JArr l) => l
  | _ => []
  end.

(** ** Insights (services/insights.ts) *)

(** [ToInt32] *)
Definition toInt32 (x : Z) : Z := (x + 2147483648) mod 4294967296 - 2147483648.

(** [n.toString(16)] for an integer. *)
Definition toHex (n : Z) : jsstring :=
  lit (HexadecimalString.NilZero.string_of_int (Z.to_hex_int n)).

(** [hashContent]: [hash << 5] is [toInt32 (hash * 32)]. *)
Definition hashContent (s : jsstring) : jsstring :=
  toHex (fold_left (fun hash char => toInt32 (toInt32 (hash * 32) - hash + Z.of_N char)) s 0).

(** [isInsightsStale] *)
Definition isInsightsStale (insights : option AIInsights) (currentContent : jsstring) : bool :=
  match insights with
  | None => true
  | Some i => negb (bool_decide (contentHash i = hashContent currentContent))
  end.

Definition COOLDOWN_MS : Z := 3000.
Definition RETRY_DELAY_MS : Z := 3000.

(** [Math.ceil(x / 1000)] for an integer [x]. *)
Definition ceilSeconds (x : Z) : Z := - ((- x) / 1000).

Record GrammarResult : Type := mkGrammarResult {
  corrected : JValue;
  suggestions : list JValue
}.

(** The state of [GrammarChecker] and the times at which it called the
    endpoint. *)
Record GrammarChecker : Type := mkGrammarChecker {
  gc_result : option GrammarResult;
  gc_error : option jsstring;
  gc_cooldownRemaining : Z;
  gc_lastCheckTime : Z;
  gc_fetched : list Z
}.

(** The state of [InsightsPanel], the times at which it called the
    endpoint, the times for which it scheduled a retry and the notes it
    passed to [onUpdateNote]. *)
Record InsightsPanel : Type := mkInsightsPanel {
  ip_insights : option AIInsights;
  ip_isGenerating : bool;
  ip_error : option jsstring;
  ip_cooldownRemaining : Z;
  ip_isRetrying : bool;
  ip_lastRequestTime : Z;
  ip_fetched : list Z;
  ip_retries : list Z;
  ip_updates : list Note
}.

(** The test of the error message in [generate]. *)
Definition isRateLimitMessage (errorMessage : jsstring) : bool :=
  includes (lit "rate") (toLowerCase errorMessage)
  || includes (lit "429") (toLowerCase errorMessage)
  || includes (lit "too many") (toLowerCase errorMessage).

Section Parsing.

(** The platform's [JSON.parse]. *)
Variable JSON_parse : jsstring -> JValue + jsstring.

(** The [try] block of [generateInsights]: [parsed]. *)
Definition parseInsightsText (response : option JValue) : JValue :=
  match (if truthyJ response then response else Some (JStr [])) with
  | Some (JStr text) =>
      match JSON_parse (trim (extractJsonText false text)) with
      | inl v => v
      | inr _ => JObj []
      end
  | _ => JObj []
  end.

(** [generateInsights], from the response on; [now] is the time at which
    the result is built. *)
Definition generateInsights (noteContent : jsstring) (now : Z) (r : HttpResponse)
    : Result AIInsights :=
  if status r =? 429 then
    match propOf (jsonOrEmpty r) "message" with
    | Thrown e => Thrown e
    | Returned m => Thrown (messageOr m (lit "Rate limited. Please wait a moment."))
    end
  else if negb (responseOk r) then
    match propOf (jsonOrEmpty r) "message" with
    | Thrown e => Thrown e
    | Returned m => Thrown (messageOr m (lit "HTTP error! status: " ++ ofZ (status r)))
    end
  else
    match body r with
    | inr e => Thrown e
    | inl data =>
        match propOf data "response" with
        | Thrown e => Thrown e
        | Returned response =>
            let parsed := parseInsightsText response in
            match parsed with
            | JNull => Thrown typeErrorMessage
            | _ =>
                Returned
                  (mkAIInsights
                     (orElse (getProp parsed "summary") (JStr (lit "No summary available.")))
                     (arrayOrEmpty (getProp parsed "definitions"))
                     (orElse (getProp parsed "additionalContext") (JStr []))
                     (arrayOrEmpty (getProp parsed "studyQuestions"))
                     now
                     (hashContent noteContent))
            end
        end
    end.

(** [generate] of [InsightsPanel], called at [now].  [script] lists what
    the endpoint will answer to the successive calls, each answer with
    the time it takes; when it is exhausted the call stays pending.
    [seenRetrying] is the value of [isRetrying] captured by the callback.
    A retry runs [RETRY_DELAY_MS] after the answer that caused it. *)
Fixpoint generate (script : list (Z * HttpResponse)) (note : option Note)
    (aiStatus : AIStatus) (seenRetrying : bool) (isRetry : bool) (now : Z)
    (p : InsightsPanel) : InsightsPanel :=
  match note with
  | None => p
  | Some n =>
      if negb (bool_decide (aiStatus = connected)) then p
      else
        let timeSinceLastRequest := now - ip_lastRequestTime p in
        if negb isRetry && (timeSinceLastRequest <? COOLDOWN_MS) then
          mkInsightsPanel (ip_insights p) (ip_isGenerating p)
            (Some (lit "Please wait "
                   ++ ofZ (ceilSeconds (COOLDOWN_MS - timeSinceLastRequest))
                   ++ lit "s between requests"))
            (ip_cooldownRemaining p) (ip_isRetrying p) (ip_lastRequestTime p)
            (ip_fetched p) (ip_retries p) (ip_updates p)
        else
          let fetched := ip_fetched p ++ [now] in
          let remaining := ceilSeconds COOLDOWN_MS in
          match script with
          | [] =>
              mkInsightsPanel (ip_insights p) true None remaining false now
                              fetched (ip_retries p) (ip_updates p)
          | (latency, r) :: rest =>
              let settled := now + latency in
              let generating := seenRetrying in
              match generateInsights (content n) settled r with
              | Returned newInsights =>
                  mkInsightsPanel (Some newInsights) generating None remaining false now
                                  fetched (ip_retries p)
                                  (ip_updates p ++ [withInsights n (Some newInsights)])
              | Thrown errorMessage =>
                  if isRateLimitMessage errorMessage then
                    generate rest note aiStatus seenRetrying true
                      (settled + RETRY_DELAY_MS)
                      (mkInsightsPanel (ip_insights p) generating
                         (Some (lit "Service busy, retrying in 3 seconds..."))
                         remaining true now fetched
                         (ip_retries p ++ [settled + RETRY_DELAY_MS]) (ip_updates p))
                  else
                    mkInsightsPanel (ip_insights p) generating (Some errorMessage)
                                    remaining false now fetched
                                    (ip_retries p) (ip_updates p)
              end
          end
  end.

(** The interval callback of [startCooldown] in [InsightsPanel]. *)
Definition insightsTick (now : Z) (p : InsightsPanel) : InsightsPanel :=
  let remaining := ceilSeconds (COOLDOWN_MS - (now - ip_lastRequestTime p)) in
  mkInsightsPanel (ip_insights p) (ip_isGenerating p) (ip_error p)
    (if remaining <=? 0 then 0 else remaining)
    (ip_isRetrying p) (ip_lastRequestTime p) (ip_fetched p) (ip_retries p)
    (ip_updates p).

(** The interval callback of [startCooldown] in [GrammarChecker]. *)
Definition grammarTick (now : Z) (g : GrammarChecker) : GrammarChecker :=
  let remaining := ceilSeconds (COOLDOWN_MS - (now - gc_lastCheckTime g)) in
  mkGrammarChecker (gc_result g) (gc_error g)
    (if remaining <=? 0 then 0 else remaining)
    (gc_lastCheckTime g) (gc_fetched g).

(** What [checkGrammar] makes of a response. *)
Definition grammarOutcome (noteContent : jsstring) (r : HttpResponse) : Result GrammarResult :=
  if status r =? 429 then Thrown (lit "Rate limited. Please wait a moment.")
  else if negb (responseOk r) then Thrown (lit "HTTP error! status: " ++ ofZ (status r))
  else
    match body r with
    | inr e => Thrown e
    | inl data =>
        match propOf data "response" with
        | Thrown e => Thrown e
        | Returned response =>
            match (if truthyJ response then response else Some (JStr [])) with
            | Some (JStr text) =>
                let fallback :=
                  mkGrammarResult
                    (if truthy (trim text) then JStr (trim text) else JStr noteContent) [] in
                match JSON_parse (trim (extractJsonText true text)) with
                | inl JNull => Returned fallback
                | inl parsedJson =>
                    Returned
                      (mkGrammarResult
                         (orElse (getProp parsedJson "corrected") (JStr noteContent))
                         (arrayOrEmpty (getProp parsedJson "changes")))
                | inr _ => Returned fallback
                end
            | _ => Thrown typeErrorMessage
            end
        end
    end.

(** [checkGrammar] of [GrammarChecker], called at [now]. *)
Definition checkGrammar (noteContent : jsstring) (aiStatus : AIStatus) (now : Z)
    (r : HttpResponse) (g : GrammarChecker) : GrammarChecker :=
  let hasContent := (20 <? length (trim noteContent))%nat in
  let isOffline := bool_decide (aiStatus = offline) in
  let isInCooldown := 0 <? gc_cooldownRemaining g in
  if negb hasContent || isOffline || isInCooldown then g
  else
    match grammarOutcome noteContent r with
    | Returned parsed =>
        mkGrammarChecker (Some parsed) None 3 now (gc_fetched g ++ [now])
    | Thrown e =>
        mkGrammarChecker None (Some e) 3 now (gc_fetched g ++ [now])
    end.

End Parsing.

(** ** Counts shown in the footer (App.tsx) *)

(** The pieces of [s.split(/\s+/)]: the separators are the maximal runs of
    white space, and a run at the start or the end of the string leaves an
    empty piece there.  [inGap] tells that the unit before [s] was white
    space. *)
Fixpoint splitWhiteSpaceFrom (inGap : bool) (s : jsstring) : list jsstring :=
  match s with
  | [] => [[]]
  | c :: r =>
      if isWhiteSpace c then
        if inGap then splitWhiteSpaceFrom true r
        else [] :: splitWhiteSpaceFrom true r
      else
        match splitWhiteSpaceFrom false r with
        | [] => [[c]]
        | p :: ps => (c :: p) :: ps
        end
  end.

Definition splitWhiteSpace (s : jsstring) : list jsstring :=
  splitWhiteSpaceFrom false s.

(** [countWords] *)
Definition countWords (text : jsstring) : Z :=
  if negb (truthy (trim text)) then 0
  else Z.of_nat (length (List.filter (fun word => (0 <? length word)%nat)
                                     (splitWhiteSpace (trim text)))).

(** The memoized [wordCount] and [isActiveNoteLarge] of [App]. *)
Definition activeNoteOf (st : App) : option Note :=
  match activeNoteId st with
  | Some a => if truthy a then findNote a (notes st) else None
  | None => None
  end.

Definition wordCount (st : App) : Z :=
  match activeNoteOf st with
  | Some note => countWords (content note)
  | None => 0
  end.

Definition isActiveNoteLarge (st : App) : bool :=
  match activeNoteOf st with
  | Some note => isLargeFile (calculateSize (content note))
  | None => false
  end.

(** ** Renaming from the list (components/NoteItem.tsx) *)

(** [handleSave] of [NoteItem], with [onRename] bound to
    [handleRenameNote]: a title that is blank after trimming is not passed
    on. *)
Definition noteItemSave (noteId editValue : jsstring) (now : Z) (ok : bool) (st : App) : App :=
  let trimmed := trim editValue in
  if (0 <? length trimmed)%nat then handleRenameNote noteId trimmed now ok st
  else st.

(** ** The numeric hash of [hashContent] (services/insights.ts) *)

(** The value of [hash] when the loop of [hashContent] ends. *)
Definition hashNumber (s : jsstring) : Z :=
  fold_left (fun hash char => toInt32 (toInt32 (hash * 32) - hash + Z.of_N char)) s 0.

(** ** Tags typed in the editor (components/Editor.tsx) *)

(** [handleSubmit] and [handleBlur] of [QuickAddTag], with [onAdd] bound
    to the editor's [handleAddTag]: a blank tag is not passed on. *)
Definition quickAddTag (note : Note) (value : jsstring) (now : Z) (ok : bool) (st : App) : App :=
  let trimmed := trim value in
  if truthy trimmed then handleAddTag note trimmed now ok st else st.

(** ** Accepting a continuation (components/Editor.tsx) *)

(** [acceptGhostText]: the new content of the textarea and the new
    position of the caret, or [None] when there is no ghost text. *)
Definition acceptGhostText (currentContent ghost : jsstring) (cursorPosition : nat)
    : option (jsstring * nat) :=
  if negb (truthy ghost) then None
  else Some (substring currentContent 0 cursorPosition ++ ghost
             ++ drop cursorPosition currentContent,
             (cursorPosition + length ghost)%nat).

(** ** What a request carries of the note (services/llm.ts) *)

(** The limits, in code units. *)
Definition SUMMARY_LIMIT : nat := Z.to_nat 6000.
Definition TAGS_LIMIT : nat := Z.to_nat 2000.
Definition CONTEXT_LIMIT : nat := Z.to_nat 4000.

(** [truncatedContent] of [generateSummary] and of [suggestTags]. *)
Definition summaryContent (content : jsstring) : jsstring :=
  if (SUMMARY_LIMIT <? length content)%nat
  then substring content 0 SUMMARY_LIMIT ++ [LF; LF] ++ lit "[Content truncated...]"
  else content.

Definition tagsContent (content : jsstring) : jsstring :=
  if (TAGS_LIMIT <? length content)%nat
  then substring content 0 TAGS_LIMIT ++ lit "..."
  else content.

(** [payload.cursorPosition || payload.content.length] of the worker. *)
Definition workerCursor (cursorPosition : option nat) (content : jsstring) : nat :=
  match cursorPosition with
  | Some (S n) => S n
  | _ => length content
  end.

(** [truncated] of [continueWriting]. *)
Definition continuationContext (content : jsstring) (cursorPosition : nat) : jsstring :=
  let contentBefore := substring content 0 cursorPosition in
  if (CONTEXT_LIMIT <? length contentBefore)%nat
  then drop (length contentBefore - CONTEXT_LIMIT) contentBefore
  else contentBefore.

(** ** Auto-generation on idle (components/AIStatusBar.tsx) *)

Section Idle.

Variable JSON_parse : jsstring -> JValue + jsstring.

(** [handleIdle] of [InsightsPanel], called at [now]. *)
Definition handleIdle (autoGenerate : bool) (script : list (Z * HttpResponse))
    (note : option Note) (aiStatus : AIStatus) (seenRetrying : bool) (now : Z)
    (p : InsightsPanel) : InsightsPanel :=
  match note with
  | None => p
  | Some n =>
      if negb autoGenerate || negb (bool_decide (aiStatus = connected)) then p
      else if now - ip_lastRequestTime p <? COOLDOWN_MS then p
      else if isInsightsStale (aiInsights n) (content n)
           then generate JSON_parse script note aiStatus seenRetrying false now p
           else p
  end.

End Idle.

(** ** The fallback of the cross-tab notifier (utils/sync) *)

Definition STORAGE_KEY : jsstring := lit "note-taker-sync-fallback".

Definition NOTE_UPDATED : jsstring := lit "NOTE_UPDATED".

(** The JSON value of a [SyncMessage]. *)
Definition syncMessageToJson (m : SyncMessage) : JValue :=
  JObj ([ (lit "type", JStr NOTE_UPDATED);
          (lit "noteId", JStr (noteId m)) ]
        ++ optField "version" (JNum <$> msg_version m)
        ++ [ (lit "timestamp", JNum (timestamp m)) ]).

(** Reading a received object at the type [SyncMessage], as the handler
    of [App] assumes it can be read.  [None] when a property has a type
    the declaration of [SyncMessage] excludes. *)
Definition asSyncMessage (v : JValue) : option SyncMessage :=
  i ← getProp v "noteId" ≫= readStr;
  ver ← readOpt readNum (getProp v "version");
  t ← getProp v "timestamp" ≫= readNum;
  Some (mkSyncMessage i ver t).

(** A [StorageEvent]: the key and the new value, [None] for [null]. *)
Record StorageEvent : Type := mkStorageEvent {
  ev_key : option jsstring;
  ev_newValue : option jsstring
}.

(** [event.data && event.data.type === 'NOTE_UPDATED'] of the channel's
    listener and [message.type === 'NOTE_UPDATED'] of the storage
    listener. *)
Definition isNoteUpdated (v : JValue) : bool :=
  match getProp v "type" with
  | Some (JStr type) => bool_decide (type = NOTE_UPDATED)
  | _ => false
  end.

Section SyncFallback.

Variable JSON_parse : jsstring -> JValue + jsstring.
Variable JSON_stringify : JValue -> jsstring.

(** What [postMessage] writes under [STORAGE_KEY] when there is no
    [BroadcastChannel]. *)
Definition fallbackValue (m : SyncMessage) : jsstring :=
  JSON_stringify (syncMessageToJson m).

(** The two events another tab sees: the value set, and its removal
    100 ms later. *)
Definition fallbackEvents (m : SyncMessage) : list StorageEvent :=
  [ mkStorageEvent (Some STORAGE_KEY) (Some (fallbackValue m));
    mkStorageEvent (Some STORAGE_KEY) None ].

(** [storageHandler]: the object it calls the handler with, if it calls
    it. *)
Definition storageHandler (event : StorageEvent) : option JValue :=
  match ev_key event, ev_newValue event with
  | Some k, Some newValue =>
      if bool_decide (k = STORAGE_KEY) && truthy newValue then
        match JSON_parse newValue with
        | inl JNull => None
        | inl message => if isNoteUpdated message then Some message else None
        | inr _ => None
        end
      else None
  | _, _ => None
  end.

(** The subscription of [App] behind the storage listener, for the
    objects that are of type [SyncMessage]. *)
Definition onStorageEvent (event : StorageEvent) (st : App) : App :=
  match storageHandler event ≫= asSyncMessage with
  | Some message => onSyncMessage message st
  | None => st
  end.

End SyncFallback.

(** ** A JSON reader and printer

    An executable [JSON.parse] and [JSON.stringify(_, null, 2)] for JSON
    texts whose numbers are integers, used to run the functions above on
    concrete files. *)

Module MiniJSON.

Definition QUOTE : N := 34%N.
Definition BACKSLASH : N := 92%N.

Definition isJsonSpace (c : N) : bool :=
  ((c =? 32) || (c =? 9) || (c =? 10) || (c =? 13))%N.

Fixpoint skipSpace (s : jsstring) : jsstring :=
  match s with
  | c :: r => if isJsonSpace c then skipSpace r else s
  | [] => []
  end.

Definition isDigit (c : N) : bool := ((48 <=? c) && (c <=? 57))%N.

Fixpoint readDigits (acc : Z) (s : jsstring) : Z * jsstring :=
  match s with
  | c :: r => if isDigit c then readDigits (10 * acc + Z.of_N (c - 48)) r else (acc, s)
  | [] => (acc, [])
  end.

Definition hexValue (c : N) : option N :=
  if isDigit c then Some (c - 48)%N
  else if ((97 <=? c) && (c <=? 102))%N then Some (c - 87)%N
  else if ((65 <=? c) && (c <=? 70))%N then Some (c - 55)%N
  else None.

Definition unescape (c : N) : option N :=
  if (c =? 34)%N then Some 34%N
  else if (c =? 92)%N then Some 92%N
  else if (c =? 47)%N then Some 47%N
  else if (c =? 98)%N then Some 8%N
  else if (c =? 102)%N then Some 12%N
  else if (c =? 110)%N then Some 10%N
  else if (c =? 114)%N then Some 13%N
  else if (c =? 116)%N then Some 9%N
  else None.

(** The characters of a string literal after its opening quote, and
    what follows the closing quote. *)
Fixpoint readString (s : jsstring) : option (jsstring * jsstring) :=
  match s with
  | [] => None
  | c :: r =>
      if (c =? QUOTE)%N then Some ([], r)
      else if (c =? BACKSLASH)%N then
        match r with
        | e :: r1 =>
            if (e =? 117)%N then
              match r1 with
              | h1 :: h2 :: h3 :: h4 :: r2 =>
                  a ← hexValue h1; b ← hexValue h2; c' ← hexValue h3; d ← hexValue h4;
                  '(str, rest) ← readString r2;
                  Some ((4096 * a + 256 * b + 16 * c' + d)%N :: str, rest)
              | _ => None
              end
            else
              u ← unescape e;
              '(str, rest) ← readString r1;
              Some (u :: str, rest)
        | [] => None
        end
      else if (c <? 32)%N then None
      else '(str, rest) ← readString r; Some (c :: str, rest)
  end.

(** Setting a key of an object: a repeated key keeps its first position
    and takes the last value. *)
Fixpoint objSet (k : jsstring) (v : JValue) (fields : list (jsstring * JValue))
    : list (jsstring * JValue) :=
  match fields with
  | [] => [(k, v)]
  | (k', v') :: r =>
      if bool_decide (k' = k) then (k, v) :: r else (k', v') :: objSet k v r
  end.

Fixpoint readValue (fuel : nat) (s : jsstring) : option (JValue * jsstring) :=
  match fuel with
  | O => None
  | S f =>
      match skipSpace s with
      | [] => None
      | c :: r =>
          if (c =? 110)%N then
            if startsWith (lit "null") (c :: r) then Some (JNull, drop 3 r) else None
          else if (c =? 116)%N then
            if startsWith (lit "true") (c :: r) then Some (JBool true, drop 3 r) else None
          else if (c =? 102)%N then
            if startsWith (lit "false") (c :: r) then Some (JBool false, drop 4 r) else None
          else if (c =? QUOTE)%N then
            '(str, rest) ← readString r; Some (JStr str, rest)
          else if (c =? 45)%N then
            match r with
            | d :: _ =>
                if isDigit d then
                  let '(n, rest) := readDigits 0 r in Some (JNum (- n), rest)
                else None
            | [] => None
            end
          else if isDigit c then
            let '(n, rest) := readDigits 0 (c :: r) in Some (JNum n, rest)
          else if (c =? 91)%N then
            match skipSpace r with
            | 93%N :: rest => Some (JArr [], rest)
            | _ => '(items, rest) ← readItems f r; Some (JArr items, rest)
            end
          else if (c =? 123)%N then
            match skipSpace r with
            | 125%N :: rest => Some (JObj [], rest)
            | _ => '(fields, rest) ← readMembers f [] r; Some (JObj fields, rest)
            end
          else None
      end
  end
with readItems (fuel : nat) (s : jsstring) : option (list JValue * jsstring) :=
  match fuel with
  | O => None
  | S f =>
      '(v, r) ← readValue f s;
      match skipSpace r with
      | 44%N :: r1 => '(items, rest) ← readItems f r1; Some (v :: items, rest)
      | 93%N :: rest => Some ([v], rest)
      | _ => None
      end
  end
with readMembers (fuel : nat) (acc : list (jsstring * JValue)) (s : jsstring)
    : option (list (jsstring * JValue) * jsstring) :=
  match fuel with
  | O => None
  | S f =>
      match skipSpace s with
      | 34%N :: r =>
          '(k, r1) ← readString r;
          match skipSpace r1 with
          | 58%N :: r2 =>
              '(v, r3) ← readValue f r2;
              match skipSpace r3 with
              | 44%N :: r4 => readMembers f (objSet k v acc) r4
              | 125%N :: rest => Some (objSet k v acc, rest)
              | _ => None
              end
          | _ => None
          end
      | _ => None
      end
  end.

Definition syntaxError : jsstring := lit "Unexpected token in JSON".

(** [JSON.parse] *)
Definition parse (s : jsstring) : JValue + jsstring :=
  match readValue (2 * length s + 2) s with
  | Some (v, rest) =>
      match skipSpace rest with
      | [] => inl v
      | _ => inr syntaxError
      end
  | None => inr syntaxError
  end.

Definition hexDigit (n : N) : N := if (n <? 10)%N then (n + 48)%N else (n + 87)%N.

Definition escape (c : N) : jsstring :=
  if (c =? 34)%N then [BACKSLASH; 34%N]
  else if (c =? 92)%N then [BACKSLASH; 92%N]
  else if (c =? 8)%N then [BACKSLASH; 98%N]
  else if (c =? 12)%N then [BACKSLASH; 102%N]
  else if (c =? 10)%N then [BACKSLASH; 110%N]
  else if (c =? 13)%N then [BACKSLASH; 114%N]
  else if (c =? 9)%N then [BACKSLASH; 116%N]
  else if (c <? 32)%N then
    [BACKSLASH; 117%N; 48%N; 48%N; hexDigit (c / 16); hexDigit (c mod 16)]
  else [c].

Definition quote (s : jsstring) : jsstring :=
  QUOTE :: List.concat (escape <$> s) ++ [QUOTE].

Definition newline (indent : nat) : jsstring := LF :: repeat SPACE indent.

Fixpoint print (indent : nat) (v : JValue) : jsstring :=
  match v with
  | JNull => lit "null"
  | JBool true => lit "true"
  | JBool false => lit "false"
  | JNum n => ofZ n
  | JStr s => quote s
  | JArr [] => lit "[]"
  | JArr items =>
      lit "["
      ++ (fix each (l : list JValue) : jsstring :=
            match l with
            | [] => []
            | x :: rest =>
                newline (indent + 2) ++ print (indent + 2) x
                ++ (match rest with [] => [] | _ :: _ => [COMMA] end) ++ each rest
            end) items
      ++ newline indent ++ lit "]"
  | JObj [] => lit "{}"
  | JObj fields =>
      lit "{"
      ++ (fix each (l : list (jsstring * JValue)) : jsstring :=
            match l with
            | [] => []
            | (k, x) :: rest =>
                newline (indent + 2) ++ quote k ++ lit ": " ++ print (indent + 2) x
                ++ (match rest with [] => [] | _ :: _ => [COMMA] end) ++ each rest
            end) fields
      ++ newline indent ++ lit "}"
  end.

(** [JSON.stringify(v, null, 2)] *)
Definition stringify (v : JValue) : jsstring := print 0 v.

End MiniJSON.

(** ** Vocabulary of the properties *)

(** A string that neither starts nor ends with white space. *)
Definition Trimmed t : Prop :=
  (forall c r, t = c :: r -> isWhiteSpace c = false)
  /\ (forall c r, t = r ++ [c] -> isWhiteSpace c = false).

(** A string made of white space only. *)
Definition AllWhiteSpace s : Prop := Forall (fun c => isWhiteSpace c = true) s.

(** [line] is the first line of [text]: the part before the first line
    feed, or all of it when there is none. *)
Definition FirstLineOf (text line : jsstring) : Prop :=
  (LF ∉ line) /\ (text = line \/ exists rest, text = line ++ LF :: rest).

(** [t] is [line] without the white space at its two ends. *)
Definition TrimmedFormOf (line t : jsstring) : Prop :=
  Trimmed t /\ exists l r, line = l ++ t ++ r /\ AllWhiteSpace l /\ AllWhiteSpace r.

(** The order of the registry: the more recently updated note first. *)
Definition NewerFirst (a b : Note) : Prop := updatedAt b <= updatedAt a.

(** The shape [validateImportData] asks of a note and of a file. *)
Definition NoteShape (note : JValue) : Prop :=
  (exists i, getProp note "id" = Some (JStr i))
  /\ (exists t, getProp note "title" = Some (JStr t))
  /\ (exists c, getProp note "content" = Some (JStr c))
  /\ (exists u, getProp note "updatedAt" = Some (JNum u)).

Definition FileShape (data : JValue) : Prop :=
  (exists v, getProp data "version" = Some (JStr v))
  /\ (exists e, getProp data "exportedAt" = Some (JStr e))
  /\ (exists items, getProp data "notes" = Some (JArr items) /\ Forall NoteShape items).

(** [s] is a contiguous part of [text]. *)
Definition Within (s text : jsstring) : Prop := exists l r, text = l ++ s ++ r.

(** The note [handleCreateNote] builds. *)
Definition freshNote (newId : jsstring) (now : Z) : Note :=
  mkNote newId [] [] now (Some 1) (Some []) (Some general) None None.

(** The message of [importNotes] for a file of the wrong shape. *)
Definition invalidFormat : jsstring :=
  lit "Invalid file format. Expected valid JSON with notes array.".

(** The insights built when nothing could be parsed. *)
Definition defaultInsights (noteContent : jsstring) (now : Z) : AIInsights :=
  mkAIInsights (JStr (lit "No summary available.")) [] (JStr []) [] now
               (hashContent noteContent).

(** The message shown by the insights panel while a retry is pending. *)
Definition busyMessage : jsstring := lit "Service busy, retrying in 3 seconds...".

(** The message shown when a request comes [dt] ms after the previous one. *)
Definition waitMessage (dt : Z) : jsstring :=
  lit "Please wait " ++ ofZ (ceilSeconds (COOLDOWN_MS - dt)) ++ lit "s between requests".

(** The panel after a call at [now] that was answered by a rate-limit
    error at [settled]. *)
Definition awaitingRetry (p : InsightsPanel) (seenRetrying : bool) (now settled : Z)
    : InsightsPanel :=
  mkInsightsPanel (ip_insights p) seenRetrying (Some busyMessage) 3 true now
                  (ip_fetched p ++ [now])
                  (ip_retries p ++ [settled + RETRY_DELAY_MS]) (ip_updates p).

(** The message of the proxy's 429 answer. *)
Definition tooManyRequests : jsstring :=
  lit "Too many requests. Please wait a moment and try again.".

(** The message used when a 429 answer carries none. *)
Definition rateLimitedFallback : jsstring := lit "Rate limited. Please wait a moment.".

(** ** Sample data *)

Definition sampleNote : Note :=
  mkNote (lit "1700000000000-abc1234") (lit "Groceries") (lit "Groceries" ++ [LF] ++ lit "milk, eggs")
         1700000000500 (Some 3) (Some [lit "home"]) (Some general) None None.

Definition olderNote : Note :=
  mkNote (lit "1600000000000-zzz9999") (lit "Plan") (lit "Plan")
         1600000000000 (Some 1) (Some []) (Some math)
         (Some (mkAiMetadata (Some (lit "A plan.")) (Some 1600000000100))) None.

Definition emptyApp : App :=
  mkApp [] None None false general None ∅ [] [].

(** A successful answer of the endpoint whose [response] is [text]. *)
Definition okResponse (text : jsstring) : HttpResponse :=
  mkHttpResponse 200 (inl (JObj [(lit "response", JStr text)])).

(** A registry with two notes, the first of them active. *)
Definition twoTabsState : App :=
  mkApp [sampleNote; olderNote] (Some (id sampleNote)) None false general None ∅ [] [].

(** A note as it is right after its creation, and the state then. *)
Definition createdNote : Note := freshNote (lit "n1") 1000.

Definition createdApp : App := handleCreateNote (lit "n1") 1000 true emptyApp.

(** A registry and a store that hold one note. *)
Definition existingApp : App :=
  mkApp [sampleNote] (Some (id sampleNote)) None false general None
        {[ id sampleNote := saveNoteRecord sampleNote ]} [] [].

(** A file whose second note has a number for its [id]. *)
Definition malformedNote : JValue :=
  JObj [ (lit "id", JNum 7); (lit "title", JStr (lit "t"));
         (lit "content", JStr (lit "c")); (lit "updatedAt", JNum 1) ].

Definition malformedData : JValue :=
  JObj [ (lit "version", JStr (lit "1.0"));
         (lit "exportedAt", JStr (lit "2024-01-01T00:00:00.000Z"));
         (lit "notes", JArr [noteToJson olderNote; malformedNote]) ].

Definition malformedFile : jsstring := MiniJSON.stringify malformedData.

Definition exportedAtSample : jsstring := lit "2024-01-01T00:00:00.000Z".

(** The components as they are mounted. *)
Definition freshPanel : InsightsPanel :=
  mkInsightsPanel None false None 0 false 0 [] [] [].

Definition freshSidebar : AISidebar := mkAISidebar [] [] None [] [].

Definition freshEditor : EditorAI := mkEditorAI [] [].

Definition freshGrammar : GrammarChecker := mkGrammarChecker None None 0 0 [].

(** The answer of the proxy (api/generate) when the model's API answers
    429. *)
Definition rateLimited : HttpResponse :=
  mkHttpResponse 429
    (inl (JObj [ (lit "error", JStr (lit "Rate limited"));
                 (lit "message",
                  JStr (lit "Too many requests. Please wait a moment and try again."));
                 (lit "retryAfter", JNum 3) ])).

(** A text long enough for the grammar checker. *)
Definition longText : jsstring := lit "This sentence are long enough to be check.".

(** An answer that is a JSON object cut off before its closing brace. *)
Definition truncatedAnswer : jsstring :=
  removelast (MiniJSON.stringify (JObj [(lit "summary", JStr (lit "A list."))])).

(** ** Vocabulary of the further properties *)

(** The number of words of a text: the units that are not white space and
    come first or right after white space.  [afterGap] tells that the unit
    before [s] was white space or that [s] starts the text. *)
Fixpoint wordStarts (afterGap : bool) (s : jsstring) : nat :=
  match s with
  | [] => 0%nat
  | c :: r =>
      if isWhiteSpace c then wordStarts true r
      else ((if afterGap then 1 else 0) + wordStarts false r)%nat
  end.

(** The polynomial [c0 * 31^(n-1) + ... + c(n-1)] of the code units. *)
Definition hashPolynomial (s : jsstring) : Z :=
  fold_left (fun h c => 31 * h + Z.of_N c) s 0.

(** The number of non-empty pieces, as [countWords] counts them. *)
Definition nonEmptyPieces (l : list jsstring) : nat :=
  length (List.filter (fun word => (0 <? length word)%nat) l).

(** The registry is well keyed: the notes of the list have pairwise
    different ids, and every record of the store is filed under the id of
    its note. *)
Definition WellKeyed (st : App) : Prop :=
  NoDup (id <$> notes st)
  /\ forall k r, db st !! k = Some r -> id (rec_note r) = k.

(** What can happen to the registry: a call of one of its handlers, the
    debounce timer firing, a broadcast of another tab arriving. *)
Inductive Action : Type :=
| Create (newId : jsstring) (now : Z) (ok : bool)
| Select (i : jsstring)
| Delete (i : jsstring) (ok : bool)
| EditContent (i newContent : jsstring) (now : Z)
| UpdateFull (updatedNote : Note) (now : Z) (ok : bool)
| ChangeSubject (subject : SubjectType) (now : Z) (ok : bool)
| Rename (i newTitle : jsstring) (now : Z) (ok : bool)
| TimerFires (ok : bool) (now : Z)
| Receive (message : SyncMessage)
| Reload (ok : bool)
| Ignore.

Definition step (a : Action) (st : App) : App :=
  match a with
  | Create newId now ok => handleCreateNote newId now ok st
  | Select i => handleSelectNote i st
  | Delete i ok => handleDeleteNote i ok st
  | EditContent i newContent now => handleUpdateNote i newContent now st
  | UpdateFull updatedNote now ok => handleUpdateNoteFull updatedNote now ok st
  | ChangeSubject subject now ok => handleSubjectChange subject now ok st
  | Rename i newTitle now ok => handleRenameNote i newTitle now ok st
  | TimerFires ok now => fireSaveTimer ok now st
  | Receive message => onSyncMessage message st
  | Reload ok => handleConflictReload ok st
  | Ignore => handleConflictIgnore st
  end.

Definition run (l : list Action) (st : App) : App :=
  fold_left (fun s a => step a s) l st.

(** [generateId()] returns an id no note of the list has. *)
Definition Allowed (a : Action) (st : App) : Prop :=
  match a with
  | Create newId _ _ => newId ∉ id <$> notes st
  | _ => True
  end.

Fixpoint AllowedRun (l : list Action) (st : App) : Prop :=
  match l with
  | [] => True
  | a :: r => Allowed a st /\ AllowedRun r (step a st)
  end.

(** Content edits of one note, one after the other, each with the time
    it is made at. *)
Definition typeAll (i : jsstring) (edits : list (jsstring * Z)) (st : App) : App :=
  fold_left (fun s e => handleUpdateNote i (fst e) (snd e) s) edits st.

(** The note a content edit puts in the list. *)
Definition edited (old : Note) (newContent : jsstring) (now : Z) : Note :=
  mkNote (id old) (extractTitle newContent) newContent now
         (Some (orNum (version old) 0 + 1))
         (tags old) (subjectType old) (aiMetadata old) (aiInsights old).

(** A second tab that holds the same notes. *)
Definition sampleRun : list Action :=
  [ Create (lit "n1") 1000 true;
    EditContent (lit "n1") (lit "Title") 1100;
    TimerFires true 1400;
    Create (lit "n2") 2000 true;
    Rename (lit "n1") (lit "Renamed") 2100 true;
    Delete (lit "n2") true ].

(** What [handleConflictReload] puts in the place of the active note. *)
Definition reloaded (a : jsstring) (latestNote : Note) (l : list Note) : list Note :=
  (fun n => if bool_decide (id n = a) then latestNote else n) <$> l.

(** A tab whose active note has been flagged. *)
Definition flaggedApp : App :=
  mkApp [sampleNote; olderNote] (Some (id sampleNote))
        (Some (mkConflictState true 4)) false general None
        {[ id sampleNote := saveNoteRecord sampleNote ]} [] [].

(** The ids of a file's notes that are not among [keys], and those that
    no current note has. *)
Definition freshIds (items : list JValue) (keys : gset jsstring) : gset jsstring :=
  list_to_set (jsonId <$> items) ∖ keys.

Definition newIds (items : list JValue) (current : list Note) : gset jsstring :=
  freshIds items (list_to_set (id <$> current)).

(** The [Map] of merge mode once the imported notes are set in it. *)
Definition mergedMap (imported current : list Note) : list (jsstring * Note) :=
  fold_left (fun m n => mapSet (id n) n m) imported (mapOfNotes current).

Definition mergeMessage (total new updated : Z) : jsstring :=
  lit "Imported " ++ ofZ total ++ lit " notes (" ++ ofZ new ++ lit " new, "
  ++ ofZ updated ++ lit " updated)".

Definition replaceMessage (total : Z) : jsstring :=
  lit "Imported " ++ ofZ total ++ lit " notes (replaced all)".

(** Every entry of the map is filed under the id of its note. *)
Definition Keyed (m : list (jsstring * Note)) : Prop :=
  forall k v, (k, v) ∈ m -> id v = k.

(** [fold_left] of [mapSet]: the loop of [handleImport] in merge mode. *)
Definition setAll (l : list Note) (m : list (jsstring * Note)) : list (jsstring * Note) :=
  fold_left (fun m n => mapSet (id n) n m) l m.

(** The file an export of two notes writes. *)
Definition sampleFile : jsstring :=
  MiniJSON.stringify
    (JObj [ (lit "version", JStr (lit "1.0"));
            (lit "exportedAt", JStr exportedAtSample);
            (lit "notes", JArr (noteToJson <$> [olderNote; sampleNote])) ]).

Definition sampleFileData : JValue :=
  JObj [ (lit "version", JStr (lit "1.0"));
         (lit "exportedAt", JStr exportedAtSample);
         (lit "notes", JArr (noteToJson <$> [olderNote; sampleNote])) ].

Definition parseFailure (err : jsstring) : jsstring :=
  lit "Import failed: " ++ lit "Failed to parse file: " ++ err.

(** A response whose text is the JSON of an insights object. *)
Definition insightsResponse : HttpResponse :=
  okResponse (MiniJSON.stringify (JObj [(lit "summary", JStr (lit "A list."))])).

(** A broadcast about [sampleNote]. *)
Definition sampleMessage : SyncMessage :=
  mkSyncMessage (id sampleNote) (Some 4) 1700000000900.

(* ===================================================================== *)
(** * Part II: properties *)
(* ===================================================================== *)

(** ** Strings *)

Section StringFacts.

Implicit Types s t : jsstring.

Lemma trimStart_decompose s :
  exists ws, s = ws ++ trimStart s /\ AllWhiteSpace ws
             /\ (forall c r, trimStart s = c :: r -> isWhiteSpace c = false).
Proof.
  induction s as [|c s IH]; simpl.
  - exists []. repeat split; [constructor | discriminate].
  - destruct (isWhiteSpace c) eqn:Hc.
    + destruct IH as (ws & Heq & Hws & Hhd).
      exists (c :: ws). repeat split; [simpl; congruence | by constructor | done].
    + exists []. repeat split; [constructor |].
      intros c' r [= <- _]. done.
Qed.

Lemma trimStart_fixed s :
  (forall c r, s = c :: r -> isWhiteSpace c = false) -> trimStart s = s.
Proof.
  destruct s as [|c r]; [done |]. intros H. simpl. by rewrite (H c r eq_refl).
Qed.

Lemma trimEnd_decompose s :
  exists ws, s = trimEnd s ++ ws /\ AllWhiteSpace ws
             /\ (forall c r, trimEnd s = r ++ [c] -> isWhiteSpace c = false).
Proof.
  unfold trimEnd.
  destruct (trimStart_decompose (rev s)) as (ws & Heq & Hws & Hhd).
  exists (rev ws). repeat split.
  - rewrite <- rev_app_distr, <- Heq. by rewrite rev_involutive.
  - unfold AllWhiteSpace in *. rewrite Forall_forall in *.
    intros x Hx. apply Hws. by apply list_elem_of_In, in_rev, list_elem_of_In.
  - intros c r Hr. apply (Hhd c (rev r)).
    rewrite <- (rev_involutive (trimStart (rev s))), Hr, rev_app_distr. done.
Qed.

Lemma trimEnd_fixed s :
  (forall c r, s = r ++ [c] -> isWhiteSpace c = false) -> trimEnd s = s.
Proof.
  intros H. unfold trimEnd. rewrite trimStart_fixed; [apply rev_involutive |].
  intros c r Hr. apply (H c (rev r)).
  rewrite <- (rev_involutive s), Hr. done.
Qed.

(** [trim] removes a run of white space at each end and nothing else. *)
Lemma trim_decompose s :
  exists l r, s = l ++ trim s ++ r /\ AllWhiteSpace l /\ AllWhiteSpace r
              /\ Trimmed (trim s).
Proof.
  unfold trim.
  destruct (trimStart_decompose s) as (l & Hs & Hl & Hhd).
  destruct (trimEnd_decompose (trimStart s)) as (r & Ht & Hr & Hlast).
  exists l, r. repeat split; try done.
  - by rewrite <- Ht.
  - intros c q Hq. rewrite Hq in Ht. apply (Hhd c (q ++ r)). by rewrite Ht.
Qed.

Lemma trim_Trimmed s : Trimmed (trim s).
Proof. destruct (trim_decompose s) as (? & ? & ? & ? & ? & ?). done. Qed.

Lemma Trimmed_trim t : Trimmed t -> trim t = t.
Proof.
  intros [Hhd Hlast]. unfold trim.
  rewrite (trimStart_fixed t Hhd). by apply trimEnd_fixed.
Qed.

Lemma trim_idempotent s : trim (trim s) = trim s.
Proof. apply Trimmed_trim, trim_Trimmed. Qed.

Lemma split_nonempty sep s : split sep s <> [].
Proof.
  destruct s as [|c r]; simpl; [done |].
  destruct (c =? sep)%N; [done |]. by destruct (split sep r).
Qed.

(** The first piece of [split] is the part of the string before its
    first separator. *)
Lemma split_head sep s :
  exists p ps, split sep s = p :: ps
               /\ (sep ∉ p)
               /\ (s = p \/ exists rest, s = p ++ sep :: rest).
Proof.
  induction s as [|c r IH]; simpl.
  - exists [], []. repeat split; [apply not_elem_of_nil | by left].
  - destruct (c =? sep)%N eqn:Hc.
    + apply N.eqb_eq in Hc as ->.
      exists [], (split sep r). repeat split; [apply not_elem_of_nil |].
      right. by exists r.
    + apply N.eqb_neq in Hc.
      destruct IH as (p & ps & -> & Hp & Hs).
      exists (c :: p), ps. repeat split.
      * rewrite elem_of_cons. intros [-> | ?]; done.
      * destruct Hs as [-> | [rest ->]]; [by left | right; by exists rest].
Qed.

(** No piece of [split] holds the separator. *)
Lemma split_pieces sep s : Forall (fun p => sep ∉ p) (split sep s).
Proof.
  induction s as [|c r IH]; simpl.
  - repeat constructor. apply not_elem_of_nil.
  - destruct (c =? sep)%N eqn:Hc.
    + constructor; [apply not_elem_of_nil | done].
    + apply N.eqb_neq in Hc.
      destruct (split sep r) as [|p ps]; [repeat constructor|].
      * rewrite elem_of_cons. intros [-> | H]; [done | by apply not_elem_of_nil in H].
      * inversion IH; subst. constructor; [| done].
        rewrite elem_of_cons. intros [-> | ?]; done.
Qed.

Lemma substring_prefix s n : substring s 0 n = take n s.
Proof. unfold substring. by rewrite Nat.max_0_l, Nat.min_0_l, Nat.sub_0_r, drop_0. Qed.

End StringFacts.

(** ** C4: the title of a note *)

Example extractTitle_hello :
  extractTitle (lit "  Hello world  " ++ [LF] ++ lit "second line") = lit "Hello world".
Proof. reflexivity. Qed.

Example extractTitle_blank_first_line :
  extractTitle (lit "   " ++ [LF] ++ lit "body") = [].
Proof. reflexivity. Qed.

Example extractTitle_long :
  extractTitle (lit "0123456789012345678901234567890123456789012345678901234")
  = lit "01234567890123456789012345678901234567890123456789...".
Proof. reflexivity. Qed.

(** Every text has a first line, and every line a trimmed form. *)
Lemma first_line_exists (text : jsstring) :
  exists line, FirstLineOf text line
               /\ (exists others, split LF text = line :: others)
               /\ TrimmedFormOf line (trim line).
Proof.
  destruct (split_head LF text) as (line & ps & Hsplit & Hnl & Hshape).
  exists line. split; [done |]. split; [by exists ps |].
  split; [apply trim_Trimmed |].
  destruct (trim_decompose line) as (l & r & ? & ? & ? & ?). by exists l, r.
Qed.

(** The first line is unique. *)
Lemma FirstLineOf_unique text l1 l2 :
  FirstLineOf text l1 -> FirstLineOf text l2 -> l1 = l2.
Proof.
  revert l1 l2. induction text as [|c text IH]; intros l1 l2 [N1 S1] [N2 S2].
  - assert (forall l, ([] = l \/ exists rest, [] = l ++ LF :: rest) -> l = []) as E.
    { intros [|x l] [H | [rest H]]; try done. }
    by rewrite (E l1 S1), (E l2 S2).
  - assert (forall l, LF ∉ l -> (c :: text = l \/ exists rest, c :: text = l ++ LF :: rest) ->
                      (l = [] /\ c = LF) \/ (exists l', l = c :: l' /\ c <> LF /\ FirstLineOf text l')) as E.
    { intros [|x l] Hn [H | [rest H]]; simplify_eq/=.
      - left. done.
      - right. exists l. rewrite not_elem_of_cons in Hn. destruct Hn.
        repeat split; try done. by left.
      - right. exists l. rewrite not_elem_of_cons in Hn. destruct Hn.
        repeat split; try done. right. by exists rest. }
    destruct (E l1 N1 S1) as [[-> ->] | (l1' & -> & Hc1 & F1)],
             (E l2 N2 S2) as [[-> Hc] | (l2' & -> & Hc2 & F2)]; try done.
    f_equal. by apply IH.
Qed.

Lemma trimStart_skips l s : AllWhiteSpace l -> trimStart (l ++ s) = trimStart s.
Proof.
  induction 1 as [|c l Hc _ IH]; simpl; [done |]. by rewrite Hc.
Qed.

Lemma trimStart_all l : AllWhiteSpace l -> trimStart l = [].
Proof. intros H. rewrite <- (app_nil_r l). by rewrite trimStart_skips. Qed.

Lemma trimEnd_skips s r : AllWhiteSpace r -> trimEnd (s ++ r) = trimEnd s.
Proof.
  intros H. unfold trimEnd. rewrite rev_app_distr, trimStart_skips; [done |].
  unfold AllWhiteSpace in *. rewrite Forall_forall in *.
  intros x Hx. apply H. by apply list_elem_of_In, in_rev, list_elem_of_In.
Qed.

(** The trimmed form of a line is unique: it is what [trim] returns. *)
Lemma TrimmedFormOf_trim line t : TrimmedFormOf line t -> t = trim line.
Proof.
  intros [Ht (l & r & -> & Hl & Hr)]. unfold trim.
  rewrite trimStart_skips by done.
  destruct t as [|c q].
  - simpl. rewrite trimStart_all by done. done.
  - destruct Ht as [Hhd Hlast].
    rewrite (trimStart_fixed ((c :: q) ++ r)).
    + rewrite trimEnd_skips by done. symmetry. by apply trimEnd_fixed.
    + intros c' r' [= <- _]. by apply (Hhd c q).
Qed.

(** C4. For every content, the title recomputed by a content edit is the
    trimmed first line of the content; it is the empty string when that
    trimmed line is empty, and when the trimmed line is longer than 50
    code units it is its first 50 code units followed by three dots. *)
Theorem extractTitle_is_trimmed_first_line (text line t : jsstring) :
  FirstLineOf text line ->
  TrimmedFormOf line t ->
  (t = [] -> extractTitle text = [])
  /\ ((length t <= 50)%nat -> extractTitle text = t)
  /\ ((50 < length t)%nat -> extractTitle text = take 50 t ++ lit "...").
Proof.
  intros Hline Ht.
  destruct (first_line_exists text) as (line' & Hline' & [others Hsplit] & _).
  rewrite <- (FirstLineOf_unique text line line' Hline Hline') in Hsplit.
  apply TrimmedFormOf_trim in Ht.
  assert (Htitle : extractTitle text =
                   if truthy t then
                     if (50 <? length t)%nat then take 50 t ++ lit "..." else t
                   else []).
  { unfold extractTitle. rewrite Hsplit. simpl default.
    by rewrite substring_prefix, <- Ht. }
  rewrite Htitle. repeat split.
  - by intros ->.
  - intros Hlen. destruct t as [|c q]; [done |].
    simpl truthy. cbv iota. apply Nat.ltb_ge in Hlen. by rewrite Hlen.
  - intros Hlen. destruct t as [|c q]; [simpl in Hlen; lia |].
    simpl truthy. cbv iota. apply Nat.ltb_lt in Hlen. by rewrite Hlen.
Qed.

Lemma extractTitle_is_trimmed_first_line_witness :
  let text := lit "  Hello world  " ++ [LF] ++ lit "second line" in
  let line := lit "  Hello world  " in
  let t := lit "Hello world" in
  FirstLineOf text line
  /\ TrimmedFormOf line t
  /\ (t = [] -> extractTitle text = [])
  /\ ((length t <= 50)%nat -> extractTitle text = t)
  /\ ((50 < length t)%nat -> extractTitle text = take 50 t ++ lit "...").
Proof.
  intros text line t.
  assert (Hline : FirstLineOf text line).
  { split.
    - intros H. apply list_elem_of_In in H. vm_compute in H. intuition discriminate.
    - right. by exists (lit "second line"). }
  assert (Ht : TrimmedFormOf line t).
  { split.
    - split; intros c r H.
      + vm_compute in H. by injection H as <- _.
      + assert (E : last t = Some c) by (rewrite H; apply last_snoc).
        vm_compute in E. by injection E as <-.
    - exists (lit "  "), (lit "  "). repeat split; try reflexivity;
        repeat constructor. }
  split; [exact Hline |]. split; [exact Ht |].
  exact (extractTitle_is_trimmed_first_line text line t Hline Ht).
Defined.

Lemma extractTitle_length text : (length (extractTitle text) <= 53)%nat.
Proof.
  unfold extractTitle.
  destruct (truthy _); [| simpl; lia].
  destruct (50 <? _)%nat eqn:E.
  - rewrite length_app, substring_prefix, length_take.
    change (length (lit "...")) with 3%nat. lia.
  - apply Nat.ltb_ge in E. lia.
Qed.

(** ** C10: suggested tags *)

Example parseTags_sample :
  parseTags (lit " a, b ,, c,d,e,f") = [lit "a"; lit "b"; lit "c"; lit "d"; lit "e"].
Proof. reflexivity. Qed.

Lemma parseTags_length text : (length (parseTags text) <= 5)%nat.
Proof. unfold parseTags. rewrite length_take. lia. Qed.

Lemma parseTags_each text :
  Forall (fun tag => Trimmed tag /\ tag <> [] /\ (length tag < 30)%nat
                     /\ exists piece, piece ∈ split COMMA text /\ (COMMA ∉ piece)
                                      /\ tag = trim piece)
         (parseTags text).
Proof.
  unfold parseTags. apply Forall_take.
  rewrite Forall_forall. intros tag Hin.
  apply list_elem_of_In, filter_In in Hin as [Hin Hkeep].
  apply in_map_iff in Hin as (piece & <- & Hpiece).
  apply andb_true_iff in Hkeep as [Hpos Hlt].
  apply Nat.ltb_lt in Hpos, Hlt.
  repeat split; try apply trim_Trimmed; try done.
  - intros E. rewrite E in Hpos. simpl in Hpos. lia.
  - exists piece. apply list_elem_of_In in Hpiece. repeat split; try done.
    pose proof (split_pieces COMMA text) as Hall.
    rewrite Forall_forall in Hall. by apply Hall.
Qed.

Lemma responseOk_not_429 r : responseOk r = true -> (status r =? 429) = false.
Proof. unfold responseOk. intros H. apply andb_true_iff in H as [_ H]. lia. Qed.

Lemma getProp_Some_not_null data key v : getProp data key = Some v -> exists f, data = JObj f.
Proof. destruct data; try discriminate. eauto. Qed.

(** C10. For every text the endpoint answers with, [suggestTags] returns
    at most 5 tags, and every tag it returns is the trimmed form of a
    comma-separated piece of the text, is not empty and is shorter than 30
    code units. *)
Theorem suggestTags_at_most_five_clean_tags
    (r : HttpResponse) (data : JValue) (text : jsstring) :
  responseOk r = true ->
  body r = inl data ->
  getProp data "response" = Some (JStr text) ->
  exists tags,
    suggestTags r = Returned tags
    /\ (length tags <= 5)%nat
    /\ Forall (fun tag => trim tag = tag /\ Trimmed tag /\ tag <> []
                          /\ (length tag < 30)%nat
                          /\ exists piece, piece ∈ split COMMA text /\ tag = trim piece)
              tags.
Proof.
  intros Hok Hbody Hresp. exists (parseTags text).
  split; [| split; [apply parseTags_length |]].
  - unfold suggestTags, generateText.
    rewrite (responseOk_not_429 r Hok), Hok, Hbody. simpl.
    destruct (getProp_Some_not_null _ _ _ Hresp) as [f ->].
    unfold propOf. by rewrite Hresp.
  - eapply Forall_impl; [apply parseTags_each |].
    intros tag (Ht & Hne & Hlen & piece & Hin & _ & Heq).
    repeat split; try done; try apply Ht.
    + by apply Trimmed_trim.
    + by exists piece.
Qed.

Lemma suggestTags_at_most_five_clean_tags_witness :
  let text := lit "work, ideas , ,todo" in
  responseOk (okResponse text) = true
  /\ body (okResponse text) = inl (JObj [(lit "response", JStr text)])
  /\ getProp (JObj [(lit "response", JStr text)]) "response" = Some (JStr text)
  /\ exists tags,
       suggestTags (okResponse text) = Returned tags
       /\ (length tags <= 5)%nat
       /\ Forall (fun tag => trim tag = tag /\ Trimmed tag /\ tag <> []
                             /\ (length tag < 30)%nat
                             /\ exists piece, piece ∈ split COMMA text /\ tag = trim piece)
                 tags.
Proof.
  intros text. repeat (split; [reflexivity |]).
  apply (suggestTags_at_most_five_clean_tags
           (okResponse text) (JObj [(lit "response", JStr text)]) text); reflexivity.
Defined.

(** ** C3: conflict detection *)

(** C3. For a broadcast about the active note, with [V] the version held
    locally and [V'] the version broadcast: the handler raises a conflict
    carrying [V'] if and only if [V' > V]; for [V' <= V] it raises nothing
    and leaves the state as it is. *)
Theorem conflict_flagged_iff_newer
    (st : App) (message : SyncMessage) (localNote : Note) (V V' : Z) :
  activeNoteId st = Some (noteId message) ->
  findNote (noteId message) (notes st) = Some localNote ->
  version localNote = Some V ->
  msg_version message = Some V' ->
  (conflictRaisedBy message st = Some (mkConflictState true V') <-> V < V')
  /\ (conflictRaisedBy message st = None <-> V' <= V)
  /\ (V < V' -> conflict (onSyncMessage message st) = Some (mkConflictState true V'))
  /\ (V' <= V -> onSyncMessage message st = st).
Proof.
  intros Hactive Hfind Hv Hv'.
  assert (Hraised : conflictRaisedBy message st =
                    if V <? V' then Some (mkConflictState true V') else None).
  { unfold conflictRaisedBy. rewrite Hactive, bool_decide_eq_true_2 by done.
    rewrite Hfind. unfold greaterThan. rewrite Hv, Hv'. by destruct (V <? V'). }
  unfold onSyncMessage. rewrite Hraised.
  destruct (V <? V') eqn:E; [apply Z.ltb_lt in E | apply Z.ltb_ge in E];
    repeat split; intros; try done; try lia.
Qed.

Lemma conflict_flagged_iff_newer_witness :
  let message := mkSyncMessage (id sampleNote) (Some 4) 1700000001000 in
  activeNoteId twoTabsState = Some (noteId message)
  /\ findNote (noteId message) (notes twoTabsState) = Some sampleNote
  /\ version sampleNote = Some 3
  /\ msg_version message = Some 4
  /\ (conflictRaisedBy message twoTabsState = Some (mkConflictState true 4) <-> 3 < 4)
  /\ (conflictRaisedBy message twoTabsState = None <-> 4 <= 3)
  /\ (3 < 4 -> conflict (onSyncMessage message twoTabsState) = Some (mkConflictState true 4))
  /\ (4 <= 3 -> onSyncMessage message twoTabsState = twoTabsState).
Proof.
  intros message. repeat (split; [reflexivity |]).
  apply (conflict_flagged_iff_newer twoTabsState message sampleNote 3 4); reflexivity.
Defined.

Example echo_is_no_conflict :
  onSyncMessage (mkSyncMessage (id sampleNote) (Some 3) 1700000001000) twoTabsState
  = twoTabsState.
Proof. reflexivity. Qed.

(** A broadcast about a note that is not the active one raises nothing. *)
Lemma other_note_no_conflict st message :
  activeNoteId st <> Some (noteId message) -> onSyncMessage message st = st.
Proof.
  intros H. unfold onSyncMessage, conflictRaisedBy.
  rewrite bool_decide_eq_false_2; [done | congruence].
Qed.

(** ** C2: creating a note *)

(** C2, as the code has it. After [handleCreateNote] with a successful
    save, the new note is at the front of the registry and is the active
    note, with version 1, empty title and content and subject 'general';
    the save is made at once, not by the debounce timer; but the record
    in the store carries version 2, because [saveNote] adds one to the
    version it is given. *)
Theorem create_persists_version_two (st : App) (newId : jsstring) (now : Z) :
  let st' := handleCreateNote newId now true st in
  notes st' = freshNote newId now :: notes st
  /\ activeNoteId st' = Some newId
  /\ db st' !! newId
     = Some (mkNoteRecord
               (mkNote newId [] [] now (Some 2) (Some []) (Some general) None None) 0)
  /\ version (freshNote newId now) = Some 1
  /\ (version ∘ rec_note <$> db st' !! newId) = Some (Some 2).
Proof.
  unfold handleCreateNote, saveNote. simpl.
  rewrite lookup_insert_eq. repeat split.
Qed.

(** A failed save creates nothing. *)
Lemma create_failed_save st newId now :
  handleCreateNote newId now false st
  = alert (lit "Failed to create note. Please try again.") st.
Proof. reflexivity. Qed.

(** Creation also arms the debounce timer for the new note, so the note is
    saved a second time 300 ms later. *)
Lemma create_arms_timer st newId now :
  isLoading st = false ->
  saveTimer (handleCreateNote newId now true st) = Some (freshNote newId now).
Proof. intros H. unfold handleCreateNote. simpl. by rewrite H. Qed.

(** The sibling [saveNotes] keeps the version it is given. *)
Lemma saveNotes_keeps_version n v :
  version n = Some v -> v <> 0 -> version (rec_note (saveNotesRecord n)) = Some v.
Proof.
  intros Hv Hne. simpl. rewrite Hv. simpl.
  destruct (v =? 0) eqn:E; [lia | done].
Qed.

Lemma saveNote_adds_one n v :
  version n = Some v -> v <> 0 -> version (rec_note (saveNoteRecord n)) = Some (v + 1).
Proof.
  intros Hv Hne. simpl. rewrite Hv. simpl.
  destruct (v =? 0) eqn:E; [lia | done].
Qed.

(** ** C1: versions under mutation *)

(** C1, as the code has it. A full-note update made by a tag edit stores
    the note with the version the caller passed: after adding a tag to a
    freshly created note, and then a second one, the registry still holds
    version 1, the store holds version 2 as it did before, and each
    broadcast carries version 1. *)
Theorem tag_edit_does_not_advance_version :
  let st1 := handleAddTag createdNote (lit "urgent") 2000 true createdApp in
  let tagged := withTags createdNote (Some [lit "urgent"]) in
  let st2 := handleAddTag tagged (lit "later") 3000 true st1 in
  (version <$> findNote (lit "n1") (notes createdApp)) = Some (Some 1)
  /\ findNote (lit "n1") (notes st1) = Some tagged
  /\ (version <$> findNote (lit "n1") (notes st1)) = Some (Some 1)
  /\ (version <$> findNote (lit "n1") (notes st2)) = Some (Some 1)
  /\ (tags <$> findNote (lit "n1") (notes st2)) = Some (Some [lit "urgent"; lit "later"])
  /\ (version ∘ rec_note <$> db createdApp !! lit "n1") = Some (Some 2)
  /\ (version ∘ rec_note <$> db st1 !! lit "n1") = Some (Some 2)
  /\ (version ∘ rec_note <$> db st2 !! lit "n1") = Some (Some 2)
  /\ outbox st2 = [mkSyncMessage (lit "n1") (Some 1) 2000;
                   mkSyncMessage (lit "n1") (Some 1) 3000].
Proof. vm_compute. repeat split. Qed.

(** Create a note, type "Hello world", let the debounce timer fire: the
    registry holds title "Hello world" and version 2, the store version 3,
    and the broadcast says version 2. *)
Example create_then_type :
  let st1 := handleUpdateNote (lit "n1") (lit "Hello world") 1100 createdApp in
  let st2 := fireSaveTimer true 1400 st1 in
  (title <$> findNote (lit "n1") (notes st2)) = Some (lit "Hello world")
  /\ (version <$> findNote (lit "n1") (notes st2)) = Some (Some 2)
  /\ (version ∘ rec_note <$> db st2 !! lit "n1") = Some (Some 3)
  /\ outbox st2 = [mkSyncMessage (lit "n1") (Some 2) 1400]
  /\ saveTimer st2 = None.
Proof. vm_compute. repeat split. Qed.

(** A save that fails leaves the store and the broadcasts as they were. *)
Lemma failed_save_changes_nothing n now st : saveAndBroadcast false n now st = st.
Proof. reflexivity. Qed.

(** The mutations that do advance the version: a content edit, a rename
    and a subject change each add one to it in the registry. *)

Lemma findNote_list_find i l n :
  findNote i l = Some n <-> exists idx, list_find (fun x => id x = i) l = Some (idx, n).
Proof.
  unfold findNote. destruct (list_find _ l) as [[idx x]|]; simpl; split.
  - intros [= ->]. by exists idx.
  - intros [? [= _ ->]]. done.
  - done.
  - intros [? ?]. done.
Qed.

Lemma findNote_id i l n : findNote i l = Some n -> id n = i.
Proof.
  intros H. apply findNote_list_find in H as [idx H].
  apply list_find_Some in H. tauto.
Qed.

Lemma findNote_front i n l : id n = i -> findNote i (n :: l) = Some n.
Proof. intros H. unfold findNote. simpl. by rewrite decide_True. Qed.

Lemma list_find_replaced i (l : list Note) idx x u :
  list_find (fun n => id n = i) l = Some (idx, x) ->
  id u = i ->
  list_find (fun n => id n = i) (<[idx := u]> l) = Some (idx, u).
Proof.
  intros H Hu. apply list_find_Some in H as (Hl & Hx & Hfirst).
  apply list_find_Some. repeat split.
  - apply list_lookup_insert_eq. by eapply lookup_lt_Some.
  - done.
  - intros j y Hj Hlt. rewrite list_lookup_insert_ne in Hj by lia. by eapply Hfirst.
Qed.

Lemma orNum_next_greater v : v < orNum (Some v) 0 + 1.
Proof. unfold orNum. destruct (v =? 0) eqn:E; lia. Qed.

Lemma content_edit_advances_version st i newContent now old :
  findNote i (notes st) = Some old ->
  let st' := handleUpdateNote i newContent now st in
  exists n', notes st' !! 0%nat = Some n'
             /\ findNote i (notes st') = Some n'
             /\ version n' = Some (orNum (version old) 0 + 1)
             /\ title n' = extractTitle newContent
             /\ content n' = newContent.
Proof.
  intros H. apply findNote_list_find in H as [idx H]. simpl.
  unfold handleUpdateNote. rewrite H. simpl.
  eexists. split; [reflexivity |]. split; [| repeat split].
  apply findNote_front. simpl. apply list_find_Some in H. tauto.
Qed.

Lemma rename_advances_version st i newTitle now ok old :
  findNote i (notes st) = Some old ->
  let st' := handleRenameNote i newTitle now ok st in
  exists n', findNote i (notes st') = Some n'
             /\ version n' = Some (orNum (version old) 0 + 1)
             /\ title n' = newTitle.
Proof.
  intros H. apply findNote_list_find in H as [idx H]. simpl.
  unfold handleRenameNote. rewrite H.
  assert (Hn : forall n ok' now' s, notes (saveAndBroadcast ok' n now' s) = notes s).
  { intros. unfold saveAndBroadcast. by destruct (saveNote _ _ _). }
  rewrite Hn. simpl.
  eexists. split.
  { apply findNote_list_find. exists idx.
    apply (list_find_replaced i _ idx old); [done |].
    simpl. apply list_find_Some in H. tauto. }
  split; reflexivity.
Qed.

(** A full-note update leaves in the registry exactly the note it was
    given, version included. *)
Lemma full_update_keeps_given_version st updatedNote now ok :
  is_Some (findNote (id updatedNote) (notes st)) ->
  findNote (id updatedNote) (notes (handleUpdateNoteFull updatedNote now ok st))
  = Some updatedNote.
Proof.
  intros [old H]. apply findNote_list_find in H as [idx H].
  unfold handleUpdateNoteFull, findIndex. rewrite H. simpl.
  assert (Hn : forall n ok' now' s, notes (saveAndBroadcast ok' n now' s) = notes s).
  { intros. unfold saveAndBroadcast. by destruct (saveNote _ _ _). }
  rewrite Hn. simpl. apply findNote_list_find. exists idx.
  by apply (list_find_replaced _ _ idx old).
Qed.

Lemma subject_change_advances_version st a subject now ok old :
  activeNoteId st = Some a ->
  a <> [] ->
  findNote a (notes st) = Some old ->
  subjectType old <> Some subject ->
  let st' := handleSubjectChange subject now ok st in
  exists n', findNote a (notes st') = Some n'
             /\ version n' = Some (orNum (version old) 0 + 1)
             /\ subjectType n' = Some subject.
Proof.
  intros Ha Hne Hf Hs. simpl. unfold handleSubjectChange. rewrite Ha.
  destruct a as [|c a']; [done |]. cbn [truthy]. rewrite Hf.
  rewrite bool_decide_eq_false_2 by done.
  pose proof (findNote_id _ _ _ Hf) as Hid.
  eexists. split.
  { rewrite <- Hid at 1.
    apply (full_update_keeps_given_version (setSubjectType subject st)
             (mkNote (id old) _ _ _ _ _ _ _ _)).
    simpl. rewrite Hid. by exists old. }
  split; reflexivity.
Qed.

(** What a successful save leaves in the store is the saved note's
    version plus one, and what it broadcasts is the saved note's version. *)
Lemma saveAndBroadcast_versions n now st :
  let st' := saveAndBroadcast true n now st in
  (version ∘ rec_note <$> db st' !! id n) = Some (Some (orNum (version n) 0 + 1))
  /\ outbox st' = outbox st ++ [mkSyncMessage (id n) (version n) now].
Proof.
  unfold saveAndBroadcast, saveNote. simpl. by rewrite lookup_insert_eq.
Qed.

(** ** Sorting by modification time *)

Lemma insertByUpdatedAt_perm x l : insertByUpdatedAt x l ≡ₚ x :: l.
Proof.
  induction l as [|y r IH]; simpl; [done |].
  destruct (updatedAt y <=? updatedAt x); [done |].
  rewrite IH. apply perm_swap.
Qed.

Lemma sortByUpdatedAtDesc_perm l : sortByUpdatedAtDesc l ≡ₚ l.
Proof.
  induction l as [|x r IH]; simpl; [done |].
  rewrite insertByUpdatedAt_perm. by rewrite IH.
Qed.

Lemma insertByUpdatedAt_sorted x l :
  StronglySorted NewerFirst l -> StronglySorted NewerFirst (insertByUpdatedAt x l).
Proof.
  induction 1 as [|y r Hs IH Hall]; simpl.
  - repeat constructor.
  - destruct (updatedAt y <=? updatedAt x) eqn:E.
    + apply Z.leb_le in E. constructor; [by constructor |].
      constructor; [done |].
      eapply Forall_impl; [exact Hall |]. unfold NewerFirst. intros; simpl in *. lia.
    + apply Z.leb_gt in E. constructor; [done |].
      rewrite insertByUpdatedAt_perm. constructor; [| done].
      unfold NewerFirst. lia.
Qed.

Lemma sortByUpdatedAtDesc_sorted l : StronglySorted NewerFirst (sortByUpdatedAtDesc l).
Proof.
  induction l as [|x r IH]; simpl; [constructor |].
  by apply insertByUpdatedAt_sorted.
Qed.

(** ** Notes survive the passage through JSON *)

Lemma subjectOfName_subjectName s : subjectOfName (subjectName s) = Some s.
Proof. by destruct s. Qed.

Lemma readMetadata_metadataToJson m : readMetadata (metadataToJson m) = Some m.
Proof. destruct m as [[s|] [a|]]; reflexivity. Qed.

Lemma readInsights_insightsToJson i : readInsights (insightsToJson i) = Some i.
Proof. destruct i. reflexivity. Qed.

(** The properties of the JSON value of a note. *)
Ltac note_lookup n :=
  destruct n as [? ? ? ? [?|] [?|] [?|] [?|] [?|]]; vm_compute; reflexivity.

Lemma noteToJson_id n : getProp (noteToJson n) "id" = Some (JStr (id n)).
Proof. note_lookup n. Qed.

Lemma noteToJson_title n : getProp (noteToJson n) "title" = Some (JStr (title n)).
Proof. note_lookup n. Qed.

Lemma noteToJson_content n : getProp (noteToJson n) "content" = Some (JStr (content n)).
Proof. note_lookup n. Qed.

Lemma noteToJson_updatedAt n : getProp (noteToJson n) "updatedAt" = Some (JNum (updatedAt n)).
Proof. note_lookup n. Qed.

Lemma noteToJson_version n : getProp (noteToJson n) "version" = JNum <$> version n.
Proof. note_lookup n. Qed.

Lemma noteToJson_tags n :
  getProp (noteToJson n) "tags" = (fun t => JArr (JStr <$> t)) <$> tags n.
Proof. note_lookup n. Qed.

Lemma noteToJson_subjectType n :
  getProp (noteToJson n) "subjectType" = (fun s => JStr (subjectName s)) <$> subjectType n.
Proof. note_lookup n. Qed.

Lemma noteToJson_aiMetadata n :
  getProp (noteToJson n) "aiMetadata" = metadataToJson <$> aiMetadata n.
Proof. note_lookup n. Qed.

Lemma noteToJson_aiInsights n :
  getProp (noteToJson n) "aiInsights" = insightsToJson <$> aiInsights n.
Proof. note_lookup n. Qed.

Lemma readOpt_fmap {A : Type} (rd : JValue -> option A) (enc : A -> JValue) (o : option A) :
  (forall a, rd (enc a) = Some a) -> readOpt rd (enc <$> o) = Some o.
Proof. intros H. destruct o as [a|]; simpl; [by rewrite H | done]. Qed.

(** Reading back the JSON value of a note gives the note, field by field. *)
Lemma asNote_noteToJson n : asNote (noteToJson n) = Some n.
Proof.
  unfold asNote.
  rewrite noteToJson_id, noteToJson_title, noteToJson_content, noteToJson_updatedAt,
          noteToJson_version, noteToJson_tags, noteToJson_subjectType,
          noteToJson_aiMetadata, noteToJson_aiInsights.
  rewrite (readOpt_fmap readNum JNum) by done.
  rewrite (readOpt_fmap _ (fun t => JArr (JStr <$> t)))
    by (intros l; simpl; by apply mapM_fmap_Some).
  rewrite (readOpt_fmap _ (fun s => JStr (subjectName s)))
    by (intros sb; simpl; apply subjectOfName_subjectName).
  rewrite (readOpt_fmap readMetadata metadataToJson) by apply readMetadata_metadataToJson.
  rewrite (readOpt_fmap readInsights insightsToJson) by apply readInsights_insightsToJson.
  by destruct n.
Qed.

Lemma asNote_all l : mapM asNote (noteToJson <$> l) = Some l.
Proof. apply mapM_fmap_Some, asNote_noteToJson. Qed.

Lemma validNoteShape_noteToJson n : validNoteShape (noteToJson n) = true.
Proof.
  unfold validNoteShape.
  rewrite noteToJson_id, noteToJson_title, noteToJson_content, noteToJson_updatedAt.
  reflexivity.
Qed.

Lemma validateImportData_exportData l exportedAt :
  validateImportData (exportData l exportedAt) = true.
Proof.
  unfold validateImportData.
  change (getProp (exportData l exportedAt) "version") with (Some (JStr (lit "1.0"))).
  change (getProp (exportData l exportedAt) "exportedAt") with (Some (JStr exportedAt)).
  change (getProp (exportData l exportedAt) "notes") with (Some (JArr (noteToJson <$> l))).
  simpl. apply forallb_forall. intros x Hx.
  apply in_map_iff in Hx as (n & <- & _). apply validNoteShape_noteToJson.
Qed.

(** ** The store after a bulk save *)

Lemma saveNotes_absent (l : list Note) (d : Store) (i : jsstring) :
  i ∉ id <$> l ->
  fold_left (fun d n => <[id n := saveNotesRecord n]> d) l d !! i = d !! i.
Proof.
  revert d. induction l as [|x r IH]; intros d Hi; simpl; [done |].
  rewrite fmap_cons, not_elem_of_cons in Hi. destruct Hi as [Hne Hr].
  rewrite IH by done. by rewrite lookup_insert_ne.
Qed.

Lemma saveNotes_present (l : list Note) (d : Store) (n : Note) :
  NoDup (id <$> l) -> n ∈ l ->
  fold_left (fun d n => <[id n := saveNotesRecord n]> d) l d !! id n
  = Some (saveNotesRecord n).
Proof.
  revert d. induction l as [|x r IH]; intros d Hnd Hin; simpl.
  - by apply elem_of_nil in Hin.
  - rewrite fmap_cons in Hnd. apply NoDup_cons in Hnd as [Hx Hnd].
    apply elem_of_cons in Hin as [-> | Hin].
    + rewrite saveNotes_absent by done. apply lookup_insert_eq.
    + by apply IH.
Qed.

(** ** C8 and C9: export and import *)

Lemma isString_iff v : isString v = true <-> exists s, v = Some (JStr s).
Proof.
  destruct v as [[]|]; simpl; split; try done; try (intros [? [=]]); eauto.
Qed.

Lemma isNumber_iff v : isNumber v = true <-> exists n, v = Some (JNum n).
Proof.
  destruct v as [[]|]; simpl; split; try done; try (intros [? [=]]); eauto.
Qed.

Lemma getProp_object v key x : getProp v key = Some x -> isNonNullObject v = true.
Proof. by destruct v. Qed.

Lemma validNoteShape_iff note : validNoteShape note = true <-> NoteShape note.
Proof.
  unfold validNoteShape, NoteShape. split.
  - destruct (isNonNullObject note); [| done]. simpl.
    rewrite !andb_true_iff, !isString_iff, isNumber_iff. tauto.
  - intros ([i Hi] & Ht & Hc & Hu).
    rewrite (getProp_object _ _ _ Hi). simpl.
    rewrite !andb_true_iff, !isString_iff, isNumber_iff. eauto 10.
Qed.

Lemma validateImportData_iff data : validateImportData data = true <-> FileShape data.
Proof.
  unfold validateImportData, FileShape. split.
  - destruct (isNonNullObject data); [| done]. simpl.
    destruct (isString (getProp data "version")) eqn:Ev; [| done].
    destruct (isString (getProp data "exportedAt")) eqn:Ee; [| done]. simpl.
    apply isString_iff in Ev, Ee.
    destruct (getProp data "notes") as [[]|]; try done.
    intros H. repeat split; try done. eexists. split; [done |].
    rewrite forallb_forall in H. apply Forall_forall. intros x Hx.
    apply validNoteShape_iff, H. by apply list_elem_of_In.
  - intros ([v Hv] & [e He] & items & Hn & Hall).
    rewrite (getProp_object _ _ _ Hv), Hv, He, Hn. simpl.
    apply forallb_forall. intros x Hx. apply validNoteShape_iff.
    rewrite Forall_forall in Hall. by apply Hall, list_elem_of_In.
Qed.

Section ImportExportFacts.

Variable JSON_parse : jsstring -> JValue + jsstring.
Variable JSON_stringify : JValue -> jsstring.

Lemma importNotes_invalid fileContent data current mode :
  JSON_parse fileContent = inl data ->
  validateImportData data = false ->
  importNotes JSON_parse fileContent current mode = ImportFailure invalidFormat.
Proof. intros Hp Hv. unfold importNotes. by rewrite Hp, Hv. Qed.

Lemma importNotes_unparsable fileContent err current mode :
  JSON_parse fileContent = inr err ->
  importNotes JSON_parse fileContent current mode
  = ImportFailure (lit "Failed to parse file: " ++ err).
Proof. intros Hp. unfold importNotes. by rewrite Hp. Qed.

(** A failed import changes nothing but the alerts. *)
Lemma handleImport_failure fileContent mode okClear okSave st message :
  importNotes JSON_parse fileContent (notes st) mode = ImportFailure message ->
  handleImport JSON_parse fileContent mode okClear okSave st
  = Some (alert (lit "Import failed: " ++ message) st).
Proof. intros H. unfold handleImport. by rewrite H. Qed.

(** C9. Import checks that the file is an object with a string
    [version], a string [exportedAt] and an array [notes] each element
    of which has a string [id], [title] and [content] and a numeric
    [updatedAt]; when one note of the file fails that check the whole
    import fails with a message, in either mode, and neither the
    registry nor the store takes anything from the file. *)
Theorem import_fails_closed
    (fileContent : jsstring) (data : JValue) (items : list JValue) (bad : JValue)
    (mode : ImportMode) (okClear okSave : bool) (st : App) :
  JSON_parse fileContent = inl data ->
  getProp data "notes" = Some (JArr items) ->
  bad ∈ items ->
  ~ NoteShape bad ->
  (forall d, validateImportData d = true <-> FileShape d)
  /\ importNotes JSON_parse fileContent (notes st) mode = ImportFailure invalidFormat
  /\ exists st',
       handleImport JSON_parse fileContent mode okClear okSave st = Some st'
       /\ st' = alert (lit "Import failed: " ++ invalidFormat) st
       /\ notes st' = notes st
       /\ db st' = db st
       /\ saveTimer st' = saveTimer st.
Proof.
  intros Hparse Hnotes Hin Hbad.
  assert (Hinvalid : validateImportData data = false).
  { apply not_true_is_false. intros Hv. apply validateImportData_iff in Hv.
    destruct Hv as (_ & _ & items' & Hn & Hall).
    rewrite Hnotes in Hn. injection Hn as <-.
    rewrite Forall_forall in Hall. by apply Hbad, Hall. }
  pose proof (importNotes_invalid fileContent data (notes st) mode Hparse Hinvalid) as Himp.
  split; [apply validateImportData_iff |]. split; [done |].
  eexists. split; [by apply handleImport_failure |]. done.
Qed.

Lemma importedNotesOf_export l exportedAt :
  JSON_parse (exportNotes JSON_stringify l exportedAt) = inl (exportData l exportedAt) ->
  importedNotesOf JSON_parse (exportNotes JSON_stringify l exportedAt) = Some l.
Proof.
  intros Hp. unfold importedNotesOf. rewrite Hp.
  change (getProp (exportData l exportedAt) "notes") with (Some (JArr (noteToJson <$> l))).
  simpl. apply asNote_all.
Qed.

(** The record [saveNotes] files for a note: the note with its fields
    as they were, a missing or zero version set to 1, missing tags to the
    empty list, a missing subject to ['general'], and the size of the
    content; it is the note itself when the note has all three. *)
Lemma saveNotesRecord_fields (n : Note) :
  id (rec_note (saveNotesRecord n)) = id n
  /\ title (rec_note (saveNotesRecord n)) = title n
  /\ content (rec_note (saveNotesRecord n)) = content n
  /\ updatedAt (rec_note (saveNotesRecord n)) = updatedAt n
  /\ aiMetadata (rec_note (saveNotesRecord n)) = aiMetadata n
  /\ aiInsights (rec_note (saveNotesRecord n)) = aiInsights n
  /\ version (rec_note (saveNotesRecord n))
     = Some (match version n with
             | Some v => if v =? 0 then 1 else v
             | None => 1
             end)
  /\ tags (rec_note (saveNotesRecord n)) = Some (match tags n with Some t => t | None => [] end)
  /\ subjectType (rec_note (saveNotesRecord n))
     = Some (match subjectType n with Some s => s | None => general end)
  /\ rec_size (saveNotesRecord n) = calculateSize (content n).
Proof. by destruct n as [i t c u [v|] [tg|] [s|] md ins]. Qed.

Lemma saveNotesRecord_complete (n : Note) v t s :
  version n = Some v -> v <> 0 -> tags n = Some t -> subjectType n = Some s ->
  rec_note (saveNotesRecord n) = n /\ normalizeNote (saveNotesRecord n) = n.
Proof.
  destruct n as [i ti c u ver tg sub md ins]. cbn [version tags subjectType].
  intros -> Hv -> ->. unfold normalizeNote, saveNotesRecord. cbn.
  apply Z.eqb_neq in Hv. by rewrite !Hv.
Qed.

(** C8. When the platform's JSON reads back what it printed, importing
    the export of a list of notes in replace mode leaves in the registry
    exactly those notes, each with every field as it was, ordered by
    [updatedAt] descending; whatever the store held before is discarded,
    and the store holds, under the id of each of the notes (their ids
    being pairwise different), a record with the note's id, title,
    content, time, summary data and insights as they were, its version,
    tags and subject as they were or, where the note had none, 1, no tags
    and ['general'], and the size of its content: for a note that has a
    version, tags and a subject the stored note, and the note read back
    from the store, is the note itself. *)
Theorem export_import_replace_roundtrip
    (l : list Note) (exportedAt : jsstring) (st : App) :
  JSON_parse (exportNotes JSON_stringify l exportedAt) = inl (exportData l exportedAt) ->
  exists st',
    handleImport JSON_parse (exportNotes JSON_stringify l exportedAt)
                 replace true true st = Some st'
    /\ notes st' = sortByUpdatedAtDesc l
    /\ notes st' ≡ₚ l
    /\ StronglySorted NewerFirst (notes st')
    /\ (forall i, i ∉ id <$> l -> db st' !! i = None)
    /\ (NoDup (id <$> l) ->
        forall n, n ∈ l ->
          exists r,
            db st' !! id n = Some r
            /\ id (rec_note r) = id n
            /\ title (rec_note r) = title n
            /\ content (rec_note r) = content n
            /\ updatedAt (rec_note r) = updatedAt n
            /\ aiMetadata (rec_note r) = aiMetadata n
            /\ aiInsights (rec_note r) = aiInsights n
            /\ version (rec_note r)
               = Some (match version n with
                       | Some v => if v =? 0 then 1 else v
                       | None => 1
                       end)
            /\ tags (rec_note r) = Some (match tags n with Some t => t | None => [] end)
            /\ subjectType (rec_note r)
               = Some (match subjectType n with Some s => s | None => general end)
            /\ rec_size r = calculateSize (content n)
            /\ (forall v t s,
                  version n = Some v -> v <> 0 -> tags n = Some t ->
                  subjectType n = Some s ->
                  rec_note r = n /\ getNote (id n) (db st') = Some n)).
Proof.
  intros Hp.
  unfold handleImport, importNotes.
  rewrite Hp, validateImportData_exportData. cbv beta iota zeta. cbn [negb].
  cbv beta iota zeta.
  rewrite (importedNotesOf_export l exportedAt Hp).
  cbn [mbind option_bind clearAllNotes saveNotes].
  eexists. split; [reflexivity |]. cbn [notes db setNotes setDb alert].
  split; [done |]. split; [apply sortByUpdatedAtDesc_perm |].
  split; [apply sortByUpdatedAtDesc_sorted |]. split.
  - intros i Hi. rewrite saveNotes_absent; [apply lookup_empty |].
    by rewrite sortByUpdatedAtDesc_perm.
  - intros Hnd n Hn.
    assert (Hr : fold_left (fun d n => <[id n := saveNotesRecord n]> d)
                           (sortByUpdatedAtDesc l) (∅ : Store) !! id n
                 = Some (saveNotesRecord n)).
    { apply saveNotes_present; by rewrite sortByUpdatedAtDesc_perm. }
    exists (saveNotesRecord n). split; [exact Hr |].
    destruct (saveNotesRecord_fields n)
      as (F1 & F2 & F3 & F4 & F5 & F6 & F7 & F8 & F9 & F10).
    do 10 (split; [assumption |]).
    intros v t s Hv Hne Ht Hs.
    destruct (saveNotesRecord_complete n v t s Hv Hne Ht Hs) as [C1 C2].
    split; [exact C1 |]. unfold getNote. rewrite Hr. cbn [fmap option_fmap option_map].
    by rewrite C2.
Qed.

End ImportExportFacts.

(** The two theorems at concrete files, with the reader and printer of
    [MiniJSON]. *)

Lemma import_fails_closed_witness :
  MiniJSON.parse malformedFile = inl malformedData
  /\ getProp malformedData "notes" = Some (JArr [noteToJson olderNote; malformedNote])
  /\ malformedNote ∈ [noteToJson olderNote; malformedNote]
  /\ ~ NoteShape malformedNote
  /\ (forall d, validateImportData d = true <-> FileShape d)
  /\ importNotes MiniJSON.parse malformedFile (notes existingApp) merge
     = ImportFailure invalidFormat
  /\ exists st',
       handleImport MiniJSON.parse malformedFile merge true true existingApp = Some st'
       /\ st' = alert (lit "Import failed: " ++ invalidFormat) existingApp
       /\ notes st' = notes existingApp
       /\ db st' = db existingApp
       /\ saveTimer st' = saveTimer existingApp.
Proof.
  assert (Hparse : MiniJSON.parse malformedFile = inl malformedData)
    by (vm_compute; reflexivity).
  assert (Hnotes : getProp malformedData "notes"
                   = Some (JArr [noteToJson olderNote; malformedNote]))
    by (vm_compute; reflexivity).
  assert (Hin : malformedNote ∈ [noteToJson olderNote; malformedNote])
    by (apply elem_of_cons; right; apply elem_of_cons; by left).
  assert (Hbad : ~ NoteShape malformedNote).
  { intros ([i Hi] & _). vm_compute in Hi. discriminate Hi. }
  repeat (split; [assumption |]).
  exact (import_fails_closed MiniJSON.parse malformedFile malformedData
           [noteToJson olderNote; malformedNote] malformedNote merge true true
           existingApp Hparse Hnotes Hin Hbad).
Defined.

Lemma export_import_replace_roundtrip_witness :
  MiniJSON.parse (exportNotes MiniJSON.stringify [olderNote; sampleNote] exportedAtSample)
  = inl (exportData [olderNote; sampleNote] exportedAtSample)
  /\ exists st',
       handleImport MiniJSON.parse
         (exportNotes MiniJSON.stringify [olderNote; sampleNote] exportedAtSample)
         replace true true existingApp = Some st'
       /\ notes st' = sortByUpdatedAtDesc [olderNote; sampleNote]
       /\ notes st' ≡ₚ [olderNote; sampleNote]
       /\ StronglySorted NewerFirst (notes st')
       /\ (forall i, i ∉ id <$> [olderNote; sampleNote] -> db st' !! i = None)
       /\ (NoDup (id <$> [olderNote; sampleNote]) ->
           forall n, n ∈ [olderNote; sampleNote] ->
          exists r,
            db st' !! id n = Some r
            /\ id (rec_note r) = id n
            /\ title (rec_note r) = title n
            /\ content (rec_note r) = content n
            /\ updatedAt (rec_note r) = updatedAt n
            /\ aiMetadata (rec_note r) = aiMetadata n
            /\ aiInsights (rec_note r) = aiInsights n
            /\ version (rec_note r)
               = Some (match version n with
                       | Some v => if v =? 0 then 1 else v
                       | None => 1
                       end)
            /\ tags (rec_note r) = Some (match tags n with Some t => t | None => [] end)
            /\ subjectType (rec_note r)
               = Some (match subjectType n with Some s => s | None => general end)
            /\ rec_size r = calculateSize (content n)
            /\ (forall v t s,
                  version n = Some v -> v <> 0 -> tags n = Some t ->
                  subjectType n = Some s ->
                  rec_note r = n /\ getNote (id n) (db st') = Some n)).
Proof.
  assert (Hparse :
    MiniJSON.parse (exportNotes MiniJSON.stringify [olderNote; sampleNote] exportedAtSample)
    = inl (exportData [olderNote; sampleNote] exportedAtSample))
    by (vm_compute; reflexivity).
  split; [assumption |].
  exact (export_import_replace_roundtrip MiniJSON.parse MiniJSON.stringify
           [olderNote; sampleNote] exportedAtSample existingApp Hparse).
Defined.

Example import_replace_sample :
  let result := handleImport MiniJSON.parse
                  (exportNotes MiniJSON.stringify [olderNote; sampleNote] exportedAtSample)
                  replace true true existingApp in
  (notes <$> result) = Some [sampleNote; olderNote]
  /\ (alerts <$> result) = Some [lit "Imported 2 notes (replaced all)"].
Proof. vm_compute. split; reflexivity. Qed.

Example import_replace_store_sample :
  let result := handleImport MiniJSON.parse
                  (exportNotes MiniJSON.stringify [olderNote; sampleNote] exportedAtSample)
                  replace true true existingApp in
  (result ≫= fun st' => getNote (id olderNote) (db st')) = Some olderNote
  /\ (result ≫= fun st' => getNote (id sampleNote) (db st')) = Some sampleNote
  /\ (result ≫= fun st' => getNote (lit "n1") (db st')) = None.
Proof. vm_compute. repeat split; reflexivity. Qed.

Example import_malformed_sample :
  handleImport MiniJSON.parse malformedFile replace true true existingApp
  = Some (alert (lit "Import failed: " ++ invalidFormat) existingApp).
Proof. vm_compute. reflexivity. Qed.

(** ** C7: insights from an answer that is not JSON *)

Lemma Within_refl s : Within s s.
Proof. exists [], []. by rewrite app_nil_r. Qed.

Lemma Within_trans a b c : Within a b -> Within b c -> Within a c.
Proof.
  intros (l1 & r1 & ->) (l2 & r2 & ->).
  exists (l2 ++ l1), (r1 ++ r2). by rewrite !app_assoc.
Qed.

Lemma Within_take n s : Within (take n s) s.
Proof. exists [], (drop n s). simpl. by rewrite take_drop. Qed.

Lemma Within_drop n s : Within (drop n s) s.
Proof. exists (take n s), []. by rewrite app_nil_r, take_drop. Qed.

Lemma Within_trimStart s : Within (trimStart s) s.
Proof.
  destruct (trimStart_decompose s) as (ws & H & _). exists ws, [].
  by rewrite app_nil_r.
Qed.

Lemma Within_trim s : Within (trim s) s.
Proof. destruct (trim_decompose s) as (l & r & H & _). by exists l, r. Qed.

Create HintDb within.

#[local] Hint Resolve Within_refl Within_take Within_drop Within_trimStart Within_trim
  : within.

Lemma matchFence_Within optionalJson text whole group :
  matchFence optionalJson text = Some (whole, group) ->
  Within whole text /\ Within group text.
Proof.
  unfold matchFence.
  destruct (indexOf _ text) as [i|]; [| done].
  destruct (optionalJson && _);
    (destruct (indexOf FENCE _) as [j|]; [| done]);
    intros [= <- <-]; split;
    repeat (first [ apply Within_refl
                  | eapply Within_trans; [apply Within_take |]
                  | eapply Within_trans; [apply Within_trimStart |]
                  | eapply Within_trans; [apply Within_drop |] ]).
Qed.

Lemma matchBraces_Within text whole : matchBraces text = Some whole -> Within whole text.
Proof.
  unfold matchBraces.
  destruct (indexOf [LBRACE] text) as [i|]; [| done].
  destruct (lastIndexOfUnit RBRACE text) as [j|]; [| done].
  destruct (i <? j)%nat; [| done].
  intros [= <-]. eapply Within_trans; eauto with within.
Qed.

(** Whatever [extractJsonText] hands to the parser is a part of the text. *)
Lemma extractJsonText_Within optionalJson text :
  Within (extractJsonText optionalJson text) text.
Proof.
  unfold extractJsonText.
  destruct (matchFence optionalJson text) as [[whole group]|] eqn:Ef.
  - apply matchFence_Within in Ef as [Hw Hg]. by destruct (truthy group).
  - destruct (matchBraces text) as [whole|] eqn:Eb; [| apply Within_refl].
    by apply matchBraces_Within.
Qed.

Example extractJsonText_fenced :
  extractJsonText false (lit "Here: " ++ FENCE ++ lit "json {} " ++ FENCE ++ lit " done")
  = lit "{} ".
Proof. reflexivity. Qed.

Example extractJsonText_braces :
  extractJsonText false (lit "Sure! {a} and {b}.") = lit "{a} and {b}".
Proof. reflexivity. Qed.

Lemma indexOf_none c p s : c ∉ s -> indexOf (c :: p) s = None.
Proof.
  induction s as [|x s IH]; intros H; [done |].
  apply not_elem_of_cons in H. destruct H as [Hne H].
  cbn [indexOf startsWith].
  assert (Hx : (c =? x)%N = false) by (apply N.eqb_neq; congruence).
  rewrite Hx. cbn [andb]. by rewrite (IH H).
Qed.

Lemma lastIndexOfUnit_none c s : c ∉ s -> lastIndexOfUnit c s = None.
Proof.
  induction s as [|x s IH]; intros H; [done |].
  apply not_elem_of_cons in H. destruct H as [Hne H].
  cbn [lastIndexOfUnit]. rewrite (IH H).
  assert (Hx : (x =? c)%N = false) by (apply N.eqb_neq; congruence).
  by rewrite Hx.
Qed.

Lemma matchFence_none optionalJson text : BACKTICK ∉ text -> matchFence optionalJson text = None.
Proof.
  intros H. unfold matchFence. cbv zeta.
  destruct optionalJson; cbv beta iota.
  - change FENCE with (BACKTICK :: [BACKTICK; BACKTICK]).
    by rewrite (indexOf_none BACKTICK _ text H).
  - change (FENCE ++ lit "json") with (BACKTICK :: ([BACKTICK; BACKTICK] ++ lit "json")).
    by rewrite (indexOf_none BACKTICK _ text H).
Qed.

(** An answer without a fence and without a pair of braces is handed to
    the parser whole. *)
Lemma extractJsonText_plain optionalJson text :
  BACKTICK ∉ text -> LBRACE ∉ text \/ RBRACE ∉ text ->
  extractJsonText optionalJson text = text.
Proof.
  intros Hb Hbrace. unfold extractJsonText. rewrite (matchFence_none _ _ Hb).
  unfold matchBraces. destruct Hbrace as [H | H].
  - by rewrite (indexOf_none LBRACE [] text H).
  - rewrite (lastIndexOfUnit_none RBRACE text H). by destruct (indexOf [LBRACE] text).
Qed.

Section InsightsFacts.

Variable JSON_parse : jsstring -> JValue + jsstring.

Lemma generateInsights_unparsable noteContent now r data text e :
  responseOk r = true ->
  body r = inl data ->
  getProp data "response" = Some (JStr text) ->
  JSON_parse (trim (extractJsonText false text)) = inr e ->
  generateInsights JSON_parse noteContent now r
  = Returned (defaultInsights noteContent now).
Proof.
  intros Hok Hbody Hresp Hparse.
  unfold generateInsights.
  rewrite (responseOk_not_429 r Hok), Hok, Hbody. cbn [negb].
  destruct (getProp_Some_not_null _ _ _ Hresp) as [f ->].
  unfold propOf. rewrite Hresp.
  assert (Hparsed : parseInsightsText JSON_parse (Some (JStr text)) = JObj []).
  { unfold parseInsightsText. destruct text as [|c text']; simpl truthyJ; cbv iota.
    - by rewrite Hparse.
    - by rewrite Hparse. }
  rewrite Hparsed. reflexivity.
Qed.

(** C7. For every text of a successful answer to an insights request,
    when the part of it that [generateInsights] hands to [JSON.parse] is
    not parsable JSON, [generateInsights] returns, without throwing, the
    insights with summary "No summary available.", no definitions, an
    empty additional context, no study questions, the current time and
    the hash of the note's content.  The part handed to the parser is
    always a contiguous part of the answer, and it is the whole answer,
    trimmed, when the answer has no fence and no pair of braces: so for
    plain text and for a JSON object cut off before its closing brace. *)
Theorem malformed_insights_yield_defaults
    (noteContent text e : jsstring) (now : Z) (r : HttpResponse) (data : JValue) :
  responseOk r = true ->
  body r = inl data ->
  getProp data "response" = Some (JStr text) ->
  JSON_parse (trim (extractJsonText false text)) = inr e ->
  generateInsights JSON_parse noteContent now r
  = Returned (defaultInsights noteContent now)
  /\ summary (defaultInsights noteContent now) = JStr (lit "No summary available.")
  /\ definitions (defaultInsights noteContent now) = []
  /\ additionalContext (defaultInsights noteContent now) = JStr []
  /\ studyQuestions (defaultInsights noteContent now) = []
  /\ generatedAt (defaultInsights noteContent now) = now
  /\ contentHash (defaultInsights noteContent now) = hashContent noteContent
  /\ Within (trim (extractJsonText false text)) text
  /\ (BACKTICK ∉ text -> LBRACE ∉ text \/ RBRACE ∉ text ->
      trim (extractJsonText false text) = trim text).
Proof.
  intros Hok Hbody Hresp Hparse.
  split; [by apply (generateInsights_unparsable noteContent now r data text e) |].
  do 6 (split; [reflexivity |]).
  split.
  - eapply Within_trans; [apply Within_trim | apply extractJsonText_Within].
  - intros Hb Hbrace. by rewrite extractJsonText_plain.
Qed.

End InsightsFacts.

Lemma malformed_insights_yield_defaults_witness :
  responseOk (okResponse truncatedAnswer) = true
  /\ body (okResponse truncatedAnswer) = inl (JObj [(lit "response", JStr truncatedAnswer)])
  /\ getProp (JObj [(lit "response", JStr truncatedAnswer)]) "response"
     = Some (JStr truncatedAnswer)
  /\ MiniJSON.parse (trim (extractJsonText false truncatedAnswer)) = inr MiniJSON.syntaxError
  /\ generateInsights MiniJSON.parse (content sampleNote) 1700000002000
       (okResponse truncatedAnswer)
     = Returned (defaultInsights (content sampleNote) 1700000002000).
Proof.
  assert (H1 : responseOk (okResponse truncatedAnswer) = true) by reflexivity.
  assert (H2 : body (okResponse truncatedAnswer)
               = inl (JObj [(lit "response", JStr truncatedAnswer)])) by reflexivity.
  assert (H3 : getProp (JObj [(lit "response", JStr truncatedAnswer)]) "response"
               = Some (JStr truncatedAnswer)) by reflexivity.
  assert (H4 : MiniJSON.parse (trim (extractJsonText false truncatedAnswer))
               = inr MiniJSON.syntaxError) by (vm_compute; reflexivity).
  do 4 (split; [assumption |]).
  exact (proj1 (malformed_insights_yield_defaults MiniJSON.parse (content sampleNote)
                  truncatedAnswer MiniJSON.syntaxError 1700000002000
                  (okResponse truncatedAnswer)
                  (JObj [(lit "response", JStr truncatedAnswer)]) H1 H2 H3 H4)).
Defined.

Example plain_text_answer_yields_defaults :
  generateInsights MiniJSON.parse (content sampleNote) 1700000002000
    (okResponse (lit "Sorry, I can only do that 3 times."))
  = Returned (defaultInsights (content sampleNote) 1700000002000).
Proof. vm_compute. reflexivity. Qed.

Example hashContent_sample : hashContent (lit "abc") = lit "17862".
Proof. reflexivity. Qed.

Example hashContent_negative :
  hashContent (lit "The quick brown fox jumps over the lazy dog") = lit "-245322ad".
Proof. reflexivity. Qed.

(** ** C5 and C6: cooldown and rate limits *)

Example ceilSeconds_samples :
  ceilSeconds 3000 = 3 /\ ceilSeconds 2999 = 3 /\ ceilSeconds 2000 = 2
  /\ ceilSeconds 1 = 1 /\ ceilSeconds 0 = 0 /\ ceilSeconds (-1) = 0.
Proof. repeat split. Qed.

Lemma ceilSeconds_positive x : 0 < x -> 0 < ceilSeconds x.
Proof.
  intros Hx. unfold ceilSeconds.
  assert ((- x) / 1000 < 0); [| lia].
  apply Z.div_lt_upper_bound; lia.
Qed.

Section CooldownFacts.

Variable JSON_parse : jsstring -> JValue + jsstring.

Implicit Types p : InsightsPanel.

(** A manual request during the cooldown: nothing but the message. *)
Lemma generate_in_cooldown script n seen now p :
  now - ip_lastRequestTime p < COOLDOWN_MS ->
  generate JSON_parse script (Some n) connected seen false now p
  = mkInsightsPanel (ip_insights p) (ip_isGenerating p)
      (Some (waitMessage (now - ip_lastRequestTime p)))
      (ip_cooldownRemaining p) (ip_isRetrying p) (ip_lastRequestTime p)
      (ip_fetched p) (ip_retries p) (ip_updates p).
Proof.
  intros H. apply Z.ltb_lt in H.
  destruct script as [|[latency r] rest]; cbn [generate];
    rewrite bool_decide_eq_true_2 by done; cbn [negb andb]; by rewrite H.
Qed.

(** A request that passes the cooldown test, step by step. *)
Lemma generate_issued script n seen isRetry now p :
  isRetry = true \/ COOLDOWN_MS <= now - ip_lastRequestTime p ->
  generate JSON_parse script (Some n) connected seen isRetry now p
  = match script with
    | [] =>
        mkInsightsPanel (ip_insights p) true None 3 false now
                        (ip_fetched p ++ [now]) (ip_retries p) (ip_updates p)
    | (latency, r) :: rest =>
        match generateInsights JSON_parse (content n) (now + latency) r with
        | Returned newInsights =>
            mkInsightsPanel (Some newInsights) seen None 3 false now
                            (ip_fetched p ++ [now]) (ip_retries p)
                            (ip_updates p ++ [withInsights n (Some newInsights)])
        | Thrown errorMessage =>
            if isRateLimitMessage errorMessage then
              generate JSON_parse rest (Some n) connected seen true
                       (now + latency + RETRY_DELAY_MS)
                       (awaitingRetry p seen now (now + latency))
            else
              mkInsightsPanel (ip_insights p) seen (Some errorMessage) 3 false now
                              (ip_fetched p ++ [now]) (ip_retries p) (ip_updates p)
        end
    end.
Proof.
  intros H.
  assert (Hc : negb isRetry && (now - ip_lastRequestTime p <? COOLDOWN_MS) = false).
  { destruct H as [-> | H]; [done |]. apply andb_false_iff. right. by apply Z.ltb_ge. }
  destruct script as [|[latency r] rest]; cbn [generate];
    rewrite bool_decide_eq_true_2 by done; cbn [negb]; rewrite Hc; reflexivity.
Qed.

(** [generate] only ever adds to the list of calls, and after a call
    that was issued the cooldown runs from the panel's latest call. *)
Lemma generate_fetched_grows script note aiStatus seen isRetry now p :
  exists later,
    ip_fetched (generate JSON_parse script note aiStatus seen isRetry now p)
    = ip_fetched p ++ later.
Proof.
  revert isRetry now p.
  induction script as [|[latency r] rest IH]; intros isRetry now p.
  - cbn [generate]. destruct note as [n|]; [| by exists []; rewrite app_nil_r].
    destruct (negb _); [by exists []; rewrite app_nil_r |].
    destruct (_ && _); [by exists []; rewrite app_nil_r |].
    by exists [now].
  - cbn [generate]. destruct note as [n|]; [| by exists []; rewrite app_nil_r].
    destruct (negb _); [by exists []; rewrite app_nil_r |].
    destruct (_ && _); [by exists []; rewrite app_nil_r |].
    destruct (generateInsights _ _ _ _) as [ins | msg]; [by exists [now] |].
    destruct (isRateLimitMessage msg); [| by exists [now]].
    edestruct IH as [later ->]. cbn [ip_fetched].
    exists (now :: later). by rewrite <- app_assoc.
Qed.

Lemma generate_issued_fetched script n seen isRetry now p :
  isRetry = true \/ COOLDOWN_MS <= now - ip_lastRequestTime p ->
  let p' := generate JSON_parse script (Some n) connected seen isRetry now p in
  (exists later, ip_fetched p' = ip_fetched p ++ now :: later)
  /\ last (ip_fetched p') = Some (ip_lastRequestTime p').
Proof.
  revert isRetry now p.
  induction script as [|[latency r] rest IH]; intros isRetry now p H; cbn zeta;
    rewrite (generate_issued _ n seen isRetry now p H).
  - split; [by exists [] | cbn [ip_fetched ip_lastRequestTime]; apply last_snoc].
  - destruct (generateInsights _ _ _ _) as [ins | msg].
    { split; [by exists [] | cbn [ip_fetched ip_lastRequestTime]; apply last_snoc]. }
    destruct (isRateLimitMessage msg).
    2: { split; [by exists [] | cbn [ip_fetched ip_lastRequestTime]; apply last_snoc]. }
    destruct (IH true (now + latency + RETRY_DELAY_MS)
                 (awaitingRetry p seen now (now + latency)) (or_introl eq_refl))
      as [[later Hl] Hlast].
    split; [| exact Hlast].
    rewrite Hl. cbn [awaitingRetry ip_fetched]. rewrite <- app_assoc.
    by exists ((now + latency + RETRY_DELAY_MS) :: later).
Qed.

(** The grammar checker's countdown stays positive until 3000 ms have
    passed since its last check. *)
Lemma grammarTick_in_cooldown now g :
  now - gc_lastCheckTime g < COOLDOWN_MS ->
  0 < gc_cooldownRemaining (grammarTick now g)
  /\ gc_lastCheckTime (grammarTick now g) = gc_lastCheckTime g
  /\ gc_fetched (grammarTick now g) = gc_fetched g.
Proof.
  intros H. unfold grammarTick. cbn [gc_cooldownRemaining gc_lastCheckTime gc_fetched].
  pose proof (ceilSeconds_positive (COOLDOWN_MS - (now - gc_lastCheckTime g))) as Hp.
  destruct (_ <=? 0) eqn:E; [apply Z.leb_le in E |]; repeat split; lia.
Qed.

Lemma grammarTicks_in_cooldown ticks g :
  0 < gc_cooldownRemaining g ->
  Forall (fun t => t - gc_lastCheckTime g < COOLDOWN_MS) ticks ->
  let g' := fold_left (fun g t => grammarTick t g) ticks g in
  0 < gc_cooldownRemaining g'
  /\ gc_lastCheckTime g' = gc_lastCheckTime g
  /\ gc_fetched g' = gc_fetched g.
Proof.
  revert g. induction ticks as [|t ticks IH]; intros g Hpos Hall; simpl; [done |].
  inversion Hall as [|? ? Ht Hrest]; subst.
  destruct (grammarTick_in_cooldown t g Ht) as (Hp & Hl & Hf).
  destruct (IH (grammarTick t g) Hp) as (Hp' & Hl' & Hf').
  { by rewrite Hl. }
  repeat split; congruence.
Qed.

Lemma checkGrammar_in_cooldown noteContent aiStatus now r g :
  0 < gc_cooldownRemaining g -> checkGrammar JSON_parse noteContent aiStatus now r g = g.
Proof.
  intros H. unfold checkGrammar. apply Z.ltb_lt in H. rewrite H.
  by rewrite !orb_true_r.
Qed.

Lemma checkGrammar_issued noteContent aiStatus now r g :
  (20 < length (trim noteContent))%nat ->
  aiStatus <> offline ->
  gc_cooldownRemaining g <= 0 ->
  let g' := checkGrammar JSON_parse noteContent aiStatus now r g in
  gc_fetched g' = gc_fetched g ++ [now]
  /\ gc_lastCheckTime g' = now
  /\ gc_cooldownRemaining g' = 3
  /\ (status r = 429 ->
      gc_error g' = Some (lit "Rate limited. Please wait a moment.")
      /\ gc_result g' = None).
Proof.
  intros Hlen Hs Hc. cbn zeta. unfold checkGrammar.
  apply Nat.ltb_lt in Hlen. rewrite Hlen.
  rewrite (bool_decide_eq_false_2 _ Hs).
  assert (E : (0 <? gc_cooldownRemaining g) = false) by (apply Z.ltb_ge; lia).
  rewrite E. cbn [negb orb].
  destruct (grammarOutcome _ _ _) as [res | e] eqn:Eo;
    (do 3 (split; [reflexivity |]));
    intros H429; unfold grammarOutcome in Eo; apply Z.eqb_eq in H429;
    rewrite H429 in Eo; cbn [gc_error gc_result]; split; congruence.
Qed.

(** Summary, tags and continuation have no cooldown: whatever the time
    and whatever was requested before, the call is made. *)
Lemma summary_always_fetches n now latency r sb :
  sb_fetched (handleGenerateSummary (Some n) connected now latency r sb)
  = sb_fetched sb ++ [now].
Proof.
  unfold handleGenerateSummary. cbn [bool_decide decide_rel negb].
  rewrite bool_decide_eq_true_2 by done. cbn [negb].
  destruct (wr_success _); [| by destruct (wr_error _) as [e|]; [destruct (truthy e) |]].
  destruct (wr_data _) as [[[[]|]|]|];
    try done; by destruct (wr_error _) as [e|]; [destruct (truthy e) |].
Qed.

Lemma tags_always_fetch n now r sb :
  sb_fetched (handleSuggestTags (Some n) connected now r sb) = sb_fetched sb ++ [now].
Proof.
  unfold handleSuggestTags. rewrite bool_decide_eq_true_2 by done. cbn [negb].
  destruct (wr_success _); [| by destruct (wr_error _)].
  destruct (wr_data _) as [[]|]; try done; by destruct (wr_error _).
Qed.

Lemma continuation_always_fetches n textareaValue now r e :
  trim textareaValue <> [] ->
  ed_fetched (generateContinuation (Some n) connected textareaValue now r e)
  = ed_fetched e ++ [now].
Proof.
  intros H. unfold generateContinuation. rewrite bool_decide_eq_true_2 by done.
  cbn [negb]. destruct (trim textareaValue); [done |]. cbn [truthy negb].
  by destruct (wr_success _).
Qed.

End CooldownFacts.

Section CooldownTheorems.

Variable JSON_parse : jsstring -> JValue + jsstring.

(** C5, amended. The 3000 ms interval is kept by each component for
    itself and only by the insights panel and the grammar checker.  A
    manual insights request made less than 3000 ms after the panel's
    latest call is answered with the wait message and calls nothing; one
    made 3000 ms or more after it is issued, and the interval then runs
    from that call.  A grammar check made while the checker's countdown
    has not seen 3000 ms pass is dropped without a call.  Summary, tag
    and continuation requests are issued whenever they are made. *)
Theorem cooldown_is_per_component :
  (forall script n seen now p,
      let p' := generate JSON_parse script (Some n) connected seen false now p in
      (now - ip_lastRequestTime p < COOLDOWN_MS ->
       ip_fetched p' = ip_fetched p
       /\ ip_error p' = Some (waitMessage (now - ip_lastRequestTime p)))
      /\ (COOLDOWN_MS <= now - ip_lastRequestTime p ->
          (exists later, ip_fetched p' = ip_fetched p ++ now :: later)
          /\ last (ip_fetched p') = Some (ip_lastRequestTime p')))
  /\ (forall noteContent aiStatus r0 r t0 t ticks g,
         (20 < length (trim noteContent))%nat ->
         aiStatus <> offline ->
         gc_cooldownRemaining g <= 0 ->
         Forall (fun tick => tick - t0 < COOLDOWN_MS) ticks ->
         let g1 := fold_left (fun g tick => grammarTick tick g) ticks
                             (checkGrammar JSON_parse noteContent aiStatus t0 r0 g) in
         gc_fetched g1 = gc_fetched g ++ [t0]
         /\ checkGrammar JSON_parse noteContent aiStatus t r g1 = g1)
  /\ (forall n now latency r sb,
         sb_fetched (handleGenerateSummary (Some n) connected now latency r sb)
         = sb_fetched sb ++ [now])
  /\ (forall n now r sb,
         sb_fetched (handleSuggestTags (Some n) connected now r sb)
         = sb_fetched sb ++ [now])
  /\ (forall n textareaValue now r e,
         trim textareaValue <> [] ->
         ed_fetched (generateContinuation (Some n) connected textareaValue now r e)
         = ed_fetched e ++ [now]).
Proof.
  split; [| split; [| split; [| split]]].
  - intros script n seen now p. cbn zeta. split.
    + intros H. by rewrite (generate_in_cooldown JSON_parse script n seen now p H).
    + intros H. apply generate_issued_fetched. by right.
  - intros noteContent aiStatus r0 r t0 t ticks g Hlen Hs Hc Hticks. cbn zeta.
    destruct (checkGrammar_issued JSON_parse noteContent aiStatus t0 r0 g Hlen Hs Hc)
      as (Hf & Hl & Hr & _).
    destruct (grammarTicks_in_cooldown ticks
                (checkGrammar JSON_parse noteContent aiStatus t0 r0 g))
      as (Hpos & _ & Hf').
    { rewrite Hr. lia. }
    { by rewrite Hl. }
    split; [by rewrite Hf', Hf |].
    by apply checkGrammar_in_cooldown.
  - apply summary_always_fetches.
  - apply tags_always_fetch.
  - apply continuation_always_fetches.
Qed.

Lemma generateText_429 streaming r data m :
  status r = 429 ->
  body r = inl data ->
  getProp data "message" = Some (JStr m) ->
  m <> [] ->
  generateText streaming r = Thrown m.
Proof.
  intros Hs Hb Hm Hne. unfold generateText.
  apply Z.eqb_eq in Hs. rewrite Hs, Hb.
  destruct (getProp_Some_not_null _ _ _ Hm) as [f ->].
  unfold propOf. rewrite Hm. unfold messageOr. simpl truthyJ.
  by destruct m.
Qed.

Lemma generateText_429_throws streaming r :
  status r = 429 -> exists e, generateText streaming r = Thrown e.
Proof.
  intros Hs. unfold generateText. apply Z.eqb_eq in Hs. rewrite Hs.
  destruct (body r) as [data|e]; [| by eexists].
  destruct (propOf data "message"); by eexists.
Qed.

Lemma generateInsights_429 noteContent now r data m :
  status r = 429 ->
  body r = inl data ->
  getProp data "message" = Some (JStr m) ->
  m <> [] ->
  generateInsights JSON_parse noteContent now r = Thrown m.
Proof.
  intros Hs Hb Hm Hne. unfold generateInsights, jsonOrEmpty.
  apply Z.eqb_eq in Hs. rewrite Hs, Hb.
  destruct (getProp_Some_not_null _ _ _ Hm) as [f ->].
  unfold propOf. rewrite Hm. unfold messageOr. simpl truthyJ.
  by destruct m.
Qed.

(** C6, amended. When an insights request fails with an error whose
    message contains "rate", "429" or "too many" (as the message of the
    proxy's 429 answer does), the panel shows "Service busy, retrying in
    3 seconds..." in place of the error and calls the endpoint again
    3000 ms after the answer, without the cooldown test.  For a summary,
    a tag suggestion and a grammar check a 429 answer ends the request
    with its message shown as the error and no further call; for a
    continuation it ends the request with the ghost text cleared and no
    further call. *)
Theorem rate_limit_handling_by_operation :
  (forall latency r rest n seen isRetry now p errorMessage,
      isRetry = true \/ COOLDOWN_MS <= now - ip_lastRequestTime p ->
      generateInsights JSON_parse (content n) (now + latency) r = Thrown errorMessage ->
      isRateLimitMessage errorMessage = true ->
      let waiting := awaitingRetry p seen now (now + latency) in
      let p' := generate JSON_parse ((latency, r) :: rest) (Some n) connected seen
                         isRetry now p in
      p' = generate JSON_parse rest (Some n) connected seen true
                    (now + latency + RETRY_DELAY_MS) waiting
      /\ ip_error waiting = Some busyMessage
      /\ ip_retries waiting = ip_retries p ++ [now + latency + RETRY_DELAY_MS]
      /\ exists later,
           ip_fetched p'
           = ip_fetched p ++ now :: (now + latency + RETRY_DELAY_MS) :: later)
  /\ (forall noteContent now r data m,
         status r = 429 -> body r = inl data ->
         getProp data "message" = Some (JStr m) -> m <> [] ->
         generateInsights JSON_parse noteContent now r = Thrown m)
  /\ isRateLimitMessage tooManyRequests = true
  /\ (forall n now latency r data m sb,
         status r = 429 -> body r = inl data ->
         getProp data "message" = Some (JStr m) -> m <> [] ->
         let sb' := handleGenerateSummary (Some n) connected now latency r sb in
         sb_error sb' = Some m
         /\ sb_fetched sb' = sb_fetched sb ++ [now]
         /\ sb_updates sb' = sb_updates sb)
  /\ (forall n now r data m sb,
         status r = 429 -> body r = inl data ->
         getProp data "message" = Some (JStr m) -> m <> [] ->
         let sb' := handleSuggestTags (Some n) connected now r sb in
         sb_error sb' = Some m
         /\ sb_fetched sb' = sb_fetched sb ++ [now]
         /\ sb_suggestedTags sb' = sb_suggestedTags sb)
  /\ (forall noteContent aiStatus now r g,
         (20 < length (trim noteContent))%nat ->
         aiStatus <> offline ->
         gc_cooldownRemaining g <= 0 ->
         status r = 429 ->
         let g' := checkGrammar JSON_parse noteContent aiStatus now r g in
         gc_error g' = Some rateLimitedFallback
         /\ gc_result g' = None
         /\ gc_fetched g' = gc_fetched g ++ [now])
  /\ (forall n textareaValue now r e,
         trim textareaValue <> [] ->
         status r = 429 ->
         generateContinuation (Some n) connected textareaValue now r e
         = mkEditorAI [] (ed_fetched e ++ [now])).
Proof.
  split; [| split; [| split; [| split; [| split; [| split]]]]].
  - intros latency r rest n seen isRetry now p msg Hissued Hthrown Hrate. cbn zeta.
    assert (Hstep :
      generate JSON_parse ((latency, r) :: rest) (Some n) connected seen isRetry now p
      = generate JSON_parse rest (Some n) connected seen true
                 (now + latency + RETRY_DELAY_MS)
                 (awaitingRetry p seen now (now + latency))).
    { rewrite (generate_issued JSON_parse _ n seen isRetry now p Hissued).
      by rewrite Hthrown, Hrate. }
    split; [done |]. split; [done |]. split; [done |].
    rewrite Hstep.
    destruct (generate_issued_fetched JSON_parse rest n seen true
                (now + latency + RETRY_DELAY_MS)
                (awaitingRetry p seen now (now + latency)) (or_introl eq_refl))
      as [[later Hl] _].
    exists later. rewrite Hl. cbn [awaitingRetry ip_fetched].
    by rewrite <- app_assoc.
  - apply generateInsights_429.
  - reflexivity.
  - intros n now latency r data m sb Hs Hb Hm Hne. cbn zeta.
    unfold handleGenerateSummary, workerHandle, generateSummary.
    rewrite (generateText_429 true r data m Hs Hb Hm Hne).
    rewrite bool_decide_eq_true_2 by done. cbn.
    by destruct m.
  - intros n now r data m sb Hs Hb Hm Hne. cbn zeta.
    unfold handleSuggestTags, workerHandle, suggestTags.
    rewrite (generateText_429 false r data m Hs Hb Hm Hne).
    rewrite bool_decide_eq_true_2 by done. cbn.
    by destruct m.
  - intros noteContent aiStatus now r g Hlen Hs Hc H429. cbn zeta.
    destruct (checkGrammar_issued JSON_parse noteContent aiStatus now r g Hlen Hs Hc)
      as (Hf & _ & _ & He).
    destruct (He H429) as [He1 He2]. done.
  - intros n textareaValue now r e Hne H429.
    unfold generateContinuation, workerHandle, continueWriting.
    destruct (generateText_429_throws true r H429) as [err ->].
    rewrite bool_decide_eq_true_2 by done. cbn [negb].
    destruct (trim textareaValue); [done |]. reflexivity.
Qed.

End CooldownTheorems.

(** C5 as stated fails: within one sidebar a tag request made 500 ms
    after a summary request is sent to the endpoint and not rejected; so
    is a second continuation 500 ms after a first; and an insights request
    and a grammar check 1 ms apart are both sent. *)
Lemma shared_cooldown_counterexample :
  let sb1 := handleGenerateSummary (Some sampleNote) connected 10000 400
               (okResponse (lit "A shopping list.")) freshSidebar in
  let sb2 := handleSuggestTags (Some sampleNote) connected 10500
               (okResponse (lit "home, food")) sb1 in
  let e1 := generateContinuation (Some sampleNote) connected (content sampleNote) 10000
              (okResponse (lit "and bread")) freshEditor in
  let e2 := generateContinuation (Some sampleNote) connected (content sampleNote) 10500
              (okResponse (lit "and jam")) e1 in
  let p := generate MiniJSON.parse [] (Some sampleNote) connected false false
             10000 freshPanel in
  let g := checkGrammar MiniJSON.parse longText connected 10001
             (okResponse (lit "{}")) freshGrammar in
  10500 - 10000 < COOLDOWN_MS
  /\ sb_fetched sb1 = [10000]
  /\ sb_fetched sb2 = [10000; 10500]
  /\ sb_fetched sb2 <> sb_fetched sb1
  /\ sb_error sb2 = None
  /\ sb_suggestedTags sb2 = [lit "home"; lit "food"]
  /\ ed_fetched e2 = [10000; 10500]
  /\ ghostText e2 = lit "and jam "
  /\ ip_fetched p = [10000]
  /\ gc_fetched g = [10001]
  /\ gc_error g = None.
Proof. vm_compute. repeat split; discriminate. Qed.

Lemma cooldown_is_per_component_witness :
  let p1 := generate MiniJSON.parse [] (Some sampleNote) connected false false
              10000 freshPanel in
  let early := generate MiniJSON.parse [] (Some sampleNote) connected false false
                 11000 p1 in
  let late := generate MiniJSON.parse [] (Some sampleNote) connected false false
                13000 p1 in
  11000 - ip_lastRequestTime p1 < COOLDOWN_MS
  /\ ip_fetched early = ip_fetched p1
  /\ ip_error early = Some (waitMessage (11000 - ip_lastRequestTime p1))
  /\ COOLDOWN_MS <= 13000 - ip_lastRequestTime p1
  /\ (exists later, ip_fetched late = ip_fetched p1 ++ 13000 :: later)
  /\ last (ip_fetched late) = Some (ip_lastRequestTime late).
Proof.
  intros p1 early late.
  destruct (cooldown_is_per_component MiniJSON.parse) as (Hins & _).
  destruct (Hins [] sampleNote false 11000 p1) as [Hrej _].
  destruct (Hins [] sampleNote false 13000 p1) as [_ Hok].
  assert (H1 : 11000 - ip_lastRequestTime p1 < COOLDOWN_MS) by (vm_compute; reflexivity).
  assert (H2 : COOLDOWN_MS <= 13000 - ip_lastRequestTime p1) by (vm_compute; discriminate).
  destruct (Hrej H1) as [Ha Hb]. destruct (Hok H2) as [Hc Hd].
  repeat split; assumption.
Defined.

Example wait_message_sample : waitMessage 1000 = lit "Please wait 2s between requests".
Proof. reflexivity. Qed.

(** C6 as stated fails: when every answer is a rate-limit error the panel
    retries after each of them, three times for three such answers; and a
    rate-limited continuation leaves nothing but an empty ghost text. *)
Lemma single_retry_counterexample :
  let p' := generate MiniJSON.parse
              [(10, rateLimited); (10, rateLimited); (10, rateLimited)]
              (Some sampleNote) connected false false 10000 freshPanel in
  ip_fetched p' = [10000; 13010; 16020; 19030]
  /\ ip_retries p' = [13010; 16020; 19030]
  /\ ~ (length (ip_retries p') <= 1)%nat
  /\ generateContinuation (Some sampleNote) connected (lit "Once upon") 10000
       rateLimited freshEditor
     = mkEditorAI [] [10000].
Proof.
  vm_compute. repeat split. lia.
Qed.

Lemma rate_limit_handling_by_operation_witness :
  let waiting := awaitingRetry freshPanel false 10000 (10000 + 10) in
  let p' := generate MiniJSON.parse [(10, rateLimited)] (Some sampleNote) connected
                     false false 10000 freshPanel in
  (false = true \/ COOLDOWN_MS <= 10000 - ip_lastRequestTime freshPanel)
  /\ generateInsights MiniJSON.parse (content sampleNote) (10000 + 10) rateLimited
     = Thrown tooManyRequests
  /\ isRateLimitMessage tooManyRequests = true
  /\ p' = generate MiniJSON.parse [] (Some sampleNote) connected false true
                   (10000 + 10 + RETRY_DELAY_MS) waiting
  /\ ip_error waiting = Some busyMessage
  /\ ip_retries waiting = ip_retries freshPanel ++ [10000 + 10 + RETRY_DELAY_MS]
  /\ exists later,
       ip_fetched p'
       = ip_fetched freshPanel ++ 10000 :: (10000 + 10 + RETRY_DELAY_MS) :: later.
Proof.
  intros waiting p'.
  destruct (rate_limit_handling_by_operation MiniJSON.parse) as (Hretry & _).
  assert (H1 : false = true \/ COOLDOWN_MS <= 10000 - ip_lastRequestTime freshPanel)
    by (right; vm_compute; discriminate).
  assert (H2 : generateInsights MiniJSON.parse (content sampleNote) (10000 + 10) rateLimited
               = Thrown tooManyRequests) by (vm_compute; reflexivity).
  assert (H3 : isRateLimitMessage tooManyRequests = true) by (vm_compute; reflexivity).
  repeat (split; [assumption |]).
  exact (Hretry 10 rateLimited [] sampleNote false false 10000 freshPanel
                tooManyRequests H1 H2 H3).
Defined.

Example rate_limited_summary_shows_message :
  let sb := handleGenerateSummary (Some sampleNote) connected 10000 10 rateLimited
              freshSidebar in
  sb_error sb = Some tooManyRequests /\ sb_fetched sb = [10000].
Proof. vm_compute. split; reflexivity. Qed.

(* ===================================================================== *)
(** * Part III: further properties of the code *)
(* ===================================================================== *)

(** ** Word count *)

Lemma splitWhiteSpaceFrom_nonempty g s : splitWhiteSpaceFrom g s <> [].
Proof.
  revert g. induction s as [|c r IH]; intros g; simpl; [done |].
  destruct (isWhiteSpace c); [destruct g; [apply IH | done] |].
  by destruct (splitWhiteSpaceFrom false r).
Qed.

(** The first piece is empty exactly when the string is empty or starts
    with white space while no gap is open. *)
Lemma splitWhiteSpaceFrom_head_false s :
  exists p ps, splitWhiteSpaceFrom false s = p :: ps
               /\ (p = [] <-> wordStarts true s = wordStarts false s).
Proof.
  destruct s as [|c r]; simpl.
  - exists [], []. done.
  - destruct (isWhiteSpace c) eqn:Hc.
    + exists [], (splitWhiteSpaceFrom true r). done.
    + destruct (splitWhiteSpaceFrom false r) as [|p ps] eqn:E.
      * by apply splitWhiteSpaceFrom_nonempty in E.
      * exists (c :: p), ps. split; [done |]. split; [done | lia].
Qed.

Lemma wordStarts_gap s :
  wordStarts true s = wordStarts false s \/ wordStarts true s = S (wordStarts false s).
Proof. destruct s as [|c r]; simpl; [by left |]. destruct (isWhiteSpace c); [by left | by right]. Qed.

Lemma nonEmptyPieces_count g s :
  nonEmptyPieces (splitWhiteSpaceFrom g s) = wordStarts true s.
Proof.
  revert g. induction s as [|c r IH]; intros g; [done |].
  simpl. destruct (isWhiteSpace c) eqn:Hc.
  - destruct g; [apply IH |]. unfold nonEmptyPieces. simpl. apply IH.
  - specialize (IH false).
    destruct (splitWhiteSpaceFrom_head_false r) as (p & ps & E & Hp).
    rewrite E in *. unfold nonEmptyPieces in *. simpl in *.
    destruct p as [|x p]; simpl in *.
    + assert (wordStarts true r = wordStarts false r) by (by apply Hp). lia.
    + assert (wordStarts true r <> wordStarts false r) by (intros H; by apply Hp in H).
      destruct (wordStarts_gap r); lia.
Qed.

Lemma wordStarts_leading l s : AllWhiteSpace l -> wordStarts true (l ++ s) = wordStarts true s.
Proof. induction 1 as [|c l Hc _ IH]; simpl; [done |]. by rewrite Hc. Qed.

Lemma wordStarts_trailing g s r : AllWhiteSpace r -> wordStarts g (s ++ r) = wordStarts g s.
Proof.
  intros Hr. revert g. induction s as [|c s IH]; intros g; simpl.
  - destruct r as [|x r]; [done |]. inversion Hr as [|? ? Hx Hr']; subst.
    simpl. rewrite Hx. rewrite <- (app_nil_r r). by rewrite wordStarts_leading.
  - destruct (isWhiteSpace c); by rewrite IH.
Qed.

Lemma wordStarts_trim s : wordStarts true (trim s) = wordStarts true s.
Proof.
  destruct (trim_decompose s) as (l & r & Hs & Hl & Hr & _).
  rewrite Hs at 2. by rewrite wordStarts_leading, wordStarts_trailing.
Qed.

Lemma wordStarts_separated g a c b :
  isWhiteSpace c = true ->
  wordStarts g (a ++ c :: b) = (wordStarts g a + wordStarts true b)%nat.
Proof.
  intros Hc. revert g. induction a as [|x a IH]; intros g; simpl.
  - by rewrite Hc.
  - destruct (isWhiteSpace x); rewrite IH; lia.
Qed.

Lemma countWords_wordStarts text : countWords text = Z.of_nat (wordStarts true text).
Proof.
  unfold countWords. rewrite <- (wordStarts_trim text).
  destruct (trim text) as [|c t] eqn:E; [done |].
  cbn [truthy negb]. f_equal. apply (nonEmptyPieces_count false).
Qed.

(** X1. [countWords] counts the maximal runs of units that are not white
    space: it is 0 for a text of white space only, 1 for a single word,
    and the count of a text cut at a white-space unit is the sum of the
    counts of the two parts. *)
Theorem countWords_counts_runs :
  (forall text, countWords text = Z.of_nat (wordStarts true text))
  /\ (forall text, AllWhiteSpace text -> countWords text = 0)
  /\ (forall w, w <> [] -> Forall (fun c => isWhiteSpace c = false) w -> countWords w = 1)
  /\ (forall a c b, isWhiteSpace c = true ->
                    countWords (a ++ c :: b) = countWords a + countWords b).
Proof.
  split; [apply countWords_wordStarts |]. split; [| split].
  - intros text H. rewrite countWords_wordStarts.
    rewrite <- (app_nil_r text). by rewrite wordStarts_leading.
  - intros w Hne Hw. rewrite countWords_wordStarts.
    destruct w as [|c w]; [done |]. inversion Hw as [|? ? Hc Hw']; subst.
    simpl. rewrite Hc. clear Hne Hw Hc.
    induction Hw' as [|x w Hx _ IH]; [done |]. simpl. rewrite Hx. apply IH.
  - intros a c b Hc. rewrite !countWords_wordStarts, wordStarts_separated by done. lia.
Qed.

Example countWords_samples :
  countWords (lit "  Hello   brave new" ++ [LF] ++ lit "world ") = 4
  /\ countWords (lit "   ") = 0 /\ countWords [] = 0.
Proof. repeat split. Qed.

(** ** Titles again *)

Lemma split_without_separator sep s : sep ∉ s -> split sep s = [s].
Proof.
  induction s as [|c r IH]; intros H; simpl; [done |].
  rewrite not_elem_of_cons in H. destruct H as [Hne Hr].
  destruct (c =? sep)%N eqn:E; [apply N.eqb_eq in E; congruence |].
  by rewrite IH.
Qed.

Lemma Within_no_unit c s text : Within s text -> c ∉ text -> c ∉ s.
Proof.
  intros (l & r & ->) H Hs. apply H. rewrite !elem_of_app. auto.
Qed.

Lemma extractTitle_cases text :
  exists line,
    FirstLineOf text line
    /\ extractTitle text
       = if truthy (trim line) then
           if (50 <? length (trim line))%nat
           then take 50 (trim line) ++ lit "..." else trim line
         else [].
Proof.
  destruct (first_line_exists text) as (line & Hline & [others Hsplit] & _).
  exists line. split; [done |].
  unfold extractTitle. rewrite Hsplit. simpl default. by rewrite substring_prefix.
Qed.

Lemma extractTitle_of_trimmed t :
  Trimmed t -> LF ∉ t ->
  extractTitle t
  = if truthy t then if (50 <? length t)%nat then take 50 t ++ lit "..." else t else [].
Proof.
  intros Ht Hnl. unfold extractTitle.
  rewrite (split_without_separator LF t Hnl). simpl default.
  by rewrite (Trimmed_trim t Ht), substring_prefix.
Qed.

Lemma dots_no_line_feed : LF ∉ lit "...".
Proof. intros H. apply list_elem_of_In in H. vm_compute in H. intuition discriminate. Qed.

(** X2. A title never holds a line feed, never starts with white space,
    is at most 53 code units long, and deriving a title from a title gives
    that title again. *)
Theorem extractTitle_idempotent (text : jsstring) :
  extractTitle (extractTitle text) = extractTitle text
  /\ (LF ∉ extractTitle text)
  /\ (length (extractTitle text) <= 53)%nat
  /\ (forall c r, extractTitle text = c :: r -> isWhiteSpace c = false).
Proof.
  destruct (extractTitle_cases text) as (line & [Hnl _] & Htitle).
  pose proof (trim_Trimmed line) as Ht.
  assert (Hnl' : LF ∉ trim line) by (eapply Within_no_unit; [apply Within_trim | done]).
  set (t := trim line) in *.
  destruct t as [|c q] eqn:Et.
  { rewrite Htitle. cbn [truthy]. repeat split; try done; try (simpl; lia).
    all: try apply not_elem_of_nil. }
  cbn [truthy] in Htitle.
  destruct (50 <? length (c :: q))%nat eqn:Elen.
  - apply Nat.ltb_lt in Elen.
    assert (Hlen : length (take 50 (c :: q)) = 50%nat) by (rewrite length_take; lia).
    assert (Htrimmed : Trimmed (take 50 (c :: q) ++ lit "...")).
    { split.
      - intros x r [= <- _]. by apply (proj1 Ht c q).
      - intros x r Hx.
        assert (E : last (take 50 (c :: q) ++ lit "...") = Some x)
          by (rewrite Hx; apply last_snoc).
        change (lit "...") with ([46; 46] ++ [46])%N in E.
        rewrite app_assoc, last_snoc in E. by injection E as <-. }
    assert (Hnone : LF ∉ take 50 (c :: q) ++ lit "...").
    { rewrite elem_of_app. intros [H | H].
      - by apply (Within_no_unit LF _ _ (Within_take 50 (c :: q)) Hnl').
      - by apply dots_no_line_feed. }
    rewrite Htitle. split; [| split; [done | split]].
    + rewrite (extractTitle_of_trimmed _ Htrimmed Hnone).
      assert (E53 : length (take 50 (c :: q) ++ lit "...") = 53%nat)
        by (rewrite length_app, Hlen; reflexivity).
      assert (Etruthy : truthy (take 50 (c :: q) ++ lit "...") = true)
        by (destruct (take 50 (c :: q) ++ lit "..."); [done | reflexivity]).
      rewrite Etruthy, E53. cbn [Nat.ltb Nat.leb].
      rewrite take_app_length' by done. done.
    + rewrite length_app, Hlen. change (length (lit "...")) with 3%nat. lia.
    + intros x r [= <- _]. by apply (proj1 Ht c q).
  - apply Nat.ltb_ge in Elen. rewrite Htitle.
    split; [| split; [done | split]].
    + rewrite (extractTitle_of_trimmed _ Ht Hnl'). cbn [truthy].
      by replace (50 <? length (c :: q))%nat with false by (symmetry; apply Nat.ltb_ge; lia).
    + lia.
    + intros x r [= <- _]. by apply (proj1 Ht c q).
Qed.

(** ** The size of a note *)

Lemma calculateSize_bounds_upto (n : nat) (s : jsstring) :
  (length s <= n)%nat ->
  Z.of_nat (length s) <= calculateSize s <= 3 * Z.of_nat (length s).
Proof.
  revert s. induction n as [|n IH]; intros s Hlen.
  - destruct s; [simpl; lia | simpl in Hlen; lia].
  - destruct s as [|c r]; [simpl; lia |].
    assert (Hr : Z.of_nat (length r) <= calculateSize r <= 3 * Z.of_nat (length r))
      by (apply IH; simpl in Hlen; lia).
    cbn [calculateSize]. rewrite length_cons, Nat2Z.inj_succ.
    destruct (c <? 128)%N; [lia |]. destruct (c <? 2048)%N; [lia |].
    destruct (isHighSurrogate c); [| lia].
    destruct r as [|d r']; [simpl; lia |].
    destruct (isLowSurrogate d); [| lia].
    assert (Z.of_nat (length r') <= calculateSize r' <= 3 * Z.of_nat (length r'))
      by (apply IH; simpl in Hlen; lia).
    rewrite length_cons, Nat2Z.inj_succ. lia.
Qed.

Lemma calculateSize_ascii (s : jsstring) :
  Forall (fun c => (c < 128)%N) s -> calculateSize s = Z.of_nat (length s).
Proof.
  induction 1 as [|c r Hc _ IH]; [done |].
  cbn [calculateSize]. apply N.ltb_lt in Hc. rewrite Hc, IH, length_cons. lia.
Qed.

(** X3. The stored size of a content lies between its length and three
    times its length, and equals its length when every code unit is
    ASCII; so the large-note warning can only show for a content of more
    than 3495253 code units, and always shows for one of more than
    10485760.  In the footer the warning shows only for a selected note
    of the list with such a content, and the word count is 0 or that of
    the selected note. *)
Theorem calculateSize_between_length_and_triple (s : jsstring) :
  Z.of_nat (length s) <= calculateSize s <= 3 * Z.of_nat (length s)
  /\ (Forall (fun c => (c < 128)%N) s -> calculateSize s = Z.of_nat (length s))
  /\ (isLargeFile (calculateSize s) = true -> 3495253 < Z.of_nat (length s))
  /\ (10485760 < Z.of_nat (length s) -> isLargeFile (calculateSize s) = true)
  /\ (forall st, isActiveNoteLarge st = true ->
        exists a note, activeNoteId st = Some a /\ findNote a (notes st) = Some note
                       /\ 3495253 < Z.of_nat (length (content note)))
  /\ (forall st, wordCount st = 0 \/
        exists a note, activeNoteId st = Some a /\ findNote a (notes st) = Some note
                       /\ wordCount st = countWords (content note)).
Proof.
  pose proof (calculateSize_bounds_upto (length s) s (Nat.le_refl _)) as H.
  split; [done |]. split; [apply calculateSize_ascii |].
  unfold isLargeFile. split; [| split; [| split]].
  - intros Hl. apply Z.ltb_lt in Hl. lia.
  - intros Hl. apply Z.ltb_lt. lia.
  - intros st. unfold isActiveNoteLarge, activeNoteOf.
    destruct (activeNoteId st) as [a|]; [| done].
    destruct (truthy a); [| done].
    destruct (findNote a (notes st)) as [note|] eqn:Hf; [| done].
    intros Hl. exists a, note. split; [done |]. split; [done |].
    apply Z.ltb_lt in Hl.
    pose proof (calculateSize_bounds_upto (length (content note)) (content note)
                  (Nat.le_refl _)). lia.
  - intros st. unfold wordCount, activeNoteOf.
    destruct (activeNoteId st) as [a|]; [| by left].
    destruct (truthy a); [| by left].
    destruct (findNote a (notes st)) as [note|] eqn:Hf; [| by left].
    right. by exists a, note.
Qed.

Example calculateSize_samples :
  calculateSize (lit "abc") = 3
  /\ calculateSize [233%N] = 2
  /\ calculateSize [8364%N] = 3
  /\ calculateSize [55357%N; 56832%N] = 4
  /\ calculateSize [55357%N] = 3.
Proof. repeat split. Qed.

(** ** The content hash *)

Lemma toInt32_shift x k : toInt32 (x + 4294967296 * k) = toInt32 x.
Proof.
  unfold toInt32. f_equal.
  replace (x + 4294967296 * k + 2147483648) with (x + 2147483648 + k * 4294967296) by lia.
  apply Z_mod_plus_full.
Qed.

Lemma toInt32_unwrap x : exists k, toInt32 x = x + 4294967296 * k.
Proof.
  exists (- ((x + 2147483648) / 4294967296)). unfold toInt32.
  pose proof (Z.div_mod (x + 2147483648) 4294967296). lia.
Qed.

Lemma toInt32_range x : -2147483648 <= toInt32 x < 2147483648.
Proof.
  unfold toInt32. pose proof (Z.mod_pos_bound (x + 2147483648) 4294967296). lia.
Qed.

Lemma toInt32_small x : -2147483648 <= x < 2147483648 -> toInt32 x = x.
Proof. intros H. unfold toInt32. rewrite Z.mod_small; lia. Qed.

Lemma hashNumber_snoc s c :
  hashNumber (s ++ [c])
  = toInt32 (toInt32 (hashNumber s * 32) - hashNumber s + Z.of_N c).
Proof. unfold hashNumber. by rewrite fold_left_app. Qed.

Lemma hashPolynomial_snoc s c : hashPolynomial (s ++ [c]) = 31 * hashPolynomial s + Z.of_N c.
Proof. unfold hashPolynomial. by rewrite fold_left_app. Qed.

Lemma hashNumber_polynomial s : hashNumber s = toInt32 (hashPolynomial s).
Proof.
  induction s as [|c s IH] using rev_ind; [done |].
  rewrite hashNumber_snoc, hashPolynomial_snoc, IH.
  destruct (toInt32_unwrap (hashPolynomial s)) as [k ->].
  destruct (toInt32_unwrap ((hashPolynomial s + 4294967296 * k) * 32)) as [j ->].
  replace ((hashPolynomial s + 4294967296 * k) * 32 + 4294967296 * j
           - (hashPolynomial s + 4294967296 * k) + Z.of_N c)
    with (31 * hashPolynomial s + Z.of_N c + 4294967296 * (31 * k + j)) by lia.
  apply toInt32_shift.
Qed.

(** X4. The hash of a content is the hexadecimal form of a signed 32-bit
    number, and that number is the polynomial of the code units in base 31
    wrapped to 32 bits; for a content short enough for the polynomial to
    fit in 32 bits it is the polynomial itself. *)
Theorem hashContent_is_wrapped_polynomial (s : jsstring) :
  hashContent s = toHex (hashNumber s)
  /\ hashNumber s = toInt32 (hashPolynomial s)
  /\ -2147483648 <= hashNumber s < 2147483648
  /\ (hashPolynomial s < 2147483648 -> hashNumber s = hashPolynomial s).
Proof.
  split; [reflexivity |]. split; [apply hashNumber_polynomial |]. split.
  - rewrite hashNumber_polynomial. apply toInt32_range.
  - intros H. rewrite hashNumber_polynomial. apply toInt32_small.
    assert (0 <= hashPolynomial s); [| lia].
    clear H. induction s as [|c s IH] using rev_ind; [done |].
    rewrite hashPolynomial_snoc. lia.
Qed.

Example hashNumber_samples :
  hashNumber (lit "abc") = 96354
  /\ hashNumber [] = 0
  /\ hashContent [] = lit "0"
  /\ hashNumber (lit "The quick brown fox jumps over the lazy dog") = -609428141.
Proof. repeat split. Qed.

(** ** The store: what is written is what is read *)

Lemma orNum_Some_0 v : orNum (Some v) 0 = v.
Proof. unfold orNum. destruct (v =? 0) eqn:E; [apply Z.eqb_eq in E; by subst | done]. Qed.

(** X5: a note saved with [saveNote] is read back by [getNote] under its
    id, with its content fields as given, its version one above the one
    it was saved with, its tags and subject defaulted and the size of the
    record the UTF-8 length of the content; a save leaves the notes of
    other ids as they were; a failed save stores nothing; a deleted note
    is no longer found. *)
Theorem saved_note_reads_back (n : Note) (d : Store) :
  exists d',
    saveNote true n d = Some d'
    /\ getNote (id n) d'
       = Some (mkNote (id n) (title n) (content n) (updatedAt n)
                      (Some (orNum (Some (orNum (version n) 0 + 1)) 1))
                      (Some (default [] (tags n)))
                      (Some (default general (subjectType n)))
                      (aiMetadata n) (aiInsights n))
    /\ (forall v, version n = Some v -> 0 <= v ->
          version <$> getNote (id n) d' = Some (Some (v + 1)))
    /\ (version n = None -> version <$> getNote (id n) d' = Some (Some 1))
    /\ (rec_size <$> d' !! id n) = Some (calculateSize (content n))
    /\ (forall k, k <> id n -> getNote k d' = getNote k d)
    /\ saveNote false n d = None
    /\ (forall d'', deleteNote true (id n) d' = Some d'' ->
          getNote (id n) d'' = None
          /\ forall k, k <> id n -> getNote k d'' = getNote k d).
Proof.
  exists (<[id n := saveNoteRecord n]> d). unfold saveNote, getNote, deleteNote.
  split; [done |].
  assert (E : (<[id n := saveNoteRecord n]> d) !! id n = Some (saveNoteRecord n))
    by apply lookup_insert_eq.
  split; [by rewrite E |].
  split.
  { intros v Hv Hpos. rewrite E. simpl. rewrite Hv, orNum_Some_0.
    unfold orNum. destruct (v + 1 =? 0) eqn:E0; [lia | done]. }
  split; [intros Hv; rewrite E; simpl; by rewrite Hv |].
  split; [by rewrite E |].
  split; [intros k Hk; by rewrite lookup_insert_ne |].
  split; [done |].
  intros d'' [= <-]. split; [by rewrite lookup_delete_eq |].
  intros k Hk. by rewrite lookup_delete_ne, lookup_insert_ne.
Qed.

(** ** Deleting a note *)

Lemma findNote_None i l : findNote i l = None <-> i ∉ id <$> l.
Proof.
  unfold findNote. rewrite fmap_None, list_find_None, Forall_forall.
  rewrite list_elem_of_fmap. split.
  - intros H (n & -> & Hn). by apply (H n).
  - intros H n Hn E. apply H. by exists n.
Qed.

Lemma ids_filter_out i (l : list Note) :
  id <$> List.filter (fun n => negb (bool_decide (id n = i))) l
  = List.filter (fun k => negb (bool_decide (k = i))) (id <$> l).
Proof.
  induction l as [|n l IH]; [done |]. csimpl.
  destruct (bool_decide (id n = i)); csimpl; by rewrite ?IH.
Qed.

Lemma filter_out_absent i (l : list Note) :
  i ∉ id <$> l -> List.filter (fun n => negb (bool_decide (id n = i))) l = l.
Proof.
  induction l as [|n l IH]; [done |]. simpl. intros H.
  rewrite not_elem_of_cons in H. destruct H as [H1 H2].
  rewrite bool_decide_eq_false_2 by done. simpl. by rewrite IH.
Qed.

Lemma filter_out_In i (l : list Note) n :
  n ∈ List.filter (fun n => negb (bool_decide (id n = i))) l <-> n ∈ l /\ id n <> i.
Proof.
  rewrite !list_elem_of_In, List.filter_In, negb_true_iff, bool_decide_eq_false. done.
Qed.

(** X6: after a successful [handleDeleteNote] the note is in neither the
    list nor the store, every other note is still in the list, in the
    order it had, and the selection and the conflict are cleared exactly
    when the deleted note was the selected one; deleting an id that is
    nowhere changes neither list nor store; a failed delete keeps both
    and shows an alert. *)
Theorem delete_removes_only_that_note (i : jsstring) (st : App) :
  let st' := handleDeleteNote i true st in
  findNote i (notes st') = None
  /\ getNote i (db st') = None
  /\ (forall n, n ∈ notes st' <-> n ∈ notes st /\ id n <> i)
  /\ notes st' `sublist_of` notes st
  /\ (forall k, k <> i -> getNote k (db st') = getNote k (db st))
  /\ (activeNoteId st = Some i -> activeNoteId st' = None /\ conflict st' = None)
  /\ (activeNoteId st <> Some i ->
        activeNoteId st' = activeNoteId st /\ conflict st' = conflict st)
  /\ (findNote i (notes st) = None -> db st !! i = None ->
        notes st' = notes st /\ db st' = db st)
  /\ outbox st' = outbox st /\ alerts st' = alerts st
  /\ (let failed := handleDeleteNote i false st in
      notes failed = notes st /\ db failed = db st
      /\ activeNoteId failed = activeNoteId st
      /\ alerts failed = alerts st ++ [lit "Failed to delete note. Please try again."]).
Proof.
  intros st'. subst st'. unfold handleDeleteNote, deleteNote.
  set (kept := List.filter (fun n => negb (bool_decide (id n = i))) (notes st)).
  assert (Hn : notes (if bool_decide (activeNoteId st = Some i)
                      then setConflict None (setActiveNoteId None (setNotes kept (setDb (delete i (db st)) st)))
                      else setNotes kept (setDb (delete i (db st)) st)) = kept)
    by (by destruct (bool_decide _)).
  assert (Hd : db (if bool_decide (activeNoteId st = Some i)
                   then setConflict None (setActiveNoteId None (setNotes kept (setDb (delete i (db st)) st)))
                   else setNotes kept (setDb (delete i (db st)) st)) = delete i (db st))
    by (by destruct (bool_decide _)).
  rewrite Hn, Hd. clear Hn Hd.
  split.
  { apply findNote_None. unfold kept. rewrite ids_filter_out.
    rewrite list_elem_of_In, List.filter_In, negb_true_iff, bool_decide_eq_false.
    by intros [_ H]. }
  split; [unfold getNote; by rewrite lookup_delete_eq |].
  split; [intros n; apply filter_out_In |].
  split.
  { unfold kept. clear. induction (notes st) as [|n l IH]; [done |]. simpl.
    destruct (negb _); [by apply sublist_skip | by apply sublist_cons]. }
  split; [intros k Hk; unfold getNote; by rewrite lookup_delete_ne |].
  split; [intros H; by rewrite bool_decide_eq_true_2 |].
  split; [intros H; by rewrite bool_decide_eq_false_2 |].
  split.
  { intros Hf Hs. apply findNote_None in Hf. unfold kept.
    by rewrite filter_out_absent, delete_id. }
  split; [by destruct (bool_decide _) |].
  split; [by destruct (bool_decide _) |].
  done.
Qed.

(** ** The registry stays well keyed *)

Lemma list_find_id i (l : list Note) k n :
  list_find (fun x => id x = i) l = Some (k, n) -> l !! k = Some n /\ id n = i.
Proof. intros H. apply list_find_Some in H. tauto. Qed.

Lemma ids_insert_same (l : list Note) k n u :
  l !! k = Some n -> id u = id n -> id <$> <[k := u]> l = id <$> l.
Proof.
  intros Hk Hu. rewrite list_fmap_insert. apply list_insert_id.
  by rewrite list_lookup_fmap, Hk, Hu.
Qed.

Lemma ids_move_front (l : list Note) k n u :
  l !! k = Some n -> id u = id n -> id <$> (u :: delete k l) ≡ₚ id <$> l.
Proof.
  intros Hk Hu. rewrite (delete_Permutation l k n Hk) at 2.
  rewrite !fmap_cons. by rewrite Hu.
Qed.

Lemma ids_replace_same a latest (l : list Note) :
  id latest = a ->
  id <$> ((fun n => if bool_decide (id n = a) then latest else n) <$> l) = id <$> l.
Proof.
  intros Ha. rewrite <- list_fmap_compose. apply list_fmap_ext.
  intros k n _. simpl. destruct (bool_decide (id n = a)) eqn:E; [| done].
  apply bool_decide_eq_true in E. congruence.
Qed.

Lemma setNotes_WellKeyed l st :
  NoDup (id <$> l) -> WellKeyed st -> WellKeyed (setNotes l st).
Proof. intros Hl [_ Hd]. by split. Qed.

Lemma saveAndBroadcast_WellKeyed ok n now st :
  WellKeyed st -> WellKeyed (saveAndBroadcast ok n now st).
Proof.
  intros [Hl Hd]. unfold saveAndBroadcast, saveNote. destruct ok; [| by split].
  split; [done |]. simpl. intros k r Hr.
  apply lookup_insert_Some in Hr. destruct Hr as [[<- <-] | [_ Hr]]; [done | by apply Hd].
Qed.

Lemma handleUpdateNoteFull_WellKeyed u now ok st :
  WellKeyed st -> WellKeyed (handleUpdateNoteFull u now ok st).
Proof.
  intros H. unfold handleUpdateNoteFull, findIndex.
  destruct (list_find _ (notes st)) as [[k n]|] eqn:E; [| done]. simpl.
  apply list_find_id in E. destruct E as [Hk Hn].
  apply saveAndBroadcast_WellKeyed, setNotes_WellKeyed; [| done].
  rewrite (ids_insert_same _ k n) by done. apply H.
Qed.

Lemma step_WellKeyed a st : WellKeyed st -> Allowed a st -> WellKeyed (step a st).
Proof.
  intros H Ha. pose proof H as [Hl Hd]. destruct a; simpl in *.
  - unfold handleCreateNote, saveNote. destruct ok; [| by split].
    split.
    + csimpl. by apply NoDup_cons.
    + simpl. intros k r Hr. apply lookup_insert_Some in Hr.
      destruct Hr as [[<- <-] | [_ Hr]]; [done | by apply Hd].
  - by split.
  - unfold handleDeleteNote, deleteNote. destruct ok; [| by split].
    assert (Hk : WellKeyed (setNotes (List.filter (fun n => negb (bool_decide (id n = i)))
                                       (notes st)) (setDb (delete i (db st)) st))).
    { split.
      - simpl. rewrite ids_filter_out. apply NoDup_ListNoDup, List.NoDup_filter.
        by apply NoDup_ListNoDup.
      - simpl. intros k r Hr. apply lookup_delete_Some in Hr. apply Hd, Hr. }
    destruct (bool_decide _); [| done]. destruct Hk. by split.
  - unfold handleUpdateNote.
    destruct (list_find _ (notes st)) as [[k n]|] eqn:E; [| done].
    apply list_find_id in E. destruct E as [Hk Hn].
    apply setNotes_WellKeyed; [| done].
    by rewrite (ids_move_front (notes st) k n).
  - by apply handleUpdateNoteFull_WellKeyed.
  - unfold handleSubjectChange.
    assert (H1 : WellKeyed (setSubjectType subject st)) by (by split).
    destruct (activeNoteId st) as [a|]; [| done].
    destruct (if truthy a then findNote a (notes st) else None) as [n|]; [| done].
    destruct (bool_decide _); [done |].
    by apply handleUpdateNoteFull_WellKeyed.
  - unfold handleRenameNote.
    destruct (list_find _ (notes st)) as [[k n]|] eqn:E; [| done].
    apply list_find_id in E. destruct E as [Hk Hn].
    apply saveAndBroadcast_WellKeyed, setNotes_WellKeyed; [| done].
    by rewrite (ids_insert_same _ k n).
  - unfold fireSaveTimer. destruct (saveTimer st) as [n|]; [| done].
    apply saveAndBroadcast_WellKeyed. by split.
  - unfold onSyncMessage. destruct (conflictRaisedBy message st); [by split | done].
  - unfold handleConflictReload.
    destruct (activeNoteId st) as [a|]; [| done].
    destruct (conflict st); [| done].
    destruct (negb (truthy a)); [done |].
    destruct ok; [| by split].
    unfold getNote. destruct (db st !! a) as [r|] eqn:E; [| by split]. simpl.
    split; [| done]. simpl. rewrite ids_replace_same; [done |].
    simpl. by apply Hd.
  - by split.
Qed.

(** X7: whatever the handlers that create, select, delete, edit, update,
    rename and reload a note or change its subject, the debounce timer
    and the broadcasts of other tabs do, in any order and whether the
    storage operations succeed or fail, no two notes of the list share an
    id and every stored record is filed under the id of its note,
    provided each id [generateId] returns is new. *)
Theorem registry_stays_well_keyed (l : list Action) (st : App) :
  WellKeyed st -> AllowedRun l st -> WellKeyed (run l st).
Proof.
  revert st. induction l as [|a l IH]; intros st H Hr; [done |].
  destruct Hr as [Ha Hr]. simpl. apply IH; [by apply step_WellKeyed | done].
Qed.

Lemma registry_stays_well_keyed_witness :
  WellKeyed emptyApp /\ AllowedRun sampleRun emptyApp
  /\ WellKeyed (run sampleRun emptyApp).
Proof.
  assert (H1 : WellKeyed emptyApp).
  { split; [apply NoDup_nil_2 | intros k r Hr; simpl in Hr; by apply lookup_empty_Some in Hr]. }
  assert (H2 : AllowedRun sampleRun emptyApp).
  { repeat split; vm_compute; intros H; repeat (inversion H as [|? ? ? H']; subst; clear H; rename H' into H); inversion H. }
  exact (conj H1 (conj H2 (registry_stays_well_keyed sampleRun emptyApp H1 H2))).
Defined.

(** ** Typing, the debounce timer and the other tab *)

Lemma findNote_cons i n l :
  findNote i (n :: l) = if decide (id n = i) then Some n else findNote i l.
Proof.
  unfold findNote. simpl. destruct (decide (id n = i)); [done |].
  by destruct (list_find _ l) as [[k x]|].
Qed.

Lemma handleUpdateNote_found st i c now old :
  findNote i (notes st) = Some old ->
  exists k, notes st !! k = Some old
            /\ handleUpdateNote i c now st
               = setNotes (edited old c now :: delete k (notes st)) st.
Proof.
  intros H. apply findNote_list_find in H. destruct H as [k H].
  exists k. unfold handleUpdateNote. rewrite H. split; [| done].
  apply list_find_id in H. tauto.
Qed.

Lemma typeAll_last i edits c now st old :
  findNote i (notes st) = Some old ->
  isLoading st = false ->
  let last := mkNote i (extractTitle c) c now
                     (Some (orNum (version old) 0 + 1 + Z.of_nat (length edits)))
                     (tags old) (subjectType old) (aiMetadata old) (aiInsights old) in
  let typed := typeAll i (edits ++ [(c, now)]) st in
  notes typed !! 0%nat = Some last
  /\ saveTimer typed = Some last
  /\ length (notes typed) = length (notes st)
  /\ db typed = db st /\ outbox typed = outbox st /\ alerts typed = alerts st
  /\ activeNoteId typed = activeNoteId st /\ conflict typed = conflict st.
Proof.
  revert st old. induction edits as [|[c1 t1] edits IH]; intros st old Hf Hl.
  - simpl. destruct (handleUpdateNote_found st i c now old Hf) as (k & Hk & ->).
    pose proof (findNote_id _ _ _ Hf) as Hi.
    unfold setNotes. simpl. rewrite Hl. unfold edited. rewrite Hi, Z.add_0_r.
    repeat split; try done.
    rewrite length_delete by (by exists old).
    apply lookup_lt_Some in Hk. lia.
  - simpl. destruct (handleUpdateNote_found st i c1 t1 old Hf) as (k & Hk & E).
    pose proof (findNote_id _ _ _ Hf) as Hi.
    set (st1 := handleUpdateNote i c1 t1 st) in *.
    assert (Hf1 : findNote i (notes st1) = Some (edited old c1 t1)).
    { rewrite E. simpl. by apply findNote_front. }
    assert (Hl1 : isLoading st1 = false) by (by rewrite E).
    specialize (IH st1 (edited old c1 t1) Hf1 Hl1).
    cbn [edited version tags subjectType aiMetadata aiInsights] in IH.
    rewrite orNum_Some_0 in IH.
    replace (orNum (version old) 0 + 1 + Z.of_nat (S (length edits)))
      with (orNum (version old) 0 + 1 + 1 + Z.of_nat (length edits)) by lia.
    destruct IH as (I1 & I2 & I3 & I4 & I5 & I6 & I7 & I8).
    unfold typeAll in *. rewrite I1, I2, I3, I4, I5, I6, I7, I8.
    rewrite E. simpl. repeat split; try done.
    rewrite length_delete by (by exists old).
    apply lookup_lt_Some in Hk. lia.
Qed.

(** X8: of the content edits made to a note before the debounce timer
    fires, none is stored or broadcast while they are made; when the timer
    fires, exactly the last one is stored, under a version one above the
    one the list holds, and one message is broadcast, with the version the
    list holds; the timer fires once. *)
Theorem debounce_saves_last_edit
    (i : jsstring) (old : Note) (edits : list (jsstring * Z)) (c : jsstring)
    (now t : Z) (st : App) :
  findNote i (notes st) = Some old ->
  isLoading st = false ->
  let last := mkNote i (extractTitle c) c now
                     (Some (orNum (version old) 0 + 1 + Z.of_nat (length edits)))
                     (tags old) (subjectType old) (aiMetadata old) (aiInsights old) in
  let typed := typeAll i (edits ++ [(c, now)]) st in
  let saved := fireSaveTimer true t typed in
  db typed = db st /\ outbox typed = outbox st
  /\ notes typed !! 0%nat = Some last
  /\ length (notes typed) = length (notes st)
  /\ db saved = <[i := saveNoteRecord last]> (db st)
  /\ (version ∘ rec_note <$> db saved !! i)
     = Some (Some (orNum (version old) 0 + 2 + Z.of_nat (length edits)))
  /\ outbox saved = outbox st ++ [mkSyncMessage i (version last) t]
  /\ notes saved = notes typed
  /\ fireSaveTimer true t saved = saved.
Proof.
  intros Hf Hl last typed saved.
  destruct (typeAll_last i edits c now st old Hf Hl)
    as (I1 & I2 & I3 & I4 & I5 & I6 & I7 & I8).
  fold last typed in I1, I2, I3, I4, I5, I6, I7, I8.
  assert (Es : saved = postMessage i (version last) t
                         (setDb (<[i := saveNoteRecord last]> (db st))
                                (setSaveTimer None typed))).
  { unfold saved, fireSaveTimer. rewrite I2. unfold saveAndBroadcast, saveNote.
    simpl. by rewrite I4. }
  split; [done |]. split; [done |]. split; [done |]. split; [done |].
  rewrite Es. simpl. rewrite I5.
  split; [done |]. split.
  { rewrite lookup_insert_eq. unfold last, saveNoteRecord, compose.
    cbn [fmap option_fmap option_map rec_note version].
    rewrite orNum_Some_0. do 2 f_equal. lia. }
  done.
Qed.

Lemma debounce_saves_last_edit_witness :
  findNote (id sampleNote) (notes existingApp) = Some sampleNote
  /\ isLoading existingApp = false
  /\ (version ∘ rec_note
        <$> db (fireSaveTimer true 900
                  (typeAll (id sampleNote) ([(lit "a", 100); (lit "ab", 200)] ++ [(lit "abc", 300)])
                           existingApp)) !! id sampleNote)
     = Some (Some 7).
Proof.
  assert (H1 : findNote (id sampleNote) (notes existingApp) = Some sampleNote) by reflexivity.
  assert (H2 : isLoading existingApp = false) by reflexivity.
  split; [exact H1 |]. split; [exact H2 |].
  exact (proj1 (proj2 (proj2 (proj2 (proj2 (proj2
    (debounce_saves_last_edit (id sampleNote) sampleNote [(lit "a", 100); (lit "ab", 200)]
       (lit "abc") 300 900 existingApp H1 H2))))))).
Defined.

(** ** Reloading a note another tab has changed *)

Lemma findNote_reloaded_active a latestNote l :
  id latestNote = a ->
  is_Some (findNote a l) ->
  findNote a (reloaded a latestNote l) = Some latestNote.
Proof.
  intros Ha. induction l as [|n l IH]; intros [x Hx]; [done |].
  unfold reloaded in *. rewrite fmap_cons, findNote_cons.
  rewrite findNote_cons in Hx.
  destruct (bool_decide (id n = a)) eqn:E.
  - by rewrite decide_True.
  - apply bool_decide_eq_false in E. rewrite decide_False by done.
    rewrite decide_False in Hx by done. apply IH. by exists x.
Qed.

Lemma findNote_reloaded_other a latestNote l k :
  id latestNote = a -> k <> a ->
  findNote k (reloaded a latestNote l) = findNote k l.
Proof.
  intros Ha Hk. induction l as [|n l IH]; [done |].
  unfold reloaded in *. rewrite fmap_cons, !findNote_cons.
  destruct (bool_decide (id n = a)) eqn:E.
  - apply bool_decide_eq_true in E.
    rewrite !decide_False by congruence. apply IH.
  - destruct (decide (id n = k)); [done | apply IH].
Qed.

Lemma handleConflictReload_found a r c st :
  activeNoteId st = Some a -> a <> [] -> conflict st = Some c ->
  db st !! a = Some r ->
  handleConflictReload true st
  = setConflict None (setNotes (reloaded a (normalizeNote r) (notes st)) st).
Proof.
  intros Ha Hne Hc Hr.
  assert (Ht : truthy a = true) by (by destruct a).
  unfold handleConflictReload, getNote. by rewrite Ha, Hc, Ht, Hr.
Qed.

Lemma fireSaveTimer_armed n t st :
  saveTimer st = Some n ->
  fireSaveTimer true t st
  = postMessage (id n) (version n) t
      (setDb (<[id n := saveNoteRecord n]> (db st)) (setSaveTimer None st)).
Proof. intros H. unfold fireSaveTimer. by rewrite H. Qed.

(** X9: [handleConflictReload] on a flagged note puts the stored note,
    read with the defaults of [getNote], in the place of the active note,
    leaves every other note, the length of the list and the store as they
    were and clears the flag; when the note is not in the store the list
    is kept and the flag cleared; when reading fails an alert is shown and
    the flag cleared; without a flag nothing happens. *)
Theorem reload_takes_stored_note (a : jsstring) (r : NoteRecord) (c : ConflictState) (st : App) :
  activeNoteId st = Some a ->
  a <> [] ->
  conflict st = Some c ->
  is_Some (findNote a (notes st)) ->
  db st !! a = Some r ->
  id (rec_note r) = a ->
  let st' := handleConflictReload true st in
  findNote a (notes st') = Some (normalizeNote r)
  /\ (forall k, k <> a -> findNote k (notes st') = findNote k (notes st))
  /\ length (notes st') = length (notes st)
  /\ conflict st' = None
  /\ db st' = db st /\ outbox st' = outbox st /\ alerts st' = alerts st
  /\ handleConflictReload true (setDb (delete a (db st)) st)
     = setConflict None (setDb (delete a (db st)) st)
  /\ handleConflictReload false st
     = setConflict None (alert (lit "Failed to reload changes. Please try again.") st)
  /\ handleConflictReload true (setConflict None st) = setConflict None st.
Proof.
  intros Ha Hne Hc Hf Hr Hid st'.
  assert (Ht : truthy a = true) by (by destruct a).
  unfold st'. rewrite (handleConflictReload_found a r c st) by done. simpl.
  split; [by apply findNote_reloaded_active |].
  split; [intros k Hk; by apply findNote_reloaded_other |].
  split; [unfold reloaded; by rewrite length_fmap |].
  do 4 (split; [done |]).
  split.
  { unfold handleConflictReload, getNote. simpl.
    by rewrite Ha, Hc, Ht, lookup_delete_eq. }
  split; [unfold handleConflictReload; by rewrite Ha, Hc, Ht |].
  unfold handleConflictReload. simpl. by rewrite Ha.
Qed.

Lemma reload_takes_stored_note_witness :
  activeNoteId flaggedApp = Some (id sampleNote)
  /\ id sampleNote <> []
  /\ conflict flaggedApp = Some (mkConflictState true 4)
  /\ is_Some (findNote (id sampleNote) (notes flaggedApp))
  /\ db flaggedApp !! id sampleNote = Some (saveNoteRecord sampleNote)
  /\ id (rec_note (saveNoteRecord sampleNote)) = id sampleNote
  /\ (version <$> findNote (id sampleNote) (notes (handleConflictReload true flaggedApp)))
     = Some (Some 4).
Proof.
  assert (H1 : activeNoteId flaggedApp = Some (id sampleNote)) by reflexivity.
  assert (H2 : id sampleNote <> []) by discriminate.
  assert (H3 : conflict flaggedApp = Some (mkConflictState true 4)) by reflexivity.
  assert (H4 : is_Some (findNote (id sampleNote) (notes flaggedApp)))
    by (exists sampleNote; reflexivity).
  assert (H5 : db flaggedApp !! id sampleNote = Some (saveNoteRecord sampleNote))
    by apply lookup_singleton_eq.
  assert (H6 : id (rec_note (saveNoteRecord sampleNote)) = id sampleNote) by reflexivity.
  do 6 (split; [assumption |]).
  rewrite (proj1 (reload_takes_stored_note (id sampleNote) (saveNoteRecord sampleNote)
                    (mkConflictState true 4) flaggedApp H1 H2 H3 H4 H5 H6)).
  reflexivity.
Defined.

(** ** An edit in one tab, seen from another *)

(** X10: when two tabs hold a note at the same version [V] and one of
    them edits it, the message it broadcasts once its timer has fired
    carries [V + 1] and flags a conflict in the other tab if the note is
    selected there (and does nothing there if another note is selected);
    a reload in the other tab, which reads the same store, then shows the
    edited content, with the stored version, and clears the flag. *)
Theorem edit_reaches_other_tab
    (i c : jsstring) (old local : Note) (V now t : Z) (tabA tabB : App) :
  findNote i (notes tabA) = Some old ->
  version old = Some V ->
  isLoading tabA = false ->
  i <> [] ->
  findNote i (notes tabB) = Some local ->
  version local = Some V ->
  let tabA' := fireSaveTimer true t (handleUpdateNote i c now tabA) in
  let m := mkSyncMessage i (Some (V + 1)) t in
  outbox tabA' = outbox tabA ++ [m]
  /\ (activeNoteId tabB <> Some i -> onSyncMessage m tabB = tabB)
  /\ (activeNoteId tabB = Some i ->
      let flagged := onSyncMessage m tabB in
      let shown := handleConflictReload true (setDb (db tabA') flagged) in
      conflict flagged = Some (mkConflictState true (V + 1))
      /\ notes flagged = notes tabB
      /\ conflict shown = None
      /\ exists n, findNote i (notes shown) = Some n
                   /\ content n = c /\ title n = extractTitle c
                   /\ updatedAt n = now
                   /\ version n = Some (orNum (Some (V + 2)) 1)).
Proof.
  intros HfA HvA HlA Hne HfB HvB tabA' m.
  destruct (typeAll_last i [] c now tabA old HfA HlA)
    as (_ & Ht & _ & Hd & Ho & _).
  unfold typeAll in Ht, Hd, Ho. simpl in Ht, Hd, Ho.
  rewrite HvA, orNum_Some_0, Z.add_0_r in Ht.
  assert (Hdb : db tabA' = <[i := saveNoteRecord
                (mkNote i (extractTitle c) c now (Some (V + 1)) (tags old)
                        (subjectType old) (aiMetadata old) (aiInsights old))]> (db tabA)).
  { unfold tabA'. rewrite (fireSaveTimer_armed _ _ _ Ht). simpl. by rewrite Hd. }
  assert (Hout : outbox tabA' = outbox tabA ++ [m]).
  { unfold tabA'. rewrite (fireSaveTimer_armed _ _ _ Ht). simpl. by rewrite Ho. }
  split; [exact Hout |].
  split; [intros Hother; by apply other_note_no_conflict |].
  intros Hact flagged shown.
  assert (Ef : flagged = setConflict (Some (mkConflictState true (V + 1))) tabB).
  { unfold flagged, onSyncMessage, conflictRaisedBy. simpl.
    rewrite Hact, bool_decide_eq_true_2, HfB, HvB by done. simpl.
    destruct (V <? V + 1) eqn:E; [done | apply Z.ltb_ge in E; lia]. }
  split; [by rewrite Ef |]. split; [by rewrite Ef |].
  set (rec := saveNoteRecord
                (mkNote i (extractTitle c) c now (Some (V + 1)) (tags old)
                        (subjectType old) (aiMetadata old) (aiInsights old))) in *.
  assert (Hr : db (setDb (db tabA') flagged) !! i = Some rec).
  { simpl. rewrite Hdb. apply lookup_insert_eq. }
  assert (Es : shown = setConflict None
                         (setNotes (reloaded i (normalizeNote rec) (notes tabB))
                                   (setDb (db tabA') flagged))).
  { unfold shown.
    rewrite (handleConflictReload_found i rec (mkConflictState true (V + 1))); try done.
    - by rewrite Ef.
    - by rewrite Ef.
    - by rewrite Ef. }
  rewrite Es. split; [done |].
  exists (normalizeNote rec). split.
  { simpl. apply findNote_reloaded_active; [done | by exists local]. }
  unfold rec, normalizeNote, saveNoteRecord. cbn [rec_note content title updatedAt version].
  rewrite orNum_Some_0. repeat split; try done. do 3 f_equal. lia.
Qed.

Lemma edit_reaches_other_tab_witness :
  findNote (id sampleNote) (notes existingApp) = Some sampleNote
  /\ version sampleNote = Some 3
  /\ isLoading existingApp = false
  /\ id sampleNote <> []
  /\ findNote (id sampleNote) (notes twoTabsState) = Some sampleNote
  /\ outbox (fireSaveTimer true 900
               (handleUpdateNote (id sampleNote) (lit "New text") 600 existingApp))
     = outbox existingApp ++ [mkSyncMessage (id sampleNote) (Some (3 + 1)) 900].
Proof.
  assert (H1 : findNote (id sampleNote) (notes existingApp) = Some sampleNote) by reflexivity.
  assert (H2 : version sampleNote = Some 3) by reflexivity.
  assert (H3 : isLoading existingApp = false) by reflexivity.
  assert (H4 : id sampleNote <> []) by discriminate.
  assert (H5 : findNote (id sampleNote) (notes twoTabsState) = Some sampleNote) by reflexivity.
  do 5 (split; [assumption |]).
  exact (proj1 (edit_reaches_other_tab (id sampleNote) (lit "New text") sampleNote sampleNote
                  3 600 900 existingApp twoTabsState H1 H2 H3 H4 H5 H2)).
Defined.

(** ** Import in merge mode *)

Lemma freshIds_nil keys : size (freshIds [] keys) = 0%nat.
Proof.
  apply size_empty_iff, elem_of_equiv_empty. intros y. unfold freshIds.
  rewrite elem_of_difference. intros [H _]. by apply not_elem_of_empty in H.
Qed.

Lemma freshIds_known x items keys :
  jsonId x ∈ keys ->
  size (freshIds (x :: items) keys) = size (freshIds items ({[jsonId x]} ∪ keys)).
Proof.
  intros H. apply set_size_proper. intros y. unfold freshIds.
  rewrite fmap_cons, list_to_set_cons, !elem_of_difference, !elem_of_union,
    !elem_of_singleton.
  destruct (decide (y = jsonId x)) as [-> |]; tauto.
Qed.

Lemma freshIds_unknown x items keys :
  jsonId x ∉ keys ->
  size (freshIds (x :: items) keys) = S (size (freshIds items ({[jsonId x]} ∪ keys))).
Proof.
  intros H.
  transitivity (size ({[jsonId x]} ∪ freshIds items ({[jsonId x]} ∪ keys))).
  - apply set_size_proper. intros y. unfold freshIds.
    rewrite fmap_cons, list_to_set_cons, !elem_of_union, !elem_of_difference,
      !elem_of_union, !elem_of_singleton.
    destruct (decide (y = jsonId x)) as [-> |]; tauto.
  - rewrite size_union; [by rewrite size_singleton |].
    intros y. unfold freshIds.
    rewrite elem_of_singleton, elem_of_difference, elem_of_union, elem_of_singleton.
    tauto.
Qed.

Lemma mergeCounts_sizes (items : list JValue) (keys : gset jsstring) (n0 u0 : Z) :
  mergeCounts items keys n0 u0
  = (n0 + Z.of_nat (size (freshIds items keys)),
     u0 + (Z.of_nat (length items) - Z.of_nat (size (freshIds items keys)))).
Proof.
  revert keys n0 u0. induction items as [|x items IH]; intros keys n0 u0.
  - cbn [mergeCounts length]. rewrite freshIds_nil. apply (f_equal2 pair); lia.
  - cbn [mergeCounts length].
    destruct (decide (jsonId x ∈ keys)) as [E | E].
    + rewrite bool_decide_eq_true_2, IH, (freshIds_known x items keys) by done.
      apply (f_equal2 pair); lia.
    + rewrite bool_decide_eq_false_2, IH, (freshIds_unknown x items keys) by done.
      apply (f_equal2 pair); lia.
Qed.

Lemma freshIds_bound (items : list JValue) (keys : gset jsstring) :
  (size (freshIds items keys) <= length items)%nat.
Proof.
  revert keys. induction items as [|x items IH]; intros keys.
  - by rewrite freshIds_nil.
  - destruct (decide (jsonId x ∈ keys)) as [E | E].
    + rewrite freshIds_known by done. specialize (IH ({[jsonId x]} ∪ keys)).
      cbn [length]. lia.
    + rewrite freshIds_unknown by done. specialize (IH ({[jsonId x]} ∪ keys)).
      cbn [length]. lia.
Qed.

(** The [Map] of merge mode. *)

Lemma mapSet_fst k v m :
  fst <$> mapSet k v m
  = if bool_decide (k ∈ fst <$> m) then fst <$> m else (fst <$> m) ++ [k].
Proof.
  induction m as [|[k' v'] m IH]; [done |]. cbn [mapSet].
  destruct (bool_decide (k' = k)) eqn:E.
  - apply bool_decide_eq_true in E. subst k'. rewrite !fmap_cons. cbn [fst].
    by rewrite bool_decide_eq_true_2 by apply list_elem_of_here.
  - apply bool_decide_eq_false in E. rewrite !fmap_cons, IH. cbn [fst].
    destruct (decide (k ∈ fst <$> m)) as [Hk | Hk].
    + rewrite !bool_decide_eq_true_2; [done | by apply list_elem_of_further | done].
    + rewrite !bool_decide_eq_false_2; [done | | done].
      rewrite elem_of_cons. intros [-> | H]; [done | by apply Hk].
Qed.

Lemma mapSet_NoDup k v m : NoDup (fst <$> m) -> NoDup (fst <$> mapSet k v m).
Proof.
  intros H. rewrite mapSet_fst. destruct (decide (k ∈ fst <$> m)) as [Hk | Hk].
  - by rewrite bool_decide_eq_true_2.
  - rewrite bool_decide_eq_false_2 by done. apply NoDup_app.
    split; [done |]. split; [| apply NoDup_singleton].
    intros x Hx Hx'. apply list_elem_of_singleton in Hx'. by subst.
Qed.

Lemma mapSet_elem k v m k' v' :
  NoDup (fst <$> m) ->
  (k', v') ∈ mapSet k v m <-> (k' = k /\ v' = v) \/ (k' <> k /\ (k', v') ∈ m).
Proof.
  induction m as [|[k1 v1] m IH]; intros Hm.
  - cbn [mapSet]. rewrite list_elem_of_singleton. split.
    + intros [= -> ->]. by left.
    + intros [[-> ->] | [_ H]]; [done | by apply elem_of_nil in H].
  - rewrite fmap_cons in Hm. apply NoDup_cons in Hm. destruct Hm as [Hk1 Hm].
    cbn [mapSet fst] in *. destruct (bool_decide (k1 = k)) eqn:E.
    + apply bool_decide_eq_true in E. subst k1. rewrite !elem_of_cons. split.
      * intros [[= -> ->] | H]; [by left |]. right. split; [| by right].
        intros ->. apply Hk1. apply list_elem_of_fmap. by exists (k, v').
      * intros [[-> ->] | [Hne [[= -> ->] | H]]]; [by left | done | by right].
    + apply bool_decide_eq_false in E. rewrite !elem_of_cons, (IH Hm). split.
      * intros [[= -> ->] | [[-> ->] | [Hne H]]].
        -- right. split; [done | by left].
        -- by left.
        -- right. split; [done | by right].
      * intros [[-> ->] | [Hne [[= -> ->] | H]]].
        -- right. by left.
        -- by left.
        -- right. right. done.
Qed.

Lemma setAll_NoDup l m : NoDup (fst <$> m) -> NoDup (fst <$> setAll l m).
Proof.
  revert m. induction l as [|n l IH]; intros m Hm; [done |].
  apply IH. by apply mapSet_NoDup.
Qed.

Lemma setAll_Keyed l m : NoDup (fst <$> m) -> Keyed m -> Keyed (setAll l m).
Proof.
  revert m. induction l as [|n l IH]; intros m Hm Hk; [done |].
  apply IH; [by apply mapSet_NoDup |].
  intros k v H. apply mapSet_elem in H; [| done].
  destruct H as [[-> ->] | [_ H]]; [done | by apply Hk].
Qed.

Lemma setAll_elem l m k v :
  NoDup (fst <$> m) -> NoDup (id <$> l) ->
  (k, v) ∈ setAll l m <-> (v ∈ l /\ k = id v) \/ ((k ∉ id <$> l) /\ (k, v) ∈ m).
Proof.
  revert m. induction l as [|n l IH]; intros m Hm Hl.
  - cbn [setAll fold_left]. split.
    + intros H. right. split; [apply not_elem_of_nil | done].
    + intros [[H _] | [_ H]]; [by apply elem_of_nil in H | done].
  - rewrite fmap_cons in Hl. apply NoDup_cons in Hl. destruct Hl as [Hn Hl].
    change (setAll (n :: l) m) with (setAll l (mapSet (id n) n m)).
    rewrite (IH _ (mapSet_NoDup _ _ _ Hm) Hl), (mapSet_elem _ _ _ _ _ Hm).
    rewrite fmap_cons, not_elem_of_cons, elem_of_cons. split.
    + intros [[H ->] | [Hk [[-> ->] | [Hne H]]]].
      * left. split; [by right | done].
      * left. split; [by left | done].
      * right. done.
    + intros [[[-> | H] ->] | [[Hne Hk] H]].
      * right. split; [done | by left].
      * left. done.
      * right. split; [done |]. right. done.
Qed.

Lemma setAll_same l m :
  NoDup (fst <$> m) -> (forall n, n ∈ l -> (id n, n) ∈ m) -> setAll l m = m.
Proof.
  assert (Hsame : forall k v m, NoDup (fst <$> m) -> (k, v) ∈ m -> mapSet k v m = m).
  { intros k v m'. induction m' as [|[k1 v1] m' IH]; intros Hm H.
    - by apply elem_of_nil in H.
    - rewrite fmap_cons in Hm. apply NoDup_cons in Hm. destruct Hm as [Hk1 Hm].
      cbn [mapSet fst] in *. apply elem_of_cons in H.
      destruct (bool_decide (k1 = k)) eqn:E.
      + apply bool_decide_eq_true in E. subst k1.
        destruct H as [[= ->] | H]; [done |].
        exfalso. apply Hk1. apply list_elem_of_fmap. by exists (k, v).
      + apply bool_decide_eq_false in E. destruct H as [[= -> ->] | H]; [done |].
        by rewrite IH. }
  induction l as [|n l IH]; intros Hm H; [done |].
  change (setAll (n :: l) m) with (setAll l (mapSet (id n) n m)).
  rewrite Hsame; [| done | apply H; by left].
  apply IH; [done |]. intros x Hx. apply H. by right.
Qed.

Lemma mapOfNotes_NoDup l : NoDup (fst <$> mapOfNotes l).
Proof. apply (setAll_NoDup l []). apply NoDup_nil_2. Qed.

Lemma mapOfNotes_Keyed l : Keyed (mapOfNotes l).
Proof.
  apply (setAll_Keyed l []); [apply NoDup_nil_2 |].
  intros k v H. by apply elem_of_nil in H.
Qed.

Lemma mapOfNotes_elem l k v :
  NoDup (id <$> l) -> (k, v) ∈ mapOfNotes l <-> v ∈ l /\ k = id v.
Proof.
  intros Hl. unfold mapOfNotes. fold (setAll l []).
  rewrite (setAll_elem l [] k v (NoDup_nil_2) Hl). split.
  - intros [H | [_ H]]; [done | by apply elem_of_nil in H].
  - intros H. by left.
Qed.

Lemma Keyed_ids m : Keyed m -> id <$> (snd <$> m) = fst <$> m.
Proof.
  intros Hk. rewrite <- list_fmap_compose. apply list_fmap_ext.
  intros i [k v] Hi. simpl. apply Hk. by apply list_elem_of_lookup_2 in Hi.
Qed.

Lemma mergedMap_values imported current n :
  NoDup (id <$> current) -> NoDup (id <$> imported) ->
  n ∈ snd <$> mergedMap imported current
  <-> n ∈ imported \/ (n ∈ current /\ id n ∉ id <$> imported).
Proof.
  intros Hc Hi. unfold mergedMap. fold (setAll imported (mapOfNotes current)).
  rewrite list_elem_of_fmap. split.
  - intros ([k v] & -> & H). cbn [snd].
    apply (setAll_elem _ _ _ _ (mapOfNotes_NoDup current) Hi) in H.
    destruct H as [[H _] | [Hk H]]; [by left |].
    apply (mapOfNotes_elem _ _ _ Hc) in H. destruct H as [H ->]. by right.
  - intros [H | [H Hk]].
    + exists (id n, n). split; [done |].
      apply (setAll_elem _ _ _ _ (mapOfNotes_NoDup current) Hi). by left.
    + exists (id n, n). split; [done |].
      apply (setAll_elem _ _ _ _ (mapOfNotes_NoDup current) Hi). right.
      split; [done |]. by apply (mapOfNotes_elem _ _ _ Hc).
Qed.

Lemma mergedMap_ids imported current :
  NoDup (id <$> (snd <$> mergedMap imported current)).
Proof.
  unfold mergedMap. fold (setAll imported (mapOfNotes current)).
  rewrite Keyed_ids.
  - apply setAll_NoDup, mapOfNotes_NoDup.
  - apply setAll_Keyed; [apply mapOfNotes_NoDup | apply mapOfNotes_Keyed].
Qed.

Lemma mapSet_absent k v m : k ∉ fst <$> m -> mapSet k v m = m ++ [(k, v)].
Proof.
  induction m as [|[k1 v1] m IH]; intros H; [done |].
  rewrite fmap_cons, not_elem_of_cons in H. destruct H as [Hne H].
  cbn [mapSet fst] in *. rewrite bool_decide_eq_false_2 by done.
  by rewrite IH.
Qed.

Lemma mapOfNotes_distinct l :
  NoDup (id <$> l) -> mapOfNotes l = (fun n => (id n, n)) <$> l.
Proof.
  induction l as [|n l IH] using rev_ind; intros H; [done |].
  rewrite fmap_app in H. apply NoDup_app in H. destruct H as (Hl & Hn & _).
  unfold mapOfNotes in *. rewrite fold_left_app. cbn [fold_left].
  rewrite (IH Hl), mapSet_absent, fmap_app; [done |].
  rewrite <- list_fmap_compose. intros Hin. apply (Hn (id n)); [done |].
  apply list_elem_of_singleton. done.
Qed.

Lemma mergedMap_same l : NoDup (id <$> l) -> snd <$> mergedMap l l = l.
Proof.
  intros H. unfold mergedMap. fold (setAll l (mapOfNotes l)).
  rewrite setAll_same.
  - rewrite (mapOfNotes_distinct l H), <- list_fmap_compose. apply list_fmap_id.
  - apply mapOfNotes_NoDup.
  - intros n Hn. by apply mapOfNotes_elem.
Qed.

Lemma freshIds_none items keys :
  (forall x, x ∈ items -> jsonId x ∈ keys) -> size (freshIds items keys) = 0%nat.
Proof.
  intros H. apply size_empty_iff, elem_of_equiv_empty. intros y. unfold freshIds.
  rewrite elem_of_difference, elem_of_list_to_set, list_elem_of_fmap.
  intros [(x & -> & Hx) Hy]. by apply Hy, H.
Qed.

Lemma jsonId_noteToJson n : jsonId (noteToJson n) = id n.
Proof. unfold jsonId. by rewrite noteToJson_id. Qed.

Lemma sortByUpdatedAtDesc_sorted_id l :
  StronglySorted NewerFirst l -> sortByUpdatedAtDesc l = l.
Proof.
  induction 1 as [|x l Hl IH Hx]; [done |].
  cbn [sortByUpdatedAtDesc]. rewrite IH. destruct l as [|y r]; [done |].
  cbn [insertByUpdatedAt]. inversion Hx as [|? ? Hy _]; subst.
  unfold NewerFirst in Hy. apply Z.leb_le in Hy. by rewrite Hy.
Qed.

Section ImportMergeFacts.

Variable JSON_parse : jsstring -> JValue + jsstring.
Variable JSON_stringify : JValue -> jsstring.

(** X11: for a file that passes validation, import in merge mode reports
    as new the number of distinct ids of the file that no current note
    has and as updated the rest of the file's notes, so that the two add
    up to the number of notes in the file; in replace mode every note of
    the file is reported as new. *)
Theorem import_counts (fileContent : jsstring) (data : JValue) (items : list JValue)
    (current : list Note) :
  JSON_parse fileContent = inl data ->
  validateImportData data = true ->
  getProp data "notes" = Some (JArr items) ->
  let total := Z.of_nat (length items) in
  let new := Z.of_nat (size (newIds items current)) in
  0 <= new <= total
  /\ importNotes JSON_parse fileContent current merge
     = ImportSuccess (mergeMessage total new (total - new)) total new (total - new)
  /\ importNotes JSON_parse fileContent current replace
     = ImportSuccess (replaceMessage total) total total 0.
Proof.
  intros Hp Hv Hn total new.
  split; [pose proof (freshIds_bound items (list_to_set (id <$> current))); unfold new, newIds; lia |].
  unfold importNotes. rewrite Hp, Hv, Hn.
  cbn [negb mbind option_bind readArr default from_option Datatypes.id].
  rewrite mergeCounts_sizes. fold (newIds items current). fold new total.
  cbv zeta. unfold mergeMessage, replaceMessage.
  replace (0 + new + (0 + (total - new))) with total by lia.
  replace (0 + (total - new)) with (total - new) by lia.
  replace (0 + new) with new by lia.
  replace (total + 0) with total by lia.
  done.
Qed.

(** X12: a successful import in merge mode of notes with pairwise
    different ids leaves in the list exactly the imported notes and the
    current notes whose id the file does not have, no two of them with
    the same id, most recently updated first; each of them is stored with
    [saveNotes] and no other record of the store is touched; when the
    storage operation fails neither list nor store changes. *)
Theorem merge_import_result (fileContent : jsstring) (data : JValue) (imported : list Note)
    (okClear : bool) (st : App) :
  JSON_parse fileContent = inl data ->
  validateImportData data = true ->
  importedNotesOf JSON_parse fileContent = Some imported ->
  NoDup (id <$> notes st) ->
  NoDup (id <$> imported) ->
  exists st' message,
    handleImport JSON_parse fileContent merge okClear true st = Some st'
    /\ (forall n, n ∈ notes st'
                  <-> n ∈ imported \/ (n ∈ notes st /\ id n ∉ id <$> imported))
    /\ NoDup (id <$> notes st')
    /\ StronglySorted NewerFirst (notes st')
    /\ (forall n, n ∈ notes st' -> db st' !! id n = Some (saveNotesRecord n))
    /\ (forall k, k ∉ id <$> notes st' -> db st' !! k = db st !! k)
    /\ alerts st' = alerts st ++ [message]
    /\ handleImport JSON_parse fileContent merge okClear false st = Some st.
Proof.
  intros Hp Hv Hi Hc Hn.
  unfold handleImport, importNotes. rewrite Hp, Hv, Hi.
  cbn [negb mbind option_bind].
  destruct (mergeCounts _ _ 0 0) as [newCount updatedCount].
  cbn [saveNotes]. fold (mergedMap imported (notes st)).
  set (newNotes := sortByUpdatedAtDesc (snd <$> mergedMap imported (notes st))).
  assert (Hperm : newNotes ≡ₚ snd <$> mergedMap imported (notes st))
    by apply sortByUpdatedAtDesc_perm.
  assert (Hnd : NoDup (id <$> newNotes)).
  { rewrite Hperm. apply mergedMap_ids. }
  eexists _, _. split; [reflexivity |]. cbn [notes db alerts alert setNotes setDb].
  split.
  { intros n. rewrite Hperm. by apply mergedMap_values. }
  split; [done |].
  split; [apply sortByUpdatedAtDesc_sorted |].
  split; [intros n H; by apply saveNotes_present |].
  split; [intros k H; by apply saveNotes_absent |].
  done.
Qed.

(** X13: importing in merge mode the file an export of the current notes
    wrote, when these have pairwise different ids and the platform's JSON
    reads back what it printed, reports no note as new and every note as
    updated and leaves the list holding the same notes, most recently
    updated first; a list that was in that order is left as it was. *)
Theorem reimport_own_export (exportedAt : jsstring) (okClear : bool) (st : App) :
  JSON_parse (exportNotes JSON_stringify (notes st) exportedAt)
  = inl (exportData (notes st) exportedAt) ->
  NoDup (id <$> notes st) ->
  let fileContent := exportNotes JSON_stringify (notes st) exportedAt in
  let total := Z.of_nat (length (notes st)) in
  importNotes JSON_parse fileContent (notes st) merge
  = ImportSuccess (mergeMessage total 0 total) total 0 total
  /\ exists st',
       handleImport JSON_parse fileContent merge okClear true st = Some st'
       /\ notes st' = sortByUpdatedAtDesc (notes st)
       /\ notes st' ≡ₚ notes st
       /\ (StronglySorted NewerFirst (notes st) -> notes st' = notes st)
       /\ alerts st' = alerts st ++ [mergeMessage total 0 total]
       /\ outbox st' = outbox st.
Proof.
  intros Hp Hnd fileContent total.
  assert (Himp : importNotes JSON_parse fileContent (notes st) merge
                 = ImportSuccess (mergeMessage total 0 total) total 0 total).
  { unfold importNotes, fileContent. rewrite Hp, validateImportData_exportData.
    change (getProp (exportData (notes st) exportedAt) "notes")
      with (Some (JArr (noteToJson <$> notes st))).
    cbn [negb mbind option_bind readArr default from_option Datatypes.id].
    rewrite mergeCounts_sizes, freshIds_none, length_fmap.
    - fold total. cbv zeta. unfold mergeMessage.
      replace (0 + Z.of_nat 0 + (0 + (total - Z.of_nat 0))) with total by lia.
      replace (0 + (total - Z.of_nat 0)) with total by lia.
      done.
    - intros x Hx. apply list_elem_of_fmap in Hx. destruct Hx as (n & -> & Hn).
      rewrite jsonId_noteToJson, elem_of_list_to_set. by apply list_elem_of_fmap_2. }
  split; [exact Himp |].
  unfold handleImport. rewrite Himp.
  unfold fileContent. rewrite (importedNotesOf_export JSON_parse JSON_stringify _ _ Hp).
  cbn [mbind option_bind saveNotes]. fold (mergedMap (notes st) (notes st)).
  rewrite (mergedMap_same _ Hnd).
  eexists. split; [reflexivity |]. cbn [notes alerts outbox alert setNotes setDb].
  split; [done |]. split; [apply sortByUpdatedAtDesc_perm |].
  split; [apply sortByUpdatedAtDesc_sorted_id |]. done.
Qed.

(** X14: a file that is not JSON, or whose JSON is not an object with a
    string [version], a string [exportedAt] and an array [notes] of
    well-shaped notes, is refused in either mode: the handler shows one
    alert, which gives the parser's message in the first case, and
    changes nothing else. *)
Theorem import_refuses_bad_file (fileContent : jsstring) (mode : ImportMode)
    (okClear okSave : bool) (st : App) :
  (forall err, JSON_parse fileContent = inr err ->
     handleImport JSON_parse fileContent mode okClear okSave st
     = Some (alert (parseFailure err) st))
  /\ (forall data, JSON_parse fileContent = inl data -> ~ FileShape data ->
       handleImport JSON_parse fileContent mode okClear okSave st
       = Some (alert (lit "Import failed: " ++ invalidFormat) st))
  /\ (forall st', handleImport JSON_parse fileContent mode okClear okSave st = Some st' ->
       (forall data, JSON_parse fileContent = inl data -> ~ FileShape data) ->
       notes st' = notes st /\ db st' = db st /\ saveTimer st' = saveTimer st
       /\ outbox st' = outbox st /\ length (alerts st') = S (length (alerts st))).
Proof.
  assert (H1 : forall err, JSON_parse fileContent = inr err ->
     handleImport JSON_parse fileContent mode okClear okSave st
     = Some (alert (parseFailure err) st)).
  { intros err Hp. apply handleImport_failure. by apply importNotes_unparsable. }
  assert (H2 : forall data, JSON_parse fileContent = inl data -> ~ FileShape data ->
       handleImport JSON_parse fileContent mode okClear okSave st
       = Some (alert (lit "Import failed: " ++ invalidFormat) st)).
  { intros data Hp Hs. apply handleImport_failure.
    apply (importNotes_invalid JSON_parse fileContent data); [done |].
    apply not_true_is_false. intros Hv. by apply Hs, validateImportData_iff. }
  split; [exact H1 |]. split; [exact H2 |].
  intros st' Hst Hbad. destruct (JSON_parse fileContent) as [data | err] eqn:Hp.
  - rewrite (H2 data eq_refl (Hbad data eq_refl)) in Hst. injection Hst as <-.
    simpl. rewrite length_app. simpl. repeat split; try done. lia.
  - rewrite (H1 err eq_refl) in Hst. injection Hst as <-.
    simpl. rewrite length_app. simpl. repeat split; try done. lia.
Qed.

End ImportMergeFacts.

Lemma import_counts_witness :
  MiniJSON.parse (exportNotes MiniJSON.stringify [olderNote; sampleNote] exportedAtSample)
  = inl (exportData [olderNote; sampleNote] exportedAtSample)
  /\ validateImportData (exportData [olderNote; sampleNote] exportedAtSample) = true
  /\ getProp (exportData [olderNote; sampleNote] exportedAtSample) "notes"
     = Some (JArr (noteToJson <$> [olderNote; sampleNote]))
  /\ importNotes MiniJSON.parse
       (exportNotes MiniJSON.stringify [olderNote; sampleNote] exportedAtSample)
       [sampleNote] replace
     = ImportSuccess (replaceMessage 2) 2 2 0.
Proof.
  assert (H1 : MiniJSON.parse
                 (exportNotes MiniJSON.stringify [olderNote; sampleNote] exportedAtSample)
               = inl (exportData [olderNote; sampleNote] exportedAtSample))
    by (vm_compute; reflexivity).
  assert (H2 : validateImportData (exportData [olderNote; sampleNote] exportedAtSample) = true)
    by (vm_compute; reflexivity).
  assert (H3 : getProp (exportData [olderNote; sampleNote] exportedAtSample) "notes"
               = Some (JArr (noteToJson <$> [olderNote; sampleNote])))
    by reflexivity.
  do 3 (split; [assumption |]).
  exact (proj2 (proj2 (import_counts MiniJSON.parse _ _ _ [sampleNote] H1 H2 H3))).
Defined.

Lemma merge_import_result_witness :
  MiniJSON.parse sampleFile = inl sampleFileData
  /\ validateImportData sampleFileData = true
  /\ importedNotesOf MiniJSON.parse sampleFile = Some [olderNote; sampleNote]
  /\ NoDup (id <$> notes existingApp)
  /\ NoDup (id <$> [olderNote; sampleNote])
  /\ exists st' message,
       handleImport MiniJSON.parse sampleFile merge true true existingApp = Some st'
       /\ (forall n, n ∈ notes st'
                     <-> n ∈ [olderNote; sampleNote]
                         \/ (n ∈ notes existingApp /\ (id n ∉ id <$> [olderNote; sampleNote])))
       /\ NoDup (id <$> notes st')
       /\ StronglySorted NewerFirst (notes st')
       /\ (forall n, n ∈ notes st' -> db st' !! id n = Some (saveNotesRecord n))
       /\ (forall k, k ∉ id <$> notes st' -> db st' !! k = db existingApp !! k)
       /\ alerts st' = alerts existingApp ++ [message]
       /\ handleImport MiniJSON.parse sampleFile merge true false existingApp
          = Some existingApp.
Proof.
  assert (H1 : MiniJSON.parse sampleFile = inl sampleFileData) by (vm_compute; reflexivity).
  assert (H2 : validateImportData sampleFileData = true) by (vm_compute; reflexivity).
  assert (H3 : importedNotesOf MiniJSON.parse sampleFile = Some [olderNote; sampleNote])
    by (vm_compute; reflexivity).
  assert (H4 : NoDup (id <$> notes existingApp)) by apply NoDup_singleton.
  assert (H5 : NoDup (id <$> [olderNote; sampleNote])).
  { apply NoDup_cons. split; [| apply NoDup_singleton].
    rewrite list_elem_of_singleton. discriminate. }
  do 5 (split; [assumption |]).
  exact (merge_import_result MiniJSON.parse sampleFile sampleFileData
           [olderNote; sampleNote] true existingApp H1 H2 H3 H4 H5).
Defined.

Lemma reimport_own_export_witness :
  MiniJSON.parse (exportNotes MiniJSON.stringify (notes twoTabsState) exportedAtSample)
  = inl (exportData (notes twoTabsState) exportedAtSample)
  /\ NoDup (id <$> notes twoTabsState)
  /\ importNotes MiniJSON.parse
       (exportNotes MiniJSON.stringify (notes twoTabsState) exportedAtSample)
       (notes twoTabsState) merge
     = ImportSuccess (mergeMessage 2 0 2) 2 0 2.
Proof.
  assert (H1 : MiniJSON.parse
                 (exportNotes MiniJSON.stringify (notes twoTabsState) exportedAtSample)
               = inl (exportData (notes twoTabsState) exportedAtSample))
    by (vm_compute; reflexivity).
  assert (H2 : NoDup (id <$> notes twoTabsState)).
  { apply NoDup_cons. split; [| apply NoDup_singleton].
    rewrite list_elem_of_singleton. discriminate. }
  do 2 (split; [assumption |]).
  exact (proj1 (reimport_own_export MiniJSON.parse MiniJSON.stringify exportedAtSample
                  true twoTabsState H1 H2)).
Defined.

(** ** Insights that are up to date, and the idle timer *)

Section IdleFacts.

Variable JSON_parse : jsstring -> JValue + jsstring.

Lemma generateInsights_hash noteContent now r ins :
  generateInsights JSON_parse noteContent now r = Returned ins ->
  contentHash ins = hashContent noteContent /\ generatedAt ins = now.
Proof.
  unfold generateInsights. intros H.
  destruct (status r =? 429); [by destruct (propOf _ _) |].
  destruct (negb (responseOk r)); [by destruct (propOf _ _) |].
  destruct (body r) as [data | e]; [| done].
  destruct (propOf data "response") as [response | e]; [| done].
  cbv zeta in H.
  destruct (parseInsightsText JSON_parse response); try done;
    by injection H as <-.
Qed.

(** X15: insights returned by [generateInsights] for a content carry the
    hash of that content, so they are not stale for it; once the panel
    has generated insights for a note, the idle timer sends no request
    for the note as updated, whatever the time; during the cooldown the
    idle timer does nothing at all, and it never runs when
    auto-generation is off or the service is not connected. *)
Theorem fresh_insights_stop_idle_generation
    (n : Note) (r : HttpResponse) (latency now : Z) (seen : bool)
    (p : InsightsPanel) (ins : AIInsights) :
  COOLDOWN_MS <= now - ip_lastRequestTime p ->
  generateInsights JSON_parse (content n) (now + latency) r = Returned ins ->
  let p' := handleIdle JSON_parse true [(latency, r)] (Some n) connected seen now p in
  let n' := withInsights n (Some ins) in
  (isInsightsStale (aiInsights n) (content n) = true ->
     ip_insights p' = Some ins
     /\ ip_updates p' = ip_updates p ++ [n']
     /\ ip_fetched p' = ip_fetched p ++ [now])
  /\ (isInsightsStale (aiInsights n) (content n) = false -> p' = p)
  /\ isInsightsStale (aiInsights n') (content n') = false
  /\ (forall auto script status seen' now' q,
        handleIdle JSON_parse auto script (Some n') status seen' now' q = q)
  /\ (forall auto script note status seen' now' q,
        now' - ip_lastRequestTime q < COOLDOWN_MS \/ auto = false \/ status <> connected ->
        handleIdle JSON_parse auto script note status seen' now' q = q).
Proof.
  intros Hcool Hgen p' n'.
  destruct (generateInsights_hash _ _ _ _ Hgen) as [Hhash _].
  assert (Hfresh : isInsightsStale (aiInsights n') (content n') = false).
  { unfold isInsightsStale, n'. simpl. rewrite Hhash.
    by rewrite bool_decide_eq_true_2. }
  assert (Hnot : (now - ip_lastRequestTime p <? COOLDOWN_MS) = false)
    by (apply Z.ltb_ge; lia).
  split.
  { intros Hstale. unfold p', handleIdle.
    rewrite bool_decide_eq_true_2 by done. cbn [negb orb]. rewrite Hnot, Hstale.
    rewrite (generate_issued JSON_parse) by (by right). rewrite Hgen. done. }
  split.
  { intros Hstale. unfold p', handleIdle.
    rewrite bool_decide_eq_true_2 by done. cbn [negb orb]. by rewrite Hnot, Hstale. }
  split; [exact Hfresh |].
  split.
  { intros auto script status seen' now' q. unfold handleIdle. rewrite Hfresh.
    destruct (negb auto || negb (bool_decide (status = connected))); [done |].
    by destruct (now' - ip_lastRequestTime q <? COOLDOWN_MS). }
  intros auto script note status seen' now' q H. unfold handleIdle.
  destruct note as [m|]; [| done].
  destruct H as [H | [-> | H]].
  - destruct (negb auto || negb (bool_decide (status = connected))); [done |].
    apply Z.ltb_lt in H. by rewrite H.
  - done.
  - rewrite (bool_decide_eq_false_2 _ H). by rewrite orb_true_r.
Qed.

End IdleFacts.

Lemma fresh_insights_stop_idle_generation_witness :
  COOLDOWN_MS <= 5000 - ip_lastRequestTime freshPanel
  /\ generateInsights MiniJSON.parse (content sampleNote) (5000 + 700) insightsResponse
     = Returned (mkAIInsights (JStr (lit "A list.")) [] (JStr []) [] 5700
                              (hashContent (content sampleNote)))
  /\ isInsightsStale
       (aiInsights (withInsights sampleNote
                      (Some (mkAIInsights (JStr (lit "A list.")) [] (JStr []) [] 5700
                                          (hashContent (content sampleNote))))))
       (content sampleNote) = false.
Proof.
  assert (H1 : COOLDOWN_MS <= 5000 - ip_lastRequestTime freshPanel) by (vm_compute; discriminate).
  assert (H2 : generateInsights MiniJSON.parse (content sampleNote) (5000 + 700) insightsResponse
               = Returned (mkAIInsights (JStr (lit "A list.")) [] (JStr []) [] 5700
                                        (hashContent (content sampleNote))))
    by (vm_compute; reflexivity).
  do 2 (split; [assumption |]).
  exact (proj1 (proj2 (proj2
    (fresh_insights_stop_idle_generation MiniJSON.parse sampleNote insightsResponse
       700 5000 false freshPanel _ H1 H2)))).
Defined.

(** ** Streaming a generated text *)

Lemma split_join sep s :
  List.concat ((fun chunk => chunk ++ [sep]) <$> split sep s) = s ++ [sep].
Proof.
  induction s as [|c r IH]; [done |]. cbn [split].
  destruct (c =? sep)%N eqn:E.
  - apply N.eqb_eq in E. subst c. rewrite fmap_cons. cbn [List.concat app].
    by rewrite IH.
  - destruct (split sep r) as [|p ps] eqn:Es; [by apply split_nonempty in Es |].
    rewrite fmap_cons in *. cbn [List.concat] in *.
    rewrite <- !app_comm_cons, <- app_assoc. cbn [app].
    rewrite <- app_assoc in IH. cbn [app] in IH. by rewrite IH.
Qed.

Lemma generateText_ok streaming r data resp :
  responseOk r = true -> body r = inl data -> getProp data "response" = Some resp ->
  generateText streaming r
  = if streaming && truthyJ (Some resp) then
      match resp with
      | JStr text => Returned ((fun chunk => chunk ++ [SPACE]) <$> split SPACE text, Some resp)
      | _ => Thrown typeErrorMessage
      end
    else Returned ([], Some resp).
Proof.
  intros Hok Hb Hr. unfold generateText.
  rewrite (responseOk_not_429 r Hok), Hok, Hb. cbn [negb].
  pose proof (getProp_Some_not_null _ _ _ Hr) as Hnull.
  unfold propOf. destruct data; try done; rewrite Hr; by destruct resp.
Qed.

(** X16: when the endpoint answers a summary request with a non-empty
    text, the worker streams it word by word, each chunk a word followed
    by a space, and the chunks put together are the text followed by one
    space: that is what the sidebar shows, while the note is handed on
    with the text itself as its summary and the time of the answer; an
    empty text is stored as the summary and nothing is shown; the ghost
    text of a continuation is put together the same way. *)
Theorem summary_streams_whole_text
    (n : Note) (now latency : Z) (r : HttpResponse) (data : JValue) (text : jsstring)
    (sb : AISidebar) :
  responseOk r = true ->
  body r = inl data ->
  getProp data "response" = Some (JStr text) ->
  let sb' := handleGenerateSummary (Some n) connected now latency r sb in
  sb_updates sb'
  = sb_updates sb ++ [withMetadata n (Some (mkAiMetadata (Some text) (Some (now + latency))))]
  /\ sb_error sb' = None
  /\ (text = [] -> sb_summary sb' = [] /\ wr_chunks (workerHandle SUMMARIZE r) = [])
  /\ (text <> [] ->
      sb_summary sb' = text ++ [SPACE]
      /\ wr_chunks (workerHandle SUMMARIZE r)
         = (fun word => word ++ [SPACE]) <$> split SPACE text
      /\ Forall (fun word => SPACE ∉ word) (split SPACE text)
      /\ forall textareaValue e,
           trim textareaValue <> [] ->
           ghostText (generateContinuation (Some n) connected textareaValue now r e)
           = text ++ [SPACE]).
Proof.
  intros Hok Hb Hr sb'.
  pose proof (generateText_ok true r data (JStr text) Hok Hb Hr) as Hg.
  destruct text as [|c text].
  - cbn [andb truthyJ] in Hg.
    assert (Hw : workerHandle SUMMARIZE r
                 = mkWorkerResponse [] true (Some (DataText (Some (JStr [])))) None).
    { unfold workerHandle, generateSummary. by rewrite Hg. }
    unfold sb', handleGenerateSummary. rewrite Hw. by cbn.
  - cbn [andb truthyJ] in Hg.
    assert (Hw : workerHandle SUMMARIZE r
                 = mkWorkerResponse ((fun word => word ++ [SPACE]) <$> split SPACE (c :: text))
                     true (Some (DataText (Some (JStr (c :: text))))) None).
    { unfold workerHandle, generateSummary. by rewrite Hg. }
    unfold sb', handleGenerateSummary. rewrite Hw.
    cbn [bool_decide negb wr_chunks wr_success wr_data sb_updates sb_error sb_summary].
    rewrite bool_decide_eq_true_2 by done.
    cbn [negb wr_chunks wr_success wr_data sb_updates sb_error sb_summary].
    rewrite split_join.
    split; [done |]. split; [done |]. split; [done |]. intros _.
    split; [done |]. split; [done |]. split; [apply split_pieces |].
    intros textareaValue e Hne. unfold generateContinuation.
    rewrite bool_decide_eq_true_2 by done. cbn [negb].
    assert (Ht : truthy (trim textareaValue) = true) by (by destruct (trim textareaValue)).
    rewrite Ht. cbn [negb].
    assert (Hc : workerHandle CONTINUE r
                 = mkWorkerResponse ((fun word => word ++ [SPACE]) <$> split SPACE (c :: text))
                     true (Some (DataText (Some (JStr (c :: text))))) None).
    { unfold workerHandle, continueWriting. by rewrite Hg. }
    rewrite Hc. cbn [wr_success wr_chunks ghostText]. apply split_join.
Qed.

Lemma summary_streams_whole_text_witness :
  responseOk (okResponse (lit "Two words")) = true
  /\ body (okResponse (lit "Two words")) = inl (JObj [(lit "response", JStr (lit "Two words"))])
  /\ getProp (JObj [(lit "response", JStr (lit "Two words"))]) "response"
     = Some (JStr (lit "Two words"))
  /\ sb_error (handleGenerateSummary (Some sampleNote) connected 100 50
                 (okResponse (lit "Two words")) freshSidebar) = None.
Proof.
  assert (H1 : responseOk (okResponse (lit "Two words")) = true) by reflexivity.
  assert (H2 : body (okResponse (lit "Two words"))
               = inl (JObj [(lit "response", JStr (lit "Two words"))])) by reflexivity.
  assert (H3 : getProp (JObj [(lit "response", JStr (lit "Two words"))]) "response"
               = Some (JStr (lit "Two words"))) by reflexivity.
  do 3 (split; [assumption |]).
  exact (proj1 (proj2 (summary_streams_whole_text sampleNote 100 50 _ _ _ freshSidebar
                         H1 H2 H3))).
Defined.

(** ** A request that fails *)

Section FailureFacts.

Variable JSON_parse : jsstring -> JValue + jsstring.

Lemma generateText_not_ok streaming r :
  responseOk r = false -> exists e, generateText streaming r = Thrown e.
Proof.
  intros H. unfold generateText. rewrite H. cbn [negb].
  destruct (status r =? 429).
  - destruct (body r) as [data | e]; [| by eexists].
    destruct (propOf data "message"); by eexists.
  - destruct (propOf _ "message"); by eexists.
Qed.

Lemma generateInsights_not_ok noteContent now r :
  responseOk r = false ->
  exists e, generateInsights JSON_parse noteContent now r = Thrown e.
Proof.
  intros H. unfold generateInsights. rewrite H. cbn [negb].
  destruct (status r =? 429); destruct (propOf _ "message"); by eexists.
Qed.

Lemma workerHandle_not_ok type r :
  responseOk r = false ->
  exists e, workerHandle type r = mkWorkerResponse [] false None (Some e).
Proof.
  intros H. destruct (generateText_not_ok true r H) as [e1 H1].
  destruct (generateText_not_ok false r H) as [e2 H2].
  unfold workerHandle, generateSummary, continueWriting, suggestTags.
  destruct type; rewrite ?H1, ?H2; by eexists.
Qed.

Lemma generate_not_ok script note aiStatus seen isRetry now p :
  Forall (fun answer => responseOk (snd answer) = false) script ->
  let p' := generate JSON_parse script note aiStatus seen isRetry now p in
  ip_updates p' = ip_updates p /\ ip_insights p' = ip_insights p.
Proof.
  intros H. revert isRetry now p.
  induction H as [|[latency r] script Hr _ IH]; intros isRetry now p.
  - cbn [generate]. destruct note as [n|]; [| done].
    destruct (negb (bool_decide (aiStatus = connected))); [done |].
    by destruct (negb isRetry && (now - ip_lastRequestTime p <? COOLDOWN_MS)).
  - cbn [generate]. destruct note as [n|]; [| done].
    destruct (negb (bool_decide (aiStatus = connected))); [done |].
    destruct (negb isRetry && (now - ip_lastRequestTime p <? COOLDOWN_MS)); [done |].
    cbn [snd] in Hr.
    destruct (generateInsights_not_ok (content n) (now + latency) r Hr) as [e He].
    rewrite He. destruct (isRateLimitMessage e); [| done].
    match goal with |- context [generate _ _ _ _ _ ?b ?t ?q] => specialize (IH b t q) end.
    cbv zeta in IH. destruct IH as [IH1 IH2]. by rewrite IH1, IH2.
Qed.

(** X17: an answer of the endpoint whose status is not 2xx makes every
    request fail: the summary handler hands no note on, the suggested
    tags stay as they were, a continuation leaves no ghost text, and the
    insights panel, however often it retries against such answers,
    neither replaces its insights nor hands a note on. *)
Theorem failed_request_changes_no_note
    (r : HttpResponse) (script : list (Z * HttpResponse)) :
  responseOk r = false ->
  Forall (fun answer => responseOk (snd answer) = false) script ->
  (forall streaming, exists e, generateText streaming r = Thrown e)
  /\ (forall note status now latency sb,
        sb_updates (handleGenerateSummary note status now latency r sb) = sb_updates sb)
  /\ (forall note status now sb,
        sb_suggestedTags (handleSuggestTags note status now r sb) = sb_suggestedTags sb)
  /\ (forall note status value now e,
        generateContinuation note status value now r e = e
        \/ ghostText (generateContinuation note status value now r e) = [])
  /\ (forall note status seen isRetry now p,
        let p' := generate JSON_parse script note status seen isRetry now p in
        ip_updates p' = ip_updates p /\ ip_insights p' = ip_insights p).
Proof.
  intros Hr Hs.
  split; [intros streaming; by apply generateText_not_ok |].
  split.
  { intros note status now latency sb. unfold handleGenerateSummary.
    destruct note as [n|]; [| done].
    destruct (negb (bool_decide (status = connected))); [done |].
    destruct (workerHandle_not_ok SUMMARIZE r Hr) as [e ->]. cbv zeta.
    cbn [wr_success wr_data wr_error]. by destruct (truthy e). }
  split.
  { intros note status now sb. unfold handleSuggestTags.
    destruct note as [n|]; [| done].
    destruct (negb (bool_decide (status = connected))); [done |].
    by destruct (workerHandle_not_ok TAGS r Hr) as [e ->]. }
  split.
  { intros note status value now e. unfold generateContinuation.
    destruct note as [n|]; [| by left].
    destruct (negb (bool_decide (status = connected))); [by left |].
    destruct (negb (truthy (trim value))); [by left |].
    destruct (workerHandle_not_ok CONTINUE r Hr) as [e' ->]. by right. }
  intros note status seen isRetry now p. by apply generate_not_ok.
Qed.

End FailureFacts.

Lemma failed_request_changes_no_note_witness :
  responseOk rateLimited = false
  /\ Forall (fun answer => responseOk (snd answer) = false) [(100, rateLimited)]
  /\ forall streaming, exists e, generateText streaming rateLimited = Thrown e.
Proof.
  assert (H1 : responseOk rateLimited = false) by reflexivity.
  assert (H2 : Forall (fun answer => responseOk (snd answer) = false) [(100, rateLimited)])
    by (constructor; [reflexivity | constructor]).
  do 2 (split; [assumption |]).
  exact (proj1 (failed_request_changes_no_note MiniJSON.parse rateLimited
                  [(100, rateLimited)] H1 H2)).
Defined.

(** ** Renaming a note from the list *)

Lemma saveAndBroadcast_notes ok n now st : notes (saveAndBroadcast ok n now st) = notes st.
Proof. unfold saveAndBroadcast, saveNote. by destruct ok. Qed.

Lemma handleRenameNote_found st i newTitle now ok old :
  findNote i (notes st) = Some old ->
  exists k, list_find (fun n => id n = i) (notes st) = Some (k, old)
            /\ notes (handleRenameNote i newTitle now ok st)
               = <[k := mkNote (id old) newTitle (content old) now
                               (Some (orNum (version old) 0 + 1))
                               (tags old) (subjectType old) (aiMetadata old)
                               (aiInsights old)]> (notes st).
Proof.
  intros H. apply findNote_list_find in H. destruct H as [k H].
  exists k. unfold handleRenameNote. rewrite H. by rewrite saveAndBroadcast_notes.
Qed.

Lemma findNote_insert_other (l : list Note) k old u j :
  l !! k = Some old -> id u = id old -> j <> id old ->
  findNote j (<[k := u]> l) = findNote j l.
Proof.
  revert k. induction l as [|n l IH]; intros k Hk Hu Hj; [done |].
  destruct k as [|k]; cbn [insert list_insert]; rewrite !findNote_cons.
  - injection Hk as ->. rewrite !decide_False by congruence. done.
  - destruct (decide (id n = j)); [done |]. by apply IH.
Qed.

(** X18: saving a title typed in the list renames the note to the typed
    text without the white space around it, in place, with the content
    kept and the version one higher; a title that is blank is ignored
    and the note keeps its title; the next content edit replaces the
    title by the first line of the content. *)
Theorem rename_from_list
    (i editValue : jsstring) (old : Note) (now : Z) (ok : bool) (st : App) :
  findNote i (notes st) = Some old ->
  let st' := noteItemSave i editValue now ok st in
  (trim editValue = [] -> st' = st)
  /\ (trim editValue <> [] ->
      exists n',
        findNote i (notes st') = Some n'
        /\ title n' = trim editValue
        /\ Trimmed (title n')
        /\ content n' = content old
        /\ updatedAt n' = now
        /\ version n' = Some (orNum (version old) 0 + 1)
        /\ length (notes st') = length (notes st)
        /\ (forall k, k <> i -> findNote k (notes st') = findNote k (notes st))
        /\ forall newContent t,
             exists n'', findNote i (notes (handleUpdateNote i newContent t st')) = Some n''
                         /\ title n'' = extractTitle newContent).
Proof.
  intros Hf st'. unfold st', noteItemSave. cbv zeta. split.
  - intros ->. done.
  - intros Hne.
    assert (Hlen : (0 <? length (trim editValue))%nat = true).
    { apply Nat.ltb_lt. destruct (trim editValue); [done | simpl; lia]. }
    rewrite Hlen.
    destruct (handleRenameNote_found st i (trim editValue) now ok old Hf) as (k & Hk & Hn).
    pose proof (findNote_id _ _ _ Hf) as Hid.
    pose proof (list_find_id _ _ _ _ Hk) as [Hlk _].
    set (renamed := mkNote (id old) (trim editValue) (content old) now
                           (Some (orNum (version old) 0 + 1))
                           (tags old) (subjectType old) (aiMetadata old)
                           (aiInsights old)) in *.
    assert (Hfound : findNote i (notes (handleRenameNote i (trim editValue) now ok st))
                     = Some renamed).
    { rewrite Hn. apply findNote_list_find. exists k.
      by apply (list_find_replaced i (notes st) k old renamed). }
    exists renamed. split; [exact Hfound |].
    split; [done |]. split; [apply trim_Trimmed |].
    split; [done |]. split; [done |]. split; [done |].
    split; [rewrite Hn; apply length_insert |].
    split.
    { intros j Hj. rewrite Hn. apply (findNote_insert_other _ k old); [done | done |].
      by rewrite Hid. }
    intros newContent t.
    destruct (content_edit_advances_version _ i newContent t renamed Hfound)
      as (n'' & _ & H1 & _ & H2 & _).
    by exists n''.
Qed.

Lemma rename_from_list_witness :
  findNote (id sampleNote) (notes existingApp) = Some sampleNote
  /\ (trim (lit "   ") = [] ->
      noteItemSave (id sampleNote) (lit "   ") 2000 true existingApp = existingApp).
Proof.
  assert (H1 : findNote (id sampleNote) (notes existingApp) = Some sampleNote) by reflexivity.
  split; [assumption |].
  exact (proj1 (rename_from_list (id sampleNote) (lit "   ") sampleNote 2000 true
                  existingApp H1)).
Defined.

(** ** Tags *)

Lemma filter_out_tag_absent tag (l : list jsstring) :
  tag ∉ l -> List.filter (fun t => negb (bool_decide (t = tag))) l = l.
Proof.
  induction l as [|t l IH]; [done |]. intros H.
  apply not_elem_of_cons in H. destruct H as [Hne H]. cbn [List.filter].
  rewrite bool_decide_eq_false_2 by congruence. cbn [negb]. by rewrite IH.
Qed.

Lemma filter_out_tag_app tag (l : list jsstring) :
  List.filter (fun t => negb (bool_decide (t = tag))) (l ++ [tag])
  = List.filter (fun t => negb (bool_decide (t = tag))) l.
Proof.
  rewrite List.filter_app. cbn [List.filter].
  rewrite bool_decide_eq_true_2 by done. cbn [negb]. apply app_nil_r.
Qed.

(** X19: a tag added in the editor is put at the end of the note's tags,
    also when the note already has it; removing a tag removes every
    occurrence of it and keeps the other tags in their order, so that
    adding a tag the note did not have and removing it again gives back
    the tags as they were; neither changes title, content or version; a
    tag typed as white space only is not added. *)
Theorem tag_added_then_removed
    (note : Note) (tag : jsstring) (now now' : Z) (ok ok' : bool) (st : App) :
  is_Some (findNote (id note) (notes st)) ->
  let before := default [] (tags note) in
  let added := withTags note (Some (before ++ [tag])) in
  let st1 := handleAddTag note tag now ok st in
  let st2 := handleRemoveTag added tag now' ok' st1 in
  findNote (id note) (notes st1) = Some added
  /\ (exists n2,
        findNote (id note) (notes st2) = Some n2
        /\ tags n2 = Some (List.filter (fun t => negb (bool_decide (t = tag))) before)
        /\ (tag ∉ default [] (tags n2))
        /\ (forall t, t ∈ default [] (tags n2) <-> t ∈ before /\ t <> tag)
        /\ (tag ∉ before -> tags n2 = Some before)
        /\ title n2 = title note /\ content n2 = content note
        /\ version n2 = version note)
  /\ (forall value, trim value = [] -> quickAddTag note value now ok st = st)
  /\ (forall value, trim value <> [] ->
        quickAddTag note value now ok st = handleAddTag note (trim value) now ok st).
Proof.
  intros Hf before added st1 st2.
  assert (H1 : findNote (id note) (notes st1) = Some added).
  { unfold st1, handleAddTag. fold before. fold added.
    by apply (full_update_keeps_given_version st added). }
  split; [exact H1 |]. split.
  - set (removed := withTags added
                      (Some (default [] (List.filter (fun t => negb (bool_decide (t = tag)))
                                           <$> tags added)))).
    assert (H2 : findNote (id note) (notes st2) = Some removed).
    { unfold st2, handleRemoveTag. fold removed.
      apply (full_update_keeps_given_version st1 removed).
      change (is_Some (findNote (id note) (notes st1))). by rewrite H1. }
    exists removed. split; [exact H2 |].
    assert (Ht : tags removed
                 = Some (List.filter (fun t => negb (bool_decide (t = tag))) before)).
    { unfold removed, added. cbn [tags withTags fmap option_fmap option_map default from_option].
      by rewrite filter_out_tag_app. }
    split; [exact Ht |]. rewrite Ht.
    assert (Hmem : forall t,
              t ∈ List.filter (fun t => negb (bool_decide (t = tag))) before
              <-> t ∈ before /\ t <> tag).
    { intros t. rewrite !list_elem_of_In, List.filter_In, negb_true_iff,
        bool_decide_eq_false. done. }
    split; [intros H; apply Hmem in H; by destruct H |].
    split; [exact Hmem |].
    split; [intros Hin; by rewrite filter_out_tag_absent |].
    done.
  - split.
    + intros value Hv. unfold quickAddTag. by rewrite Hv.
    + intros value Hv. unfold quickAddTag. cbv zeta.
      by destruct (trim value).
Qed.

Lemma tag_added_then_removed_witness :
  is_Some (findNote (id sampleNote) (notes existingApp))
  /\ findNote (id sampleNote)
       (notes (handleAddTag sampleNote (lit "food") 2000 true existingApp))
     = Some (withTags sampleNote (Some (default [] (tags sampleNote) ++ [lit "food"]))).
Proof.
  assert (H1 : is_Some (findNote (id sampleNote) (notes existingApp)))
    by (exists sampleNote; reflexivity).
  split; [assumption |].
  exact (proj1 (tag_added_then_removed sampleNote (lit "food") 2000 2100 true true
                  existingApp H1)).
Defined.

(** ** What a request carries of the note *)

Lemma continuationContext_suffix content cursor :
  exists earlier,
    take cursor content = earlier ++ continuationContext content cursor
    /\ length (continuationContext content cursor)
       = Nat.min (length (take cursor content)) CONTEXT_LIMIT.
Proof.
  unfold continuationContext. rewrite substring_prefix. cbv zeta.
  generalize CONTEXT_LIMIT. intros limit.
  destruct (limit <? length (take cursor content))%nat eqn:E.
  - apply Nat.ltb_lt in E.
    exists (take (length (take cursor content) - limit) (take cursor content)).
    split; [by rewrite take_drop |]. rewrite length_drop. lia.
  - apply Nat.ltb_ge in E. exists []. split; [done |]. lia.
Qed.

(** X20: a continuation request carries the text before the caret, or
    only its last 4000 code units when it is longer; with the caret at
    the very start, or no caret position, it carries the end of the whole
    note instead of nothing.  A summary request carries the note whole up
    to 6000 code units and otherwise its first 6000 followed by a
    truncation mark; a tag request, the same with 2000 and an
    ellipsis. *)
Theorem request_carries_bounded_text (content : jsstring) (cursor : nat) :
  let sent := continuationContext content (workerCursor (Some cursor) content) in
  ((0 < cursor)%nat ->
     exists earlier, take cursor content = earlier ++ sent
                     /\ length sent = Nat.min (length (take cursor content)) CONTEXT_LIMIT)
  /\ (cursor = 0%nat ->
      exists earlier, content = earlier ++ sent
                      /\ length sent = Nat.min (length content) CONTEXT_LIMIT)
  /\ workerCursor None content = length content
  /\ ((length content <= SUMMARY_LIMIT)%nat -> summaryContent content = content)
  /\ ((SUMMARY_LIMIT < length content)%nat ->
      summaryContent content
      = take SUMMARY_LIMIT content ++ [LF; LF] ++ lit "[Content truncated...]"
      /\ length (summaryContent content) = (SUMMARY_LIMIT + 24)%nat)
  /\ ((length content <= TAGS_LIMIT)%nat -> tagsContent content = content)
  /\ ((TAGS_LIMIT < length content)%nat ->
      tagsContent content = take TAGS_LIMIT content ++ lit "..."
      /\ length (tagsContent content) = (TAGS_LIMIT + 3)%nat).
Proof.
  intros sent. split.
  { intros Hpos. unfold sent. destruct cursor as [|c]; [lia |].
    cbn [workerCursor]. apply continuationContext_suffix. }
  split.
  { intros ->. unfold sent. cbn [workerCursor].
    destruct (continuationContext_suffix content (length content)) as (earlier & H1 & H2).
    rewrite firstn_all in H1, H2. by exists earlier. }
  split; [done |].
  unfold summaryContent, tagsContent.
  generalize SUMMARY_LIMIT, TAGS_LIMIT. intros limit limit'.
  split.
  { intros H. apply Nat.ltb_ge in H. by rewrite H. }
  split.
  { intros H. pose proof H as H'. apply Nat.ltb_lt in H'.
    rewrite H', substring_prefix. split; [done |].
    rewrite length_app, length_take.
    change (length ([LF; LF] ++ lit "[Content truncated...]")) with 24%nat. lia. }
  split.
  { intros H. apply Nat.ltb_ge in H. by rewrite H. }
  intros H. pose proof H as H'. apply Nat.ltb_lt in H'.
  rewrite H', substring_prefix. split; [done |].
  rewrite length_app, length_take. change (length (lit "...")) with 3%nat. lia.
Qed.

(** ** Accepting a continuation *)

(** X21: accepting a ghost text puts it into the content at the caret:
    what was before and after the caret is unchanged, the content grows
    by the length of the ghost text and the caret ends up right behind
    it; the text a following continuation request carries then ends with
    the accepted text, when this is at most 4000 code units long;
    without ghost text nothing is accepted. *)
Theorem accepted_text_is_inserted_at_caret (content ghost : jsstring) (cursor : nat) :
  ghost <> [] ->
  (cursor <= length content)%nat ->
  exists newContent newCursor,
    acceptGhostText content ghost cursor = Some (newContent, newCursor)
    /\ newContent = take cursor content ++ ghost ++ drop cursor content
    /\ length newContent = (length content + length ghost)%nat
    /\ newCursor = (cursor + length ghost)%nat
    /\ take cursor newContent = take cursor content
    /\ take (length ghost) (drop cursor newContent) = ghost
    /\ drop newCursor newContent = drop cursor content
    /\ ((length ghost <= CONTEXT_LIMIT)%nat ->
        exists earlier, continuationContext newContent newCursor = earlier ++ ghost)
    /\ acceptGhostText content [] cursor = None.
Proof.
  intros Hg Hc. unfold acceptGhostText.
  assert (Ht : truthy ghost = true) by (by destruct ghost).
  rewrite Ht, substring_prefix. cbn [negb truthy].
  eexists _, _. split; [reflexivity |]. split; [reflexivity |].
  assert (Hlen : length (take cursor content) = cursor) by (rewrite length_take; lia).
  split.
  { rewrite !length_app, Hlen, length_drop. lia. }
  split; [reflexivity |].
  split.
  { rewrite take_app_le by lia. rewrite take_ge by lia. done. }
  split.
  { rewrite drop_app_ge by lia. rewrite Hlen, Nat.sub_diag, drop_0.
    rewrite take_app_le by lia. by rewrite firstn_all. }
  split.
  { rewrite app_assoc. rewrite drop_app_ge by (rewrite length_app; lia).
    rewrite length_app, Hlen. by replace (cursor + length ghost - (cursor + length ghost))%nat
      with 0%nat by lia. }
  split; [| done].
  unfold continuationContext. generalize CONTEXT_LIMIT. intros limit Hlim.
  rewrite substring_prefix. cbv zeta.
  assert (Hbefore : take (cursor + length ghost)
                         (take cursor content ++ ghost ++ drop cursor content)
                    = take cursor content ++ ghost).
  { rewrite app_assoc. rewrite take_app_le by (rewrite length_app; lia).
    rewrite take_ge by (rewrite length_app; lia). done. }
  rewrite Hbefore.
  destruct (limit <? length (take cursor content ++ ghost))%nat eqn:E.
  - rewrite length_app, Hlen. rewrite drop_app_le by lia. by eexists.
  - by exists (take cursor content).
Qed.

Lemma accepted_text_is_inserted_at_caret_witness :
  lit " and jam" <> []
  /\ (4 <= length (lit "milk, eggs"))%nat
  /\ exists newContent newCursor,
       acceptGhostText (lit "milk, eggs") (lit " and jam") 4 = Some (newContent, newCursor)
       /\ newContent = take 4 (lit "milk, eggs") ++ lit " and jam" ++ drop 4 (lit "milk, eggs")
       /\ length newContent = (length (lit "milk, eggs") + length (lit " and jam"))%nat
       /\ newCursor = (4 + length (lit " and jam"))%nat
       /\ take 4 newContent = take 4 (lit "milk, eggs")
       /\ take (length (lit " and jam")) (drop 4 newContent) = lit " and jam"
       /\ drop newCursor newContent = drop 4 (lit "milk, eggs")
       /\ ((length (lit " and jam") <= CONTEXT_LIMIT)%nat ->
           exists earlier, continuationContext newContent newCursor = earlier ++ lit " and jam")
       /\ acceptGhostText (lit "milk, eggs") [] 4 = None.
Proof.
  assert (H1 : lit " and jam" <> []) by discriminate.
  assert (H2 : (4 <= length (lit "milk, eggs"))%nat) by (vm_compute; lia).
  do 2 (split; [assumption |]).
  exact (accepted_text_is_inserted_at_caret (lit "milk, eggs") (lit " and jam") 4 H1 H2).
Defined.

(** ** The fallback of the cross-tab notifier *)

Lemma asSyncMessage_syncMessageToJson m : asSyncMessage (syncMessageToJson m) = Some m.
Proof. destruct m as [i [v|] t]; vm_compute; reflexivity. Qed.

Lemma isNoteUpdated_syncMessageToJson m : isNoteUpdated (syncMessageToJson m) = true.
Proof. destruct m as [i [v|] t]; vm_compute; reflexivity. Qed.

Section SyncFallbackFacts.

Variable JSON_parse : jsstring -> JValue + jsstring.
Variable JSON_stringify : JValue -> jsstring.

(** X22: without [BroadcastChannel], a message posted by one tab is
    written under the fallback key and reaches the subscription of
    another tab as it was posted, with its note id, version and time, so
    that the other tab reacts as to a broadcast; the removal of the key
    that follows, changes of other keys and values that are not JSON or
    not a ['NOTE_UPDATED'] object are ignored. *)
Theorem fallback_delivers_message (m : SyncMessage) (st : App) :
  JSON_parse (JSON_stringify (syncMessageToJson m)) = inl (syncMessageToJson m) ->
  JSON_stringify (syncMessageToJson m) <> [] ->
  fold_left (fun s event => onStorageEvent JSON_parse event s)
            (fallbackEvents JSON_stringify m) st
  = onSyncMessage m st
  /\ (storageHandler JSON_parse
        (mkStorageEvent (Some STORAGE_KEY) (Some (fallbackValue JSON_stringify m)))
      ≫= asSyncMessage) = Some m
  /\ (forall value, storageHandler JSON_parse (mkStorageEvent None value) = None)
  /\ (forall key, storageHandler JSON_parse (mkStorageEvent key None) = None)
  /\ (forall key value, key <> STORAGE_KEY ->
        storageHandler JSON_parse (mkStorageEvent (Some key) value) = None)
  /\ (forall key value err, JSON_parse value = inr err ->
        storageHandler JSON_parse (mkStorageEvent key (Some value)) = None)
  /\ (forall key value v, JSON_parse value = inl v -> isNoteUpdated v = false ->
        storageHandler JSON_parse (mkStorageEvent key (Some value)) = None).
Proof.
  intros Hp Hne.
  assert (Ht : truthy (JSON_stringify (syncMessageToJson m)) = true)
    by (by destruct (JSON_stringify (syncMessageToJson m))).
  assert (H1 : storageHandler JSON_parse
                 (mkStorageEvent (Some STORAGE_KEY) (Some (fallbackValue JSON_stringify m)))
               = Some (syncMessageToJson m)).
  { unfold storageHandler, fallbackValue. cbn [ev_key ev_newValue].
    rewrite bool_decide_eq_true_2 by done. rewrite Ht, Hp. cbn [andb].
    rewrite isNoteUpdated_syncMessageToJson. by destruct m as [i [v|] t]. }
  split.
  { unfold fallbackEvents. cbn [fold_left]. unfold onStorageEvent at 2.
    rewrite H1. cbn [mbind option_bind]. rewrite asSyncMessage_syncMessageToJson.
    done. }
  split; [rewrite H1; cbn [mbind option_bind]; apply asSyncMessage_syncMessageToJson |].
  split; [done |].
  split; [intros key; by destruct key |].
  split.
  { intros key value Hk. unfold storageHandler. cbn [ev_key ev_newValue].
    destruct value; [| done]. by rewrite bool_decide_eq_false_2. }
  split.
  { intros key value err He. unfold storageHandler. cbn [ev_key ev_newValue].
    destruct key; [| done]. rewrite He. by destruct (_ && _). }
  intros key value v Hv Hu. unfold storageHandler. cbn [ev_key ev_newValue].
  destruct key; [| done]. rewrite Hv, Hu. destruct (_ && _); [| done]. by destruct v.
Qed.

End SyncFallbackFacts.

Lemma fallback_delivers_message_witness :
  MiniJSON.parse (MiniJSON.stringify (syncMessageToJson sampleMessage))
  = inl (syncMessageToJson sampleMessage)
  /\ MiniJSON.stringify (syncMessageToJson sampleMessage) <> []
  /\ fold_left (fun s event => onStorageEvent MiniJSON.parse event s)
               (fallbackEvents MiniJSON.stringify sampleMessage) twoTabsState
     = onSyncMessage sampleMessage twoTabsState.
Proof.
  assert (H1 : MiniJSON.parse (MiniJSON.stringify (syncMessageToJson sampleMessage))
               = inl (syncMessageToJson sampleMessage)) by (vm_compute; reflexivity).
  assert (H2 : MiniJSON.stringify (syncMessageToJson sampleMessage) <> [])
    by (vm_compute; discriminate).
  do 2 (split; [assumption |]).
  exact (proj1 (fallback_delivers_message MiniJSON.parse MiniJSON.stringify sampleMessage
                  twoTabsState H1 H2)).
Defined.

(** ** The grammar checker's reading of an answer *)

Section GrammarFacts.

Variable JSON_parse : jsstring -> JValue + jsstring.

(** X23: a 2xx answer whose [response] is a text always gives the grammar
    checker a result, never an error: when the text holds no readable
    JSON the result is the text itself, trimmed, as the corrected text,
    or the note's content when the text is blank, with no suggestions;
    when it holds a JSON value, the result has that value's [corrected]
    (the note's content when it is missing or falsy) and its [changes]
    when they are an array. *)
Theorem grammar_answer_always_gives_result
    (noteContent : jsstring) (r : HttpResponse) (data : JValue) (text : jsstring)
    (aiStatus : AIStatus) (now : Z) (g : GrammarChecker) :
  responseOk r = true ->
  body r = inl data ->
  getProp data "response" = Some (JStr text) ->
  exists result,
    grammarOutcome JSON_parse noteContent r = Returned result
    /\ (forall e, JSON_parse (trim (extractJsonText true text)) = inr e ->
          suggestions result = []
          /\ (trim text <> [] -> corrected result = JStr (trim text))
          /\ (trim text = [] -> corrected result = JStr noteContent))
    /\ (forall v, JSON_parse (trim (extractJsonText true text)) = inl v -> v <> JNull ->
          corrected result = orElse (getProp v "corrected") (JStr noteContent)
          /\ suggestions result = arrayOrEmpty (getProp v "changes"))
    /\ ((20 < length (trim noteContent))%nat -> aiStatus <> offline ->
        gc_cooldownRemaining g <= 0 ->
        let g' := checkGrammar JSON_parse noteContent aiStatus now r g in
        gc_result g' = Some result /\ gc_error g' = None).
Proof.
  intros Hok Hb Hr.
  destruct (getProp_Some_not_null _ _ _ Hr) as [f ->].
  assert (Hg : grammarOutcome JSON_parse noteContent r
               = let fallback :=
                   mkGrammarResult
                     (if truthy (trim text) then JStr (trim text) else JStr noteContent) [] in
                 match JSON_parse (trim (extractJsonText true text)) with
                 | inl JNull => Returned fallback
                 | inl parsedJson =>
                     Returned
                       (mkGrammarResult
                          (orElse (getProp parsedJson "corrected") (JStr noteContent))
                          (arrayOrEmpty (getProp parsedJson "changes")))
                 | inr _ => Returned fallback
                 end).
  { unfold grammarOutcome. rewrite (responseOk_not_429 r Hok), Hok, Hb. cbn [negb propOf].
    rewrite Hr. by destruct text. }
  assert (Hex : exists result, grammarOutcome JSON_parse noteContent r = Returned result).
  { rewrite Hg. cbv zeta.
    destruct (JSON_parse (trim (extractJsonText true text))) as [[] | e]; by eexists. }
  destruct Hex as [result Hres]. exists result. split; [exact Hres |].
  rewrite Hg in Hres. cbv zeta in Hres.
  split.
  { intros e He. rewrite He in Hres. injection Hres as <-. cbn [suggestions corrected].
    split; [done |]. split.
    - intros Hne. by destruct (trim text).
    - intros ->. done. }
  split.
  { intros v Hv Hnull. rewrite Hv in Hres. by destruct v; try done; injection Hres as <-. }
  intros Hlen Hoff Hcd g'. unfold g', checkGrammar. cbv zeta.
  apply Nat.ltb_lt in Hlen. rewrite Hlen. rewrite bool_decide_eq_false_2 by done.
  assert (Hc : (0 <? gc_cooldownRemaining g) = false) by (apply Z.ltb_ge; lia).
  rewrite Hc. cbn [negb orb]. rewrite Hg. cbv zeta.
  destruct (JSON_parse (trim (extractJsonText true text))) as [[] | e];
    cbv zeta in Hres; injection Hres as <-; done.
Qed.

End GrammarFacts.

Lemma grammar_answer_always_gives_result_witness :
  responseOk (okResponse (lit "This sentence is long enough to be checked.")) = true
  /\ body (okResponse (lit "This sentence is long enough to be checked."))
     = inl (JObj [(lit "response", JStr (lit "This sentence is long enough to be checked."))])
  /\ getProp (JObj [(lit "response", JStr (lit "This sentence is long enough to be checked."))])
             "response"
     = Some (JStr (lit "This sentence is long enough to be checked."))
  /\ exists result,
       grammarOutcome MiniJSON.parse longText
         (okResponse (lit "This sentence is long enough to be checked.")) = Returned result.
Proof.
  assert (H1 : responseOk (okResponse (lit "This sentence is long enough to be checked.")) = true)
    by reflexivity.
  assert (H2 : body (okResponse (lit "This sentence is long enough to be checked."))
               = inl (JObj [(lit "response",
                             JStr (lit "This sentence is long enough to be checked."))]))
    by reflexivity.
  assert (H3 : getProp (JObj [(lit "response",
                               JStr (lit "This sentence is long enough to be checked."))])
                       "response"
               = Some (JStr (lit "This sentence is long enough to be checked.")))
    by reflexivity.
  do 3 (split; [assumption |]).
  destruct (grammar_answer_always_gives_result MiniJSON.parse longText _ _ _ connected 0
              freshGrammar H1 H2 H3) as (result & Hres & _).
  by exists result.
Defined.

(** ** Finding the JSON in an answer *)

Lemma startsWith_app p s : startsWith p (p ++ s) = true.
Proof. induction p as [|c p IH]; [by destruct s |]. simpl. by rewrite N.eqb_refl. Qed.

Lemma indexOf_skip c p pre s :
  c ∉ pre -> indexOf (c :: p) (pre ++ (c :: p) ++ s) = Some (length pre).
Proof.
  induction pre as [|x pre IH]; intros H.
  - cbn [app length indexOf]. change (c :: p ++ s) with ((c :: p) ++ s).
    by rewrite startsWith_app.
  - apply not_elem_of_cons in H. destruct H as [Hne H].
    change ((x :: pre) ++ (c :: p) ++ s) with (x :: (pre ++ (c :: p) ++ s)).
    cbn [length indexOf startsWith].
    assert (Hx : (c =? x)%N = false) by (apply N.eqb_neq; congruence).
    rewrite Hx. cbn [andb]. by rewrite (IH H).
Qed.

Lemma lastIndexOfUnit_last c pre post :
  c ∉ post -> lastIndexOfUnit c (pre ++ c :: post) = Some (length pre).
Proof.
  intros H. induction pre as [|x pre IH].
  - cbn [app length lastIndexOfUnit]. by rewrite (lastIndexOfUnit_none c post H), N.eqb_refl.
  - cbn [app length lastIndexOfUnit]. by rewrite IH.
Qed.

Lemma matchFence_tagged optionalJson pre ws inner post :
  BACKTICK ∉ pre -> AllWhiteSpace ws -> BACKTICK ∉ inner ->
  (forall c rest, inner = c :: rest -> isWhiteSpace c = false) ->
  exists whole,
    matchFence optionalJson (pre ++ FENCE ++ lit "json" ++ ws ++ inner ++ FENCE ++ post)
    = Some (whole, inner).
Proof.
  intros Hpre Hws Hinner Hstart.
  set (rest := ws ++ inner ++ FENCE ++ post).
  assert (Htrim : trimStart rest = inner ++ FENCE ++ post).
  { unfold rest. rewrite (trimStart_skips ws _ Hws). apply trimStart_fixed.
    intros c r E. destruct inner as [|x inner'].
    - injection E as <- _. reflexivity.
    - injection E as <- _. by apply (Hstart x inner'). }
  assert (Hclose : indexOf FENCE (inner ++ FENCE ++ post) = Some (length inner)).
  { apply (indexOf_skip BACKTICK [BACKTICK; BACKTICK] inner post Hinner). }
  unfold matchFence. cbv zeta. destruct optionalJson; cbv beta iota.
  - assert (Hidx : indexOf FENCE (pre ++ FENCE ++ lit "json" ++ rest) = Some (length pre))
      by apply (indexOf_skip BACKTICK [BACKTICK; BACKTICK] pre _ Hpre).
    assert (Hdrop : drop (length pre + length FENCE) (pre ++ FENCE ++ lit "json" ++ rest)
                    = lit "json" ++ rest).
    { rewrite drop_app_ge by lia.
      by replace (length pre + length FENCE - length pre)%nat with 3%nat
        by (cbn [length FENCE]; lia). }
    rewrite Hidx, Hdrop, startsWith_app. cbn [andb].
    change (drop 4 (lit "json" ++ rest)) with rest.
    rewrite Htrim, Hclose, take_app_length. by eexists.
  - assert (Hidx : indexOf (FENCE ++ lit "json") (pre ++ FENCE ++ lit "json" ++ rest)
                   = Some (length pre))
      by apply (indexOf_skip BACKTICK ([BACKTICK; BACKTICK] ++ lit "json") pre _ Hpre).
    assert (Hdrop : drop (length pre + length (FENCE ++ lit "json"))
                         (pre ++ FENCE ++ lit "json" ++ rest)
                    = rest).
    { rewrite drop_app_ge by lia.
      by replace (length pre + length (FENCE ++ lit "json") - length pre)%nat with 7%nat
        by (change (length (FENCE ++ lit "json")) with 7%nat; lia). }
    rewrite Hidx, Hdrop. cbn [andb].
    rewrite Htrim, Hclose, take_app_length. by eexists.
Qed.

(** X24: what [generateInsights] and the grammar checker hand to
    [JSON.parse] is always a contiguous part of the answer: for an answer
    that holds a fenced block tagged [json], the inside of the first
    such block without the white space at its start; for an answer
    without a fence, the part from its first opening brace to its last
    closing brace; for an answer with neither, the whole answer. *)
Theorem json_part_of_answer (optionalJson : bool) :
  (forall text, Within (extractJsonText optionalJson text) text)
  /\ (forall pre ws inner post,
        BACKTICK ∉ pre -> AllWhiteSpace ws -> BACKTICK ∉ inner -> inner <> [] ->
        (forall c rest, inner = c :: rest -> isWhiteSpace c = false) ->
        extractJsonText optionalJson
          (pre ++ FENCE ++ lit "json" ++ ws ++ inner ++ FENCE ++ post) = inner)
  /\ (forall pre mid post,
        BACKTICK ∉ pre ++ [LBRACE] ++ mid ++ [RBRACE] ++ post ->
        LBRACE ∉ pre -> RBRACE ∉ post ->
        extractJsonText optionalJson (pre ++ [LBRACE] ++ mid ++ [RBRACE] ++ post)
        = [LBRACE] ++ mid ++ [RBRACE])
  /\ (forall text, BACKTICK ∉ text -> LBRACE ∉ text ->
        extractJsonText optionalJson text = text).
Proof.
  split; [intros text; apply extractJsonText_Within |].
  split.
  { intros pre ws inner post Hpre Hws Hinner Hne Hstart.
    destruct (matchFence_tagged optionalJson pre ws inner post Hpre Hws Hinner Hstart)
      as [whole Hm].
    unfold extractJsonText. rewrite Hm. by destruct inner. }
  split.
  { intros pre mid post Hb Hl Hr. unfold extractJsonText.
    rewrite (matchFence_none _ _ Hb). unfold matchBraces.
    assert (Hi : indexOf [LBRACE] (pre ++ [LBRACE] ++ mid ++ [RBRACE] ++ post)
                 = Some (length pre))
      by apply (indexOf_skip LBRACE [] pre (mid ++ [RBRACE] ++ post) Hl).
    assert (Hj : lastIndexOfUnit RBRACE (pre ++ [LBRACE] ++ mid ++ [RBRACE] ++ post)
                 = Some (length pre + 1 + length mid)%nat).
    { replace (pre ++ [LBRACE] ++ mid ++ [RBRACE] ++ post)
        with ((pre ++ [LBRACE] ++ mid) ++ RBRACE :: post)
        by (by rewrite <- !app_assoc).
      rewrite (lastIndexOfUnit_last RBRACE _ post Hr), !length_app. cbn [length].
      f_equal. lia. }
    rewrite Hi, Hj.
    assert (Hlt : (length pre <? length pre + 1 + length mid)%nat = true)
      by (apply Nat.ltb_lt; lia).
    rewrite Hlt, drop_app_length.
    replace (length pre + 1 + length mid - length pre + 1)%nat
      with (length ([LBRACE] ++ mid ++ [RBRACE]))
      by (rewrite !length_app; cbn [length]; lia).
    replace ([LBRACE] ++ mid ++ [RBRACE] ++ post)
      with (([LBRACE] ++ mid ++ [RBRACE]) ++ post)
      by (by rewrite <- !app_assoc).
    by rewrite take_app_length. }
  intros text Hb Hl. unfold extractJsonText.
  rewrite (matchFence_none _ _ Hb). unfold matchBraces.
  by rewrite (indexOf_none LBRACE [] text Hl).
Qed.

Example extractJsonText_samples :
  extractJsonText false (lit "Here it is: ```json" ++ [LF] ++ lit "{}" ++ [LF] ++ lit "``` done")
  = lit "{}" ++ [LF]
  /\ extractJsonText false (lit "Sure! {} and more") = lit "{}"
  /\ extractJsonText true (lit "no json here") = lit "no json here".
Proof. by vm_compute. Qed.

(** ** The countdown *)

Lemma ceilSeconds_bounds x : x <= 1000 * ceilSeconds x < x + 1000.
Proof.
  unfold ceilSeconds.
  pose proof (Z.div_mod (- x) 1000 ltac:(lia)).
  pose proof (Z.mod_pos_bound (- x) 1000 ltac:(lia)). lia.
Qed.

Section CountdownFacts.

Variable JSON_parse : jsstring -> JValue + jsstring.

(** X25: the countdown of the insights panel and of the grammar checker
    shows, at each tick, the time left of the 3000 ms since the latest
    request in whole seconds, rounded up, so between 1 and 3 while the
    interval runs, and 0 exactly when 3000 ms or more have passed; once a
    tick has shown 0 the grammar checker sends the next check. *)
Theorem countdown_shows_seconds_left (now : Z) (p : InsightsPanel) (g : GrammarChecker) :
  let shown := ip_cooldownRemaining (insightsTick now p) in
  let shown' := gc_cooldownRemaining (grammarTick now g) in
  (shown = 0 <-> COOLDOWN_MS <= now - ip_lastRequestTime p)
  /\ (0 <= now - ip_lastRequestTime p < COOLDOWN_MS ->
      1 <= shown <= 3
      /\ COOLDOWN_MS - (now - ip_lastRequestTime p) <= 1000 * shown
         < COOLDOWN_MS - (now - ip_lastRequestTime p) + 1000)
  /\ (shown' = 0 <-> COOLDOWN_MS <= now - gc_lastCheckTime g)
  /\ (0 <= now - gc_lastCheckTime g < COOLDOWN_MS ->
      1 <= shown' <= 3
      /\ COOLDOWN_MS - (now - gc_lastCheckTime g) <= 1000 * shown'
         < COOLDOWN_MS - (now - gc_lastCheckTime g) + 1000)
  /\ (COOLDOWN_MS <= now - gc_lastCheckTime g ->
      forall noteContent aiStatus t r,
        (20 < length (trim noteContent))%nat -> aiStatus <> offline ->
        gc_fetched (checkGrammar JSON_parse noteContent aiStatus t r (grammarTick now g))
        = gc_fetched g ++ [t]).
Proof.
  intros shown shown'.
  assert (Hcases : forall last,
            let remaining := ceilSeconds (COOLDOWN_MS - (now - last)) in
            let value := if remaining <=? 0 then 0 else remaining in
            (value = 0 <-> COOLDOWN_MS <= now - last)
            /\ (0 <= now - last < COOLDOWN_MS ->
                1 <= value <= 3
                /\ COOLDOWN_MS - (now - last) <= 1000 * value
                   < COOLDOWN_MS - (now - last) + 1000)).
  { intros last remaining value. subst value remaining.
    pose proof (ceilSeconds_bounds (COOLDOWN_MS - (now - last))) as Hb.
    unfold COOLDOWN_MS in *.
    destruct (ceilSeconds (3000 - (now - last)) <=? 0) eqn:E.
    - apply Z.leb_le in E. split; [split; [lia | done] | lia].
    - apply Z.leb_gt in E. split; [split; lia | lia]. }
  destruct (Hcases (ip_lastRequestTime p)) as [H1 H2].
  destruct (Hcases (gc_lastCheckTime g)) as [H3 H4].
  split; [exact H1 |]. split; [exact H2 |]. split; [exact H3 |]. split; [exact H4 |].
  intros Hpassed noteContent aiStatus t r Hlen Hoff.
  destruct (checkGrammar_issued JSON_parse noteContent aiStatus t r (grammarTick now g))
    as (Hf & _); [done | done | | exact Hf].
  apply H3 in Hpassed. cbv zeta in Hpassed.
  unfold grammarTick. cbn [gc_cooldownRemaining]. cbv zeta. rewrite Hpassed. lia.
Qed.

End CountdownFacts.

(** ** Choosing a subject *)

(** X26: choosing a subject for the selected note, when it differs from
    the one the note has, changes the note in place: only its subject,
    its time and its version, which goes up by one; the note is stored
    and broadcast; choosing the subject the note already has, or choosing
    one while no note of the list is selected, touches neither list nor
    store and broadcasts nothing. *)
Theorem subject_change_saves_selected_note
    (a : jsstring) (old : Note) (subject : SubjectType) (now : Z) (st : App) :
  activeNoteId st = Some a ->
  a <> [] ->
  findNote a (notes st) = Some old ->
  let st' := handleSubjectChange subject now true st in
  (subjectType old <> Some subject ->
     let changed := mkNote (id old) (title old) (content old) now
                           (Some (orNum (version old) 0 + 1)) (tags old) (Some subject)
                           (aiMetadata old) (aiInsights old) in
     findNote a (notes st') = Some changed
     /\ length (notes st') = length (notes st)
     /\ (forall k, k <> a -> findNote k (notes st') = findNote k (notes st))
     /\ db st' = <[a := saveNoteRecord changed]> (db st)
     /\ outbox st' = outbox st ++ [mkSyncMessage a (version changed) now])
  /\ (subjectType old = Some subject ->
      notes st' = notes st /\ db st' = db st /\ outbox st' = outbox st)
  /\ (forall st0, activeNoteId st0 = None ->
        let st0' := handleSubjectChange subject now true st0 in
        notes st0' = notes st0 /\ db st0' = db st0 /\ outbox st0' = outbox st0).
Proof.
  intros Ha Hne Hf st'.
  assert (Ht : truthy a = true) by (by destruct a).
  pose proof (findNote_id _ _ _ Hf) as Hid.
  split.
  - intros Hdiff changed.
    pose proof Hf as Hf'. apply findNote_list_find in Hf'. destruct Hf' as [k Hk].
    pose proof (list_find_id _ _ _ _ Hk) as [Hlk _].
    assert (Hidx : findIndex (id changed) (notes (setSubjectType subject st)) = Some k).
    { unfold findIndex. cbn [id changed notes setSubjectType]. rewrite Hid. by rewrite Hk. }
    assert (E : st' = saveAndBroadcast true changed now
                        (setNotes (<[k := changed]> (notes st)) (setSubjectType subject st))).
    { unfold st', handleSubjectChange. cbv zeta. rewrite Ha, Ht, Hf.
      rewrite bool_decide_eq_false_2 by done.
      fold changed. unfold handleUpdateNoteFull. by rewrite Hidx. }
    rewrite E. unfold saveAndBroadcast, saveNote.
    cbn [notes db outbox postMessage setDb setNotes setSubjectType id changed version].
    rewrite Hid.
    split.
    { apply findNote_list_find. exists k.
      apply (list_find_replaced a (notes st) k old); [done |]. by cbn. }
    split; [apply length_insert |].
    split.
    { intros j Hj. apply (findNote_insert_other _ k old); [done | done |]. by rewrite Hid. }
    done.
  - split.
    + intros Hsame. unfold st', handleSubjectChange. cbv zeta.
      rewrite Ha, Ht, Hf. by rewrite bool_decide_eq_true_2.
    + intros st0 H0 st0'. unfold st0', handleSubjectChange. cbv zeta. by rewrite H0.
Qed.

Lemma subject_change_saves_selected_note_witness :
  activeNoteId existingApp = Some (id sampleNote)
  /\ id sampleNote <> []
  /\ findNote (id sampleNote) (notes existingApp) = Some sampleNote
  /\ (subjectType sampleNote = Some general ->
      notes (handleSubjectChange general 2000 true existingApp) = notes existingApp
      /\ db (handleSubjectChange general 2000 true existingApp) = db existingApp
      /\ outbox (handleSubjectChange general 2000 true existingApp) = outbox existingApp).
Proof.
  assert (H1 : activeNoteId existingApp = Some (id sampleNote)) by reflexivity.
  assert (H2 : id sampleNote <> []) by discriminate.
  assert (H3 : findNote (id sampleNote) (notes existingApp) = Some sampleNote) by reflexivity.
  do 3 (split; [assumption |]).
  exact (proj1 (proj2 (subject_change_saves_selected_note (id sampleNote) sampleNote general
                         2000 existingApp H1 H2 H3))).
Defined.
